(** * McGill course visualizer: closure, graph assembly and view state

    A shallow embedding of the front-end logic of [js/main.js] and of its
    richer sibling copy (the one with cumulative click selection and the
    Cognitive Science category table).  The two copies share
    [getRelevantCoursesForProgram], [generateGraphElements],
    [addRequirementGraphElements], [displayGraphForCourses] and
    [handleProgramChange] word for word; [extractGroup],
    [handleNetworkClick] and [handleCategoryFilterChange] are embedded
    from the richer copy.

    JavaScript values are modelled as follows: strings as [string], a
    [Set] as the list of its members in insertion order, arrays as lists,
    objects as records whose optional fields are [option]s, the [vis.DataSet]
    collections as lists of items with pairwise distinct ids, and an
    exception as [None], or as a [Raised] outcome where a handler has
    written to the page before the statement that raises. *)

From Stdlib Require Import String Ascii List Bool Arith Lia QArith DecimalString.
Import ListNotations.
Local Close Scope Q_scope.
Local Open Scope string_scope.
Local Open Scope list_scope.
Local Open Scope nat_scope.

Set Implicit Arguments.
Local Set Warnings "-register-all".

(** ** JavaScript helpers *)

(** Template literals print a number in decimal. *)
Definition numToString (n : nat) : string :=
  NilEmpty.string_of_uint (Nat.to_uint n).

(** [s.startsWith(p)] *)
Definition startsWith (s p : string) : bool := String.prefix p s.

(** [String.prototype.toUpperCase], on the ASCII letters the data uses. *)
Definition upperAscii (c : ascii) : ascii :=
  let n := nat_of_ascii c in
  if (97 <=? n) && (n <=? 122) then ascii_of_nat (n - 32) else c.

Fixpoint toUpperCase (s : string) : string :=
  match s with
  | EmptyString => EmptyString
  | String c r => String (upperAscii c) (toUpperCase r)
  end.

(** [s.split("-")[0]]: everything before the first hyphen. *)
Fixpoint splitHyphenHead (s : string) : string :=
  match s with
  | EmptyString => EmptyString
  | String c r => if Ascii.eqb c "-" then EmptyString else String c (splitHyphenHead r)
  end.

(** [s.replace(' ', '-')]: only the first blank is replaced. *)
Fixpoint replaceFirstSpace (s : string) : string :=
  match s with
  | EmptyString => EmptyString
  | String c r => if Ascii.eqb c " " then String "-" r else String c (replaceFirstSpace r)
  end.

(** A string is falsy exactly when it is empty. *)
Definition truthyStr (s : string) : bool :=
  match s with EmptyString => false | _ => true end.

(** [a || b] on strings. *)
Definition orElseStr (a b : string) : string := if truthyStr a then a else b.

(** A JavaScript [Set] of strings: members in insertion order. *)
Module JSSet.
Definition t := list string.
Definition empty : t := [].
Definition has (s : t) (x : string) : bool := existsb (String.eqb x) s.
Definition add (x : string) (s : t) : t := if has s x then s else s ++ [x].
Definition addAll (xs : list string) (s : t) : t := fold_left (fun acc x => add x acc) xs s.
Definition ofArray (xs : list string) : t := addAll xs empty.
Definition size (s : t) : nat := length s.
Definition toArray (s : t) : list string := s.
End JSSet.

(** ** Data model: the JSON records *)

(** One requirement node, discriminated by its [type] field.  A missing
    [conditions] array behaves like an empty one at every use; [count] is
    a natural number. *)
Inductive Requirement : Type :=
| COURSE (code : string)
| LOGICAL_OPERATOR (operator : string) (conditions : list Requirement)
| TEXTUAL (text : string)
| N_OF_LIST (count : nat) (conditions : list Requirement).

Record Course : Type := mkCourse {
  code : string;
  title : string;
  description : string;
  credits : string;
  prerequisites_raw : string;
  corequisites_raw : string;
  prerequisites_parsed : list Requirement;
  corequisites_parsed : list Requirement
}.

(** A program; [courses] may be missing from the JSON object. *)
Record Program : Type := mkProgram {
  program : string;
  courses : option (list string)
}.

(** The relation an edge stands for: the [type] argument of the builder. *)
Inductive ReqType : Type := prereq | coreq.

Definition typeStr (t : ReqType) : string :=
  match t with prereq => "prereq" | coreq => "coreq" end.

(** Induction over requirement trees, through the [conditions] lists. *)
Section RequirementInd.
Variable P : Requirement -> Prop.
Hypothesis HCourse : forall c, P (COURSE c).
Hypothesis HLogical : forall op conds, Forall P conds -> P (LOGICAL_OPERATOR op conds).
Hypothesis HTextual : forall t, P (TEXTUAL t).
Hypothesis HNOfList : forall n conds, Forall P conds -> P (N_OF_LIST n conds).

Fixpoint Requirement_tree_ind (r : Requirement) : P r :=
  match r with
  | COURSE c => HCourse c
  | LOGICAL_OPERATOR op conds =>
      HLogical op
        ((fix go (l : list Requirement) : Forall P l :=
            match l with
            | [] => Forall_nil P
            | x :: xs => Forall_cons x (Requirement_tree_ind x) (go xs)
            end) conds)
  | TEXTUAL t => HTextual t
  | N_OF_LIST n conds =>
      HNOfList n
        ((fix go (l : list Requirement) : Forall P l :=
            match l with
            | [] => Forall_nil P
            | x :: xs => Forall_cons x (Requirement_tree_ind x) (go xs)
            end) conds)
  end.
End RequirementInd.

(** ** CourseCatalog and ClosureResolver *)

Section Catalog.

(** The course array loaded at start-up; never mutated afterwards. *)
Variable coursesData : list Course.

(** [coursesData.find((c) => c.code === code)] *)
Definition findCourse (c : string) : option Course :=
  find (fun r => String.eqb (code r) c) coursesData.

Definition inCatalog (c : string) : bool :=
  match findCourse c with Some _ => true | None => false end.

(** The mutable variables of [getRelevantCoursesForProgram]: the queue
    (never shifted, read through [head]) and the result set. *)
Record Closure : Type := mkClosure {
  queue : list string;
  head : nat;
  relevantCodes : JSSet.t
}.

(** One element of the [requirements.forEach] of [addDependencies]:
    a COURSE that resolves and is new is added and enqueued, a
    LOGICAL_OPERATOR is scanned recursively, anything else is ignored. *)
Fixpoint addDependency (req : Requirement) (st : Closure) : Closure :=
  match req with
  | COURSE c =>
      if inCatalog c && negb (JSSet.has (relevantCodes st) c)
      then mkClosure (queue st ++ [c]) (head st) (JSSet.add c (relevantCodes st))
      else st
  | LOGICAL_OPERATOR _ conds =>
      fold_left (fun s r => addDependency r s) conds st
  | TEXTUAL _ => st
  | N_OF_LIST _ _ => st
  end.

Definition addDependencies (requirements : list Requirement) (st : Closure) : Closure :=
  fold_left (fun s r => addDependency r s) requirements st.

(** The body of the [while (head < queue.length)] loop: [queue[head++]],
    the lookup of its record ([continue] when there is none), the two
    scans. *)
Definition visit (st : Closure) : Closure :=
  let st1 := mkClosure (queue st) (S (head st)) (relevantCodes st) in
  match nth_error (queue st) (head st) with
  | None => st1
  | Some currentCode =>
      match findCourse currentCode with
      | None => st1
      | Some course =>
          addDependencies (corequisites_parsed course)
            (addDependencies (prerequisites_parsed course) st1)
      end
  end.

(** The loop, with an iteration budget; [None] when the budget runs out. *)
Fixpoint bfs (fuel : nat) (st : Closure) : option Closure :=
  match fuel with
  | 0 => None
  | S fuel' =>
      if head st <? length (queue st) then bfs fuel' (visit st) else Some st
  end.

(** The state before the loop: the seeds present in the catalog. *)
Definition initialClosure (programCourseCodes : list string) : Closure :=
  let q := filter inCatalog programCourseCodes in
  mkClosure q 0 (JSSet.addAll q JSSet.empty).

(** Catalog records whose code is not yet in the result set. *)
Definition unseen (rel : JSSet.t) : nat :=
  length (filter (fun r => negb (JSSet.has rel (code r))) coursesData).

(** Iterations still possible: one more than this budget always suffices. *)
Definition budget (st : Closure) : nat :=
  unseen (relevantCodes st) + length (queue st) - head st.

(** The final state of the traversal, queue included. *)
Definition runClosure (programCourseCodes : list string) : option Closure :=
  let st0 := initialClosure programCourseCodes in
  bfs (S (budget st0)) st0.

(** [getRelevantCoursesForProgram]: [Array.from(relevantCodes)]. *)
Definition getRelevantCoursesForProgram (programCourseCodes : list string)
  : option (list string) :=
  option_map (fun st => JSSet.toArray (relevantCodes st)) (runClosure programCourseCodes).

End Catalog.

(** ** Categories: [extractGroup] *)

(** [addCogSciCourse]: hyphenate the code; the first category given to a
    code stays. *)
Definition addCogSciCourse (m : list (string * string))
    (courseCodeWithSpace categoryName : string) : list (string * string) :=
  let courseCodeWithHyphen := replaceFirstSpace courseCodeWithSpace in
  if existsb (fun kv => String.eqb (fst kv) courseCodeWithHyphen) m
  then m else m ++ [(courseCodeWithHyphen, categoryName)].

Definition addCogSciCourses (categoryName : string) (cs : list string)
    (m : list (string * string)) : list (string * string) :=
  fold_left (fun acc c => addCogSciCourse acc c categoryName) cs m.

Definition complementaryCompSci : list string :=
  ["COMP 206"; "COMP 250"; "COMP 251"; "COMP 280"; "COMP 302"; "COMP 330";
   "COMP 345"; "COMP 360"; "COMP 400"; "COMP 409"; "COMP 417"; "COMP 421";
   "COMP 424"; "COMP 445"; "COMP 451"; "COMP 523"; "COMP 527"; "COMP 531";
   "COMP 545"; "COMP 546"; "COMP 549"; "COMP 550"; "COMP 551"; "COMP 558";
   "COMP 562"; "COMP 579"; "MATH 222"; "MATH 223"; "MATH 240"].

Definition complementaryLinguistics : list string :=
  ["LING 201"; "LING 210"; "LING 260"].

Definition complementaryPhilosophy : list string :=
  ["NSCI 300"; "PHIL 306"; "PHIL 310"; "PHIL 311"; "PHIL 341"; "PHIL 354";
   "PHIL 355"; "PHIL 360"; "PHIL 361"; "PHIL 367"; "PHIL 411"; "PHIL 415";
   "PHIL 419"; "PHIL 421"; "PHIL 441"; "PHIL 470"; "PHIL 474"].

Definition complementaryPsychology : list string :=
  ["ANTH 440"; "MUMT 250"; "PSYC 204"; "PSYC 211"; "PSYC 212"; "PSYC 213";
   "PSYC 301"; "PSYC 302"; "PSYC 303"; "PSYC 304"; "PSYC 305"; "PSYC 306";
   "PSYC 310"; "PSYC 311"; "PSYC 315"; "PSYC 317"; "PSYC 318"; "PSYC 319";
   "PSYC 340"; "PSYC 341"; "PSYC 342"; "PSYC 352"; "PSYC 403"; "PSYC 406";
   "PSYC 410"; "PSYC 413"; "PSYC 415"; "PSYC 427"; "PSYC 433"; "PSYC 439";
   "PSYC 443"; "PSYC 470"; "PSYC 506"; "PSYC 513"; "PSYC 514"; "PSYC 522";
   "PSYC 526"; "PSYC 529"; "PSYC 531"; "PSYC 537"; "PSYC 538"; "PSYC 541";
   "PSYC 545"; "PSYC 560"].

Definition complementaryNeuroscience : list string :=
  ["ANAT 321"; "BIOL 200"; "BIOL 201"; "BIOL 216"; "BIOL 306"; "BIOL 307";
   "BIOL 320"; "BIOL 389"; "BIOL 414"; "BIOL 506"; "BIOL 507"; "BIOL 517";
   "BIOL 530"; "BIOL 532"; "BIOL 580"; "BIOL 588"; "CHEM 212"; "NEUR 310";
   "NEUR 503"; "NEUR 507"; "NSCI 200"; "NSCI 300"; "PHGY 209"; "PHGY 311";
   "PHGY 314"; "PHGY 556"; "PSYC 211"; "PSYC 302"; "PSYC 303"; "PSYC 306";
   "PSYC 311"; "PSYC 317"; "PSYC 318"; "PSYC 342"; "PSYC 410"; "PSYC 415";
   "PSYC 427"; "PSYC 433"; "PSYC 443"; "PSYC 444"; "PSYC 502"; "PSYC 506";
   "PSYC 514"; "PSYC 522"; "PSYC 526"; "PSYC 529"; "PSYT 301"; "PSYT 500";
   "PSYT 515"].

(** The table, filled in the order of the source: required, core, then
    complementary courses, then the research course. *)
Definition cognitiveScienceProgramMap : list (string * string) :=
  Eval vm_compute in
  addCogSciCourses "CogSci Program: Research Course" ["COGS 401"]
  (addCogSciCourses "CogSci Program: Comp Neuroscience" complementaryNeuroscience
  (addCogSciCourses "CogSci Program: Comp Psychology" complementaryPsychology
  (addCogSciCourses "CogSci Program: Comp Philosophy" complementaryPhilosophy
  (addCogSciCourses "CogSci Program: Comp Linguistics" complementaryLinguistics
  (addCogSciCourses "CogSci Program: Comp CompSci" complementaryCompSci
  (addCogSciCourses "CogSci Program: Core Psychology" ["PSYC 212"; "PSYC 213"]
  (addCogSciCourses "CogSci Program: Core Neuroscience" ["NSCI 200"; "PSYC 211"]
  (addCogSciCourses "CogSci Program: Core Philosophy" ["PHIL 200"; "PHIL 201"; "PHIL 221"]
  (addCogSciCourses "CogSci Program: Core Linguistics" ["LING 201"; "LING 210"; "LING 260"]
  (addCogSciCourses "CogSci Program: Core CompSci" ["COMP 202"; "COMP 204"; "COMP 250"]
  (addCogSciCourses "CogSci Program: Core Statistics" ["MATH 203"; "MATH 323"; "PSYC 204"]
  (addCogSciCourses "CogSci Program: Core Logic" ["COMP 230"; "MATH 318"; "PHIL 210"]
  (addCogSciCourses "CogSci Program: Required" ["NSCI 201"] []))))))))))))).

(** [extractGroup]: the program table first, the subject prefix otherwise. *)
Definition extractGroup (courseCode : string) : string :=
  match find (fun kv => String.eqb (fst kv) courseCode) cognitiveScienceProgramMap with
  | Some kv => snd kv
  | None => splitHyphenHead courseCode
  end.

(** ** Graph elements *)

(** The [font] object a render pass writes on a node. *)
Record FontProperties : Type := mkFont {
  font_size : nat;
  font_face : string;
  font_bold : bool;
  font_strokeWidth : nat;
  font_strokeColor : string;
  font_color : string;
  font_multi : option bool;
  font_align : option string
}.

(** What a node's [details] field holds, when it has one. *)
Inductive NodeDetails : Type :=
| NoDetails
| CourseDetails (c : Course)
| RequirementDetails (r : Requirement).

Module Node.
(** A node object; [opacity], [font] and [borderWidth] are absent until
    a render pass sets them. *)
Record t : Type := mk {
  id : string;
  label : string;
  group : string;
  title : string;
  size : option nat;
  details : NodeDetails;
  opacity : option Q;
  font : option FontProperties;
  borderWidth : option nat
}.
End Node.

(** The values an edge's [color] field takes. *)
Inductive EdgeColor : Type :=
| ColorPair (color highlight : string)
| ColorOpacity (color : string) (opacity : Q)
| ColorNull.

Module Edge.
Record t : Type := mk {
  from : string;
  to : string;
  arrows : string;
  color : EdgeColor;
  dashes : bool;
  title : string;
  baseColorType : ReqType;
  id : string
}.
End Edge.

Definition DIM_PREREQ_COLOR : EdgeColor :=
  ColorPair "rgba(41, 128, 185, 0.15)" "rgba(52, 152, 219, 0.25)".
Definition DIM_COREQ_COLOR : EdgeColor :=
  ColorPair "rgba(39, 174, 96, 0.15)" "rgba(46, 204, 113, 0.25)".
Definition HIGHLIGHT_PREREQ_COLOR : EdgeColor := ColorPair "#2980b9" "#3498db".
Definition HIGHLIGHT_COREQ_COLOR : EdgeColor := ColorPair "#27ae60" "#2ecc71".

Definition dimColor (type : ReqType) : EdgeColor :=
  match type with prereq => DIM_PREREQ_COLOR | coreq => DIM_COREQ_COLOR end.

Definition highlightColor (type : ReqType) : EdgeColor :=
  match type with prereq => HIGHLIGHT_PREREQ_COLOR | coreq => HIGHLIGHT_COREQ_COLOR end.

Definition nodeIds (ns : list Node.t) : list string := map Node.id ns.
Definition edgeIds (es : list Edge.t) : list string := map Edge.id es.

(** [arr.some((x) => x.id === i)] *)
Definition someNodeId (ns : list Node.t) (i : string) : bool :=
  existsb (fun n => String.eqb (Node.id n) i) ns.
Definition someEdgeId (es : list Edge.t) (i : string) : bool :=
  existsb (fun e => String.eqb (Edge.id e) i) es.

(** ** GraphBuilder *)

(** [idCounter]: the three counters of one build pass. *)
Record IdCounter : Type := mkCounter {
  logic : nat;
  textual : nat;
  nOfList : nat
}.

(** What one build pass mutates. *)
Record Build : Type := mkBuild {
  idCounter : IdCounter;
  nodesArray : list Node.t;
  edgesArray : list Edge.t
}.

(** [if (!nodesArray.some((n) => n.id === node.id)) nodesArray.push(node)] *)
Definition pushNode (n : Node.t) (st : Build) : Build :=
  if someNodeId (nodesArray st) (Node.id n) then st
  else mkBuild (idCounter st) (nodesArray st ++ [n]) (edgesArray st).

(** [if (!edgesArray.some((e) => e.id === edge.id)) edgesArray.push(edge)] *)
Definition pushEdge (e : Edge.t) (st : Build) : Build :=
  if someEdgeId (edgesArray st) (Edge.id e) then st
  else mkBuild (idCounter st) (nodesArray st) (edgesArray st ++ [e]).

Definition bumpLogic (st : Build) : Build :=
  let c := idCounter st in
  mkBuild (mkCounter (S (logic c)) (textual c) (nOfList c)) (nodesArray st) (edgesArray st).

Definition bumpTextual (st : Build) : Build :=
  let c := idCounter st in
  mkBuild (mkCounter (logic c) (S (textual c)) (nOfList c)) (nodesArray st) (edgesArray st).

Definition bumpNOfList (st : Build) : Build :=
  let c := idCounter st in
  mkBuild (mkCounter (logic c) (textual c) (S (nOfList c))) (nodesArray st) (edgesArray st).

(** An edge as the builder writes it: the id is [from_to_type]. *)
Definition mkEdge (from to : string) (type : ReqType) (dashes : bool) (title : string)
  : Edge.t :=
  Edge.mk from to "to" (dimColor type) dashes title type
    (from ++ "_" ++ to ++ "_" ++ typeStr type)%string.

(** [targetNodeId.startsWith("logic_") ? phrase : ""] *)
Definition ifLogicTarget (targetNodeId phrase : string) : string :=
  if startsWith targetNodeId "logic_" then phrase else "".

Definition logicNodeId (originalCourseCode : string) (type : ReqType)
    (operator : string) (n : nat) : string :=
  ("logic_" ++ originalCourseCode ++ "_" ++ typeStr type ++ "_" ++ operator
     ++ "_" ++ numToString n)%string.

Definition orNodeId (originalCourseCode : string) (type : ReqType) (n : nat) : string :=
  ("logic_" ++ originalCourseCode ++ "_" ++ typeStr type ++ "_OR_N_OF_1_"
     ++ numToString n)%string.

Definition textualNodeId (originalCourseCode : string) (type : ReqType) (n : nat) : string :=
  ("textual_" ++ originalCourseCode ++ "_" ++ typeStr type ++ "_" ++ numToString n)%string.

Definition nOfListNodeId (originalCourseCode : string) (type : ReqType)
    (count n : nat) : string :=
  ("n_of_list_" ++ originalCourseCode ++ "_" ++ typeStr type ++ "_"
     ++ numToString count ++ "_" ++ numToString n)%string.

(** The node objects of the four synthetic kinds and of a referenced course. *)
Definition requiredCourseNode (courseCode : string) (courseData : Course) : Node.t :=
  Node.mk courseCode courseCode (extractGroup courseCode)
    (orElseStr (title courseData) courseCode) None (CourseDetails courseData)
    None None None.

Definition logicNode (i operator originalCourseCode : string) : Node.t :=
  Node.mk i operator
    (if String.eqb operator "AND" then "AndNode" else "OrNode")
    (operator ++ " condition for " ++ originalCourseCode)%string
    (Some 12) NoDetails None None None.

Definition textualNode (i nodeLabel originalCourseCode : string) : Node.t :=
  Node.mk i nodeLabel "TextualNode"
    ("Textual: " ++ nodeLabel ++ " (for " ++ originalCourseCode ++ ")")%string
    None NoDetails None None None.

Definition orOfListNode (i originalCourseCode : string) (requirement : Requirement) : Node.t :=
  Node.mk i "OR" "OrNode"
    ("OR condition (1 of list) for " ++ originalCourseCode)%string
    (Some 12) (RequirementDetails requirement) None None None.

Definition nOfListNode (i nodeLabel originalCourseCode : string)
    (requirement : Requirement) : Node.t :=
  Node.mk i nodeLabel "NOfListNode"
    (nodeLabel ++ " (for " ++ originalCourseCode ++ ")")%string
    None (RequirementDetails requirement) None None None.

Section Builder.

Variable coursesData : list Course.

(** [addRequirementGraphElements].  The [displaySet] argument of the
    source is passed along but never read, so it is left out; the
    arrays and the counter object it mutates are the [Build] state. *)
Fixpoint addRequirementGraphElements (requirement : Requirement)
    (targetNodeId : string) (type : ReqType) (originalCourseCode : string)
    (st : Build) {struct requirement} : Build :=
  match requirement with
  | COURSE courseCode =>
      match findCourse coursesData courseCode with
      | Some courseData =>
          pushEdge
            (mkEdge courseCode targetNodeId type
               (match type with prereq => false | coreq => true end)
               (courseCode ++ " "
                  ++ match type with
                     | prereq => "is a prerequisite for"
                     | coreq => "is a corequisite with"
                     end
                  ++ " " ++ ifLogicTarget targetNodeId "a condition group for"
                  ++ " " ++ originalCourseCode)%string)
            (pushNode (requiredCourseNode courseCode courseData) st)
      | None => st
      end
  | LOGICAL_OPERATOR op conds =>
      let st1 := bumpLogic st in
      let operator := toUpperCase op in
      let i := logicNodeId originalCourseCode type operator (logic (idCounter st1)) in
      let st2 := pushNode (logicNode i operator originalCourseCode) st1 in
      let st3 :=
        pushEdge
          (mkEdge i targetNodeId type false
             ("This " ++ operator ++ " group is a " ++ typeStr type ++ " for "
                ++ ifLogicTarget targetNodeId "another condition group for"
                ++ " " ++ originalCourseCode)%string) st2 in
      fold_left
        (fun s condition =>
           addRequirementGraphElements condition i type originalCourseCode s)
        conds st3
  | TEXTUAL text =>
      let st1 := bumpTextual st in
      let i := textualNodeId originalCourseCode type (textual (idCounter st1)) in
      let nodeLabel := orElseStr text "Textual requirement" in
      let st2 := pushNode (textualNode i nodeLabel originalCourseCode) st1 in
      pushEdge
        (mkEdge i targetNodeId type false
           ("This textual condition is a " ++ typeStr type ++ " for "
              ++ ifLogicTarget targetNodeId "a condition group for"
              ++ " " ++ originalCourseCode)%string) st2
  | N_OF_LIST count conds =>
      if count =? 1 then
        let st1 := bumpLogic st in
        let i := orNodeId originalCourseCode type (logic (idCounter st1)) in
        let st2 := pushNode (orOfListNode i originalCourseCode requirement) st1 in
        let st3 :=
          pushEdge
            (mkEdge i targetNodeId type false
               ("This OR group (1 of list) is a " ++ typeStr type ++ " for "
                  ++ ifLogicTarget targetNodeId "another condition for"
                  ++ " " ++ originalCourseCode)%string) st2 in
        fold_left
          (fun s itemInList =>
             addRequirementGraphElements itemInList i type originalCourseCode s)
          conds st3
      else
        let st1 := bumpNOfList st in
        let i := nOfListNodeId originalCourseCode type count (nOfList (idCounter st1)) in
        let nodeLabel := (numToString count ++ " of:")%string in
        let st2 := pushNode (nOfListNode i nodeLabel originalCourseCode requirement) st1 in
        let st3 :=
          pushEdge
            (mkEdge i targetNodeId type false
               ("This '" ++ nodeLabel ++ "' group is a " ++ typeStr type ++ " for "
                  ++ ifLogicTarget targetNodeId "another condition group for"
                  ++ " " ++ originalCourseCode)%string) st2 in
        fold_left
          (fun s itemInList =>
             addRequirementGraphElements itemInList i type originalCourseCode s)
          conds st3
  end.

(** [reqs.forEach((reqDetail) => addRequirementGraphElements(reqDetail,
    course.code, type, ..., course.code))] *)
Definition addRequirements (reqs : list Requirement) (courseCode : string)
    (type : ReqType) (st : Build) : Build :=
  fold_left
    (fun s reqDetail => addRequirementGraphElements reqDetail courseCode type courseCode s)
    reqs st.

(** The node the main loop pushes for a displayed course, unguarded. *)
Definition displayedCourseNode (course : Course) : Node.t :=
  Node.mk (code course) (code course) (extractGroup (code course))
    (code course ++ ": " ++ title course)%string None NoDetails None None None.

(** One turn of [displaySet.forEach] in [generateGraphElements]. *)
Definition addDisplayedCourse (st : Build) (courseCode : string) : Build :=
  match findCourse coursesData courseCode with
  | None => st
  | Some course =>
      let st1 :=
        mkBuild (idCounter st) (nodesArray st ++ [displayedCourseNode course])
          (edgesArray st) in
      addRequirements (corequisites_parsed course) (code course) coreq
        (addRequirements (prerequisites_parsed course) (code course) prereq st1)
  end.

Definition emptyBuild : Build := mkBuild (mkCounter 0 0 0) [] [].

(** [generateGraphElements]: the arrays after the pass over the display
    set (the input with repeated codes removed, in first-occurrence order). *)
Definition generateGraphElements (courseCodesToDisplay : list string) : Build :=
  fold_left addDisplayedCourse (JSSet.ofArray courseCodesToDisplay) emptyBuild.

End Builder.

(** ** The page state and the rendering library *)

(** The variables and DOM values the handlers read and write. *)
Record AppState : Type := mkApp {
  allNodesDataSet : list Node.t;
  allEdgesDataSet : list Edge.t;
  selectedForHighlighting_NodeIds : JSSet.t;
  categoryFilterSelect_value : string;
  programSelect_value : string;
  sidebarVisible : bool;
  sidebarContent : option Course;
  loadingIndicatorShown : bool
}.

(** [DataSet.add(items)]: an item whose id is already held raises. *)
Fixpoint dataSetAdd (A : Type) (idOf : A -> string) (items ds : list A)
  : option (list A) :=
  match items with
  | [] => Some ds
  | x :: rest =>
      if existsb (fun y => String.eqb (idOf y) (idOf x)) ds then None
      else dataSetAdd idOf rest (ds ++ [x])
  end.

(** The [uniqueNodesById] map of [displayGraphForCourses], read back with
    [Array.from(map.values())]: the first node of each id, in order. *)
Definition uniqueNodesById (nodes : list Node.t) : list Node.t :=
  fold_left (fun acc n => if someNodeId acc (Node.id n) then acc else acc ++ [n]) nodes [].

(** A font or node option object of the library configuration. *)
Record FontOptions : Type := mkFontOptions {
  fo_size : option nat;
  fo_face : option string;
  fo_bold : option bool;
  fo_strokeWidth : option nat;
  fo_strokeColor : option string;
  fo_color : option string;
  fo_multi : option bool;
  fo_align : option string
}.

Record NodeOptions : Type := mkNodeOptions {
  no_font : option FontOptions;
  no_borderWidth : option nat
}.

(** [network.options.edges], as far as a handler reads it: its [color]
    when that is a string; an undefined colour and a colour object are
    both [None], the handler takes the same branch for them. *)
Record EdgesOptions : Type := mkEdgesOptions {
  eo_color : option string
}.

(** What the handlers ask of the [network] object: its adjacency queries
    and its configuration.  The click handler tests that [network] and
    its [getConnectedNodes] exist before asking; it is registered on the
    network itself, so the test holds whenever it runs.  [options_nodes]
    and [options_edges] are [network.options.nodes] and
    [network.options.edges], [None] when the [options] object, or that
    property of it, is missing: the handlers test for the first before
    they read it, and read the second without a test. *)
Record Network : Type := mkNetwork {
  getConnectedNodes : string -> list string;
  getConnectedEdges : string -> list string;
  options_nodes : option NodeOptions;
  groups_groups : string -> option NodeOptions;
  options_edges : option EdgesOptions
}.

(** How the run of a handler ends: it returns, or a statement raises and
    what follows it is skipped.  Either way the page is left in a state,
    the one written by the statements that ran. *)
Inductive JSError : Type :=
| TypeError
| ReferenceError.

Inductive Outcome : Type :=
| Returned (st : AppState)
| Raised (e : JSError) (st : AppState).

Definition stateOf (o : Outcome) : AppState :=
  match o with
  | Returned st => st
  | Raised _ st => st
  end.

(** [array.map(f)] for a callback that may raise: the first raise ends
    the call, and no array comes back. *)
Fixpoint mapOrRaise (A B : Type) (f : A -> option B) (l : list A) : option (list B) :=
  match l with
  | [] => Some []
  | x :: rest =>
      match f x with
      | None => None
      | Some y =>
          match mapOrRaise f rest with
          | None => None
          | Some ys => Some (y :: ys)
          end
      end
  end.

Definition DIMMED_OPACITY : Q := (1 # 10)%Q.
Definition VERY_DIMMED_OPACITY : Q := (1 # 20)%Q.
Definition DIMMED_TEXT_COLOR : string := "#cccccc".
Definition VERY_DIMMED_TEXT_COLOR : string := "#d9d9d9".
Definition VERY_DIMMED_EDGE_OPACITY : Q := (1 # 20)%Q.
Definition DEFAULT_NODE_TEXT_COLOR : string := "#333333".

(** [x || d] on an optional number (0 is falsy) and an optional string. *)
Definition orElseNat (x : option nat) (d : nat) : nat :=
  match x with Some (S n) => S n | _ => d end.
Definition orElseOptStr (x : option string) (d : string) : string :=
  match x with Some s => orElseStr s d | None => d end.
(** [x !== undefined ? x : d] *)
Definition definedOr (A : Type) (x : option A) (d : A) : A :=
  match x with Some v => v | None => d end.

(** [if (x) target = x] *)
Definition overrideNat (x : option nat) (cur : nat) : nat := orElseNat x cur.
Definition overrideStr (x : option string) (cur : string) : string := orElseOptStr x cur.

Definition emptyFontOptions : FontOptions :=
  mkFontOptions None None None None None None None None.

(** The "normal" look of a node, as both render passes compute it first:
    the library defaults refined by the configuration of the node's group.
    Returns the font object and the border width. *)
Definition normalStyle (network : Network) (node : Node.t) : FontProperties * nat :=
  let defaultNodeOptions := definedOr (options_nodes network) (mkNodeOptions None None) in
  let defaultFontOptions := definedOr (no_font defaultNodeOptions) emptyFontOptions in
  let fontProperties :=
    mkFont (orElseNat (fo_size defaultFontOptions) 12)
      (orElseOptStr (fo_face defaultFontOptions) "Arial")
      (definedOr (fo_bold defaultFontOptions) true)
      (definedOr (fo_strokeWidth defaultFontOptions) 1)
      (orElseOptStr (fo_strokeColor defaultFontOptions) DEFAULT_NODE_TEXT_COLOR)
      DEFAULT_NODE_TEXT_COLOR None None in
  let nodeBorderWidthProperty := definedOr (no_borderWidth defaultNodeOptions) 1 in
  let nodeGroupConfig :=
    if truthyStr (Node.group node) then groups_groups network (Node.group node) else None in
  match nodeGroupConfig with
  | None => (fontProperties, nodeBorderWidthProperty)
  | Some cfg =>
      (match no_font cfg with
       | None => fontProperties
       | Some f =>
           mkFont (overrideNat (fo_size f) (font_size fontProperties))
             (overrideStr (fo_face f) (font_face fontProperties))
             (definedOr (fo_bold f) (font_bold fontProperties))
             (definedOr (fo_strokeWidth f) (font_strokeWidth fontProperties))
             (overrideStr (fo_strokeColor f) (font_strokeColor fontProperties))
             (overrideStr (fo_color f) (font_color fontProperties))
             (match fo_multi f with Some b => Some b | None => font_multi fontProperties end)
             (match fo_align f with Some a => Some a | None => font_align fontProperties end)
       end,
       definedOr (no_borderWidth cfg) nodeBorderWidthProperty)
  end.

(** The update object [{ id, opacity, font, borderWidth }] merged into a
    node by [DataSet.update]. *)
Definition styled (node : Node.t) (newOpacity : Q) (fontProperties : FontProperties)
    (newFontColor : string) (newFontStrokeWidth newNodeBorderWidth : nat) : Node.t :=
  Node.mk (Node.id node) (Node.label node) (Node.group node) (Node.title node)
    (Node.size node) (Node.details node) (Some newOpacity)
    (Some (mkFont (font_size fontProperties) (font_face fontProperties)
             (font_bold fontProperties) newFontStrokeWidth
             (font_strokeColor fontProperties) newFontColor
             (font_multi fontProperties) (font_align fontProperties)))
    (Some newNodeBorderWidth).

Definition normalNode (network : Network) (node : Node.t) : Node.t :=
  let '(fontProperties, nodeBorderWidthProperty) := normalStyle network node in
  styled node 1%Q fontProperties (font_color fontProperties)
    (font_strokeWidth fontProperties) nodeBorderWidthProperty.

Definition veryDimmedNode (network : Network) (node : Node.t) : Node.t :=
  styled node VERY_DIMMED_OPACITY (fst (normalStyle network node))
    VERY_DIMMED_TEXT_COLOR 0 0.

(** [selectedCategory === "all" || node.group === selectedCategory] *)
Definition isNodeInSelectedCategory (selectedCategory : string) (node : Node.t) : bool :=
  String.eqb selectedCategory "all" || String.eqb (Node.group node) selectedCategory.

(** The update object [{ id, color }] merged into an edge. *)
Definition recolor (e : Edge.t) (c : EdgeColor) : Edge.t :=
  Edge.mk (Edge.from e) (Edge.to e) (Edge.arrows e) c (Edge.dashes e)
    (Edge.title e) (Edge.baseColorType e) (Edge.id e).

(** ** Handlers *)

Definition setGraph (ns : list Node.t) (es : list Edge.t) (st : AppState) : AppState :=
  mkApp ns es (selectedForHighlighting_NodeIds st) (categoryFilterSelect_value st)
    (programSelect_value st) (sidebarVisible st) (sidebarContent st)
    (loadingIndicatorShown st).

Definition setSelected (sel : JSSet.t) (st : AppState) : AppState :=
  mkApp (allNodesDataSet st) (allEdgesDataSet st) sel (categoryFilterSelect_value st)
    (programSelect_value st) (sidebarVisible st) (sidebarContent st)
    (loadingIndicatorShown st).

Definition setLoadingIndicator (b : bool) (st : AppState) : AppState :=
  mkApp (allNodesDataSet st) (allEdgesDataSet st) (selectedForHighlighting_NodeIds st)
    (categoryFilterSelect_value st) (programSelect_value st) (sidebarVisible st)
    (sidebarContent st) b.

Definition setCategory (category : string) (st : AppState) : AppState :=
  mkApp (allNodesDataSet st) (allEdgesDataSet st) (selectedForHighlighting_NodeIds st)
    category (programSelect_value st) (sidebarVisible st) (sidebarContent st)
    (loadingIndicatorShown st).

Definition setProgram (name : string) (st : AppState) : AppState :=
  mkApp (allNodesDataSet st) (allEdgesDataSet st) (selectedForHighlighting_NodeIds st)
    (categoryFilterSelect_value st) name (sidebarVisible st) (sidebarContent st)
    (loadingIndicatorShown st).

(** [updateSidebar(course)]: the panel shows the course and becomes visible. *)
Definition updateSidebar (course : Course) (st : AppState) : AppState :=
  mkApp (allNodesDataSet st) (allEdgesDataSet st) (selectedForHighlighting_NodeIds st)
    (categoryFilterSelect_value st) (programSelect_value st) true (Some course)
    (loadingIndicatorShown st).

(** [hideSidebar()]: only the visibility class changes. *)
Definition hideSidebar (st : AppState) : AppState :=
  mkApp (allNodesDataSet st) (allEdgesDataSet st) (selectedForHighlighting_NodeIds st)
    (categoryFilterSelect_value st) (programSelect_value st) false (sidebarContent st)
    (loadingIndicatorShown st).

(** [params.nodes.length > 0 ? params.nodes[0] : null], kept only when
    truthy: the empty string counts as a click on the background. *)
Definition clickedNodeId (params_nodes : list string) : option string :=
  match params_nodes with
  | i :: _ => if truthyStr i then Some i else None
  | [] => None
  end.

Section Handlers.

Variable coursesData : list Course.
Variable programsData : list Program.

(** [displayGraphForCourses], the later of the two declarations of that
    name (the one in force): both collections are cleared, the nodes
    are reduced to the first of each id, the edges are added as built. *)
Definition displayGraphForCourses (courseCodesToDisplay : list string)
    (st : AppState) : option AppState :=
  match courseCodesToDisplay with
  | [] => Some (setGraph [] [] st)
  | _ :: _ =>
      let built := generateGraphElements coursesData courseCodesToDisplay in
      match dataSetAdd Node.id (uniqueNodesById (nodesArray built)) [] with
      | None => None
      | Some ns =>
          match dataSetAdd Edge.id (edgesArray built) [] with
          | None => None
          | Some es => Some (setGraph ns es st)
          end
      end
  end.

(** The list [handleProgramChange] hands to [displayGraphForCourses]. *)
Definition programDisplayCodes (selectedProgramName : string) : list string :=
  if String.eqb selectedProgramName "" then []
  else if String.eqb selectedProgramName "all" then map code coursesData
  else
    match find (fun p => String.eqb (program p) selectedProgramName) programsData with
    | Some p =>
        match courses p with
        | Some cs => cs
        | None => []
        end
    | None => []
    end.

(** [handleProgramChange]: the indicator is shown, the sidebar hidden,
    the graph rebuilt, the indicator hidden again. *)
Definition handleProgramChange (st : AppState) : option AppState :=
  let st1 := hideSidebar (setLoadingIndicator true st) in
  option_map (setLoadingIndicator false)
    (displayGraphForCourses (programDisplayCodes (programSelect_value st1)) st1).

(** Step 1 of [handleNetworkClick]: sidebar and selection. *)
Definition selectOnClick (params_nodes : list string) (st : AppState) : AppState :=
  match clickedNodeId params_nodes with
  | Some i =>
      let st1 :=
        match findCourse coursesData i with
        | Some course => updateSidebar course st
        | None => st
        end in
      setSelected (JSSet.add i (selectedForHighlighting_NodeIds st1)) st1
  | None => setSelected JSSet.empty st
  end.

(** Step 2: every selected id, then its neighbours, and its edges. *)
Definition nodesToFullyHighlight (network : Network) (selected : JSSet.t) : JSSet.t :=
  fold_left
    (fun acc selectedNodeId =>
       JSSet.addAll (getConnectedNodes network selectedNodeId)
         (JSSet.add selectedNodeId acc))
    selected JSSet.empty.

Definition edgesToFullyHighlight_Ids (network : Network) (selected : JSSet.t) : JSSet.t :=
  fold_left
    (fun acc selectedNodeId => JSSet.addAll (getConnectedEdges network selectedNodeId) acc)
    selected JSSet.empty.

(** Step 3, for one node: category first, then the click highlight. *)
Definition renderNode (network : Network) (selectedCategory : string)
    (selected highlight : JSSet.t) (node : Node.t) : Node.t :=
  let isAnyNodeClickSelected := 0 <? JSSet.size selected in
  let isNodePartOfClickHighlight :=
    isAnyNodeClickSelected && JSSet.has highlight (Node.id node) in
  if negb (isNodeInSelectedCategory selectedCategory node) then
    veryDimmedNode network node
  else if isAnyNodeClickSelected then
    if isNodePartOfClickHighlight then normalNode network node
    else veryDimmedNode network node
  else normalNode network node.

(** Step 4, for one edge. *)
Definition renderEdge (selected highlightedEdges : JSSet.t) (edge : Edge.t) : Edge.t :=
  if (0 <? JSSet.size selected) && JSSet.has highlightedEdges (Edge.id edge)
  then recolor edge (highlightColor (Edge.baseColorType edge))
  else recolor edge (dimColor (Edge.baseColorType edge)).

(** [handleNetworkClick] *)
Definition handleNetworkClick (network : Network) (params_nodes : list string)
    (st : AppState) : AppState :=
  let st1 := selectOnClick params_nodes st in
  let selected := selectedForHighlighting_NodeIds st1 in
  let highlight := nodesToFullyHighlight network selected in
  let highlightedEdges := edgesToFullyHighlight_Ids network selected in
  let selectedCategory := categoryFilterSelect_value st1 in
  setGraph
    (map (renderNode network selectedCategory selected highlight) (allNodesDataSet st1))
    (map (renderEdge selected highlightedEdges) (allEdgesDataSet st1))
    st1.

(** The node pass of [handleCategoryFilterChange]. *)
Definition filterNode (network : Network) (selectedCategory : string)
    (node : Node.t) : Node.t :=
  if isNodeInSelectedCategory selectedCategory node then normalNode network node
  else veryDimmedNode network node.

(** [node.opacity !== VERY_DIMMED_OPACITY] *)
Definition isVisibleNode (node : Node.t) : bool :=
  match Node.opacity node with
  | Some o => negb (Qeq_bool o VERY_DIMMED_OPACITY)
  | None => true
  end.

(** The callback of the edge pass of [handleCategoryFilterChange]: the
    update object for one edge.  An edge between two visible nodes gets
    the colour [null].  For any other edge the callback reads
    [network.options.edges.color], with no test that [options.edges]
    exists: without it the read raises a TypeError ([None]).  The update
    object also sets [width] to [null]; the builder gives no edge a
    width and no handler reads one. *)
Definition filterEdge (network : Network) (visibleNodeIds : JSSet.t)
    (edge : Edge.t) : option Edge.t :=
  if JSSet.has visibleNodeIds (Edge.from edge) && JSSet.has visibleNodeIds (Edge.to edge)
  then Some (recolor edge ColorNull)
  else
    match options_edges network with
    | None => None
    | Some edges =>
        let baseEdgeColor := orElseOptStr (eo_color edges) "#848484" in
        Some (recolor edge (ColorOpacity baseEdgeColor VERY_DIMMED_EDGE_OPACITY))
    end.

(** [clearSidebar()], the last statement of [handleCategoryFilterChange]:
    neither copy of the script declares that name, so the call raises a
    ReferenceError. *)
Definition clearSidebar (st : AppState) : Outcome := Raised ReferenceError st.

(** [handleCategoryFilterChange], run once the dropdown holds the new
    value: the selection is cleared, the nodes are updated, the update
    objects of the edges are computed and, when that raised nothing,
    written; then comes the call of [clearSidebar]. *)
Definition handleCategoryFilterChange (network : Network) (st : AppState) : Outcome :=
  let selectedCategory := categoryFilterSelect_value st in
  let st1 := setSelected JSSet.empty st in
  let nodes := map (filterNode network selectedCategory) (allNodesDataSet st1) in
  let st2 := setGraph nodes (allEdgesDataSet st1) st1 in
  let visibleNodeIds :=
    JSSet.ofArray (nodeIds (filter isVisibleNode (allNodesDataSet st2))) in
  match mapOrRaise (filterEdge network visibleNodeIds) (allEdgesDataSet st2) with
  | None => Raised TypeError st2
  | Some edgesToUpdate => clearSidebar (setGraph (allNodesDataSet st2) edgesToUpdate st2)
  end.

End Handlers.

(** ** A reference network

    The adjacency queries the rendering library answers over the data it
    was given, and the configuration [initializeNetworkShell] passes. *)

Definition visConnectedNodes (ns : list Node.t) (es : list Edge.t) (i : string)
  : list string :=
  if someNodeId ns i then
    fold_left
      (fun acc e =>
         if String.eqb (Edge.to e) i then JSSet.add (Edge.from e) acc
         else if String.eqb (Edge.from e) i then JSSet.add (Edge.to e) acc
         else acc)
      es JSSet.empty
  else
    match find (fun e => String.eqb (Edge.id e) i) es with
    | Some e => [Edge.from e; Edge.to e]
    | None => []
    end.

Definition visConnectedEdges (ns : list Node.t) (es : list Edge.t) (i : string)
  : list string :=
  if someNodeId ns i then
    edgeIds (filter (fun e => String.eqb (Edge.to e) i || String.eqb (Edge.from e) i) es)
  else [].

Definition boldGroup : NodeOptions :=
  mkNodeOptions
    (Some (mkFontOptions (Some 12) (Some "Arial") (Some true) None None None None None))
    None.

Definition junctionGroup : NodeOptions :=
  mkNodeOptions
    (Some (mkFontOptions (Some 10) None None None None (Some "#34495e") None None))
    None.

Definition shellGroups (g : string) : option NodeOptions :=
  if existsb (String.eqb g)
       ["Engineering"; "Science"; "Arts"; "Management"; "Medicine"; "Neuroscience"]
  then Some (mkNodeOptions None None)
  else if existsb (String.eqb g)
            ["CogSci Program: Required"; "CogSci Program: Core Logic";
             "CogSci Program: Core Statistics"; "CogSci Program: Core CompSci";
             "CogSci Program: Core Linguistics"; "CogSci Program: Core Philosophy";
             "CogSci Program: Core Neuroscience"; "CogSci Program: Core Psychology";
             "CogSci Program: Comp CompSci"; "CogSci Program: Comp Linguistics";
             "CogSci Program: Comp Neuroscience"; "CogSci Program: Comp Philosophy";
             "CogSci Program: Comp Psychology"; "CogSci Program: Research Course"]
  then Some boldGroup
  else if existsb (String.eqb g) ["AndNode"; "OrNode"; "NOfListNode"] then Some junctionGroup
  else if String.eqb g "TextualNode" then
    Some (mkNodeOptions
            (Some (mkFontOptions (Some 10) None None None None (Some "#555555")
                     (Some true) (Some "left")))
            None)
  else None.

Definition visNetwork (ns : list Node.t) (es : list Edge.t) : Network :=
  mkNetwork (visConnectedNodes ns es) (visConnectedEdges ns es)
    (Some (mkNodeOptions
             (Some (mkFontOptions (Some 12) (Some "Arial") (Some true) (Some 1)
                      (Some "#333") (Some "#333") None None))
             (Some 1)))
    shellGroups (Some (mkEdgesOptions None)).

(** The same network when its [options] object keeps neither the [nodes]
    nor the [edges] part of the configuration. *)
Definition bareNetwork (ns : list Node.t) (es : list Edge.t) : Network :=
  mkNetwork (visConnectedNodes ns es) (visConnectedEdges ns es) None shellGroups None.

(** ** A small catalogue

    Two programs over eight courses, with one requirement of each kind;
    the worked instances below are evaluated on it. *)

Definition course (c : string) (pre co : list Requirement) : Course :=
  mkCourse c (c ++ " title") "" "3" "" "" pre co.

Definition demoCatalog : list Course :=
  [ course "COMP-251"
      [LOGICAL_OPERATOR "and" [COURSE "COMP-250"; COURSE "MATH-240"]] [];
    course "COMP-250"
      [LOGICAL_OPERATOR "OR" [COURSE "COMP-202"; TEXTUAL "permission of instructor"]] [];
    course "MATH-240" [] [];
    course "COMP-202" [COURSE "MATH-133"] [];
    course "MATH-133" [] [];
    course "ECSE-324"
      [N_OF_LIST 1 [COURSE "ECSE-200"; COURSE "ECSE-222"]]
      [N_OF_LIST 2 [COURSE "ECSE-200"; COURSE "ECSE-222"; COURSE "FAKE-999"]];
    course "ECSE-200" [] [];
    course "ECSE-222" [] [] ].

Definition demoPrograms : list Program :=
  [ mkProgram "Software" (Some ["COMP-251"; "FAKE-999"]);
    mkProgram "Computer Engineering" (Some ["ECSE-324"; "COMP-250"]);
    mkProgram "Unlisted" None ].

(** The page right after [initApp]: no graph, no selection, every category. *)
Definition startState : AppState := mkApp [] [] JSSet.empty "all" "" false None false.

(** The user picks a program: the dropdown takes the value, then the
    change handler runs. *)
Definition chooseProgram (coursesData : list Course) (programsData : list Program)
    (name : string) (st : AppState) : option AppState :=
  handleProgramChange coursesData programsData (setProgram name st).

(** The user picks a category: likewise. *)
Definition chooseCategory (network : Network) (category : string) (st : AppState)
  : Outcome :=
  handleCategoryFilterChange network (setCategory category st).

(** A click as the library reports it for the graph on display. *)
Definition click (coursesData : list Course) (params_nodes : list string)
    (st : AppState) : AppState :=
  handleNetworkClick coursesData
    (visNetwork (allNodesDataSet st) (allEdgesDataSet st)) params_nodes st.

(** The demo page with a program on display. *)
Definition orStart (o : option AppState) : AppState :=
  match o with Some st => st | None => startState end.

Definition softwareGraph : AppState :=
  orStart (chooseProgram demoCatalog demoPrograms "Software" startState).

(** A node that stands for "no such position" when a list is indexed. *)
Definition noNode : Node.t := Node.mk "" "" "" "" None NoDetails None None None.

(** Ids that carry the marker of a synthetic node. *)
Definition isSyntheticId (i : string) : bool :=
  startsWith i "logic_" || startsWith i "textual_" || startsWith i "n_of_list_".

(** ** Vocabulary of the properties *)

Unset Implicit Arguments.

(** What a scan may do to the traversal state, as far as the loop's
    budget is concerned. *)
Definition shrinks (coursesData : list Course) (st st' : Closure) : Prop :=
  head st' = head st /\
  length (queue st) <= length (queue st') /\
  unseen coursesData (relevantCodes st') + length (queue st')
    <= unseen coursesData (relevantCodes st) + length (queue st).

(** A code named by a requirement through COURSE and LOGICAL_OPERATOR
    nodes only: there is no rule for TEXTUAL or N_OF_LIST. *)
Inductive RefersTo : Requirement -> string -> Prop :=
| refers_course (c : string) : RefersTo (COURSE c) c
| refers_logical (op : string) (conds : list Requirement) (r : Requirement) (c : string) :
    In r conds -> RefersTo r c -> RefersTo (LOGICAL_OPERATOR op conds) c.

(** The codes reachable from the seeds: a seed found in the catalog, or a
    catalog code that the record of a reachable code refers to. *)
Inductive Reachable (coursesData : list Course) (seeds : list string) : string -> Prop :=
| reach_seed (c : string) :
    In c seeds -> inCatalog coursesData c = true -> Reachable coursesData seeds c
| reach_step (c' : string) (course : Course) (r : Requirement) (c : string) :
    Reachable coursesData seeds c' ->
    findCourse coursesData c' = Some course ->
    In r (prerequisites_parsed course ++ corequisites_parsed course) ->
    RefersTo r c ->
    inCatalog coursesData c = true ->
    Reachable coursesData seeds c.

(** Every code of the queue and of the result set satisfies [P]. *)
Definition allCodes (P : string -> Prop) (st : Closure) : Prop :=
  (forall c, In c (queue st) -> P c) /\ (forall c, In c (relevantCodes st) -> P c).

(** The result set only grows. *)
Definition grows (st st' : Closure) : Prop :=
  forall c, In c (relevantCodes st) -> In c (relevantCodes st').

(** The arrays are only appended to, and the guarded edge pushes keep the
    edge ids pairwise distinct. *)
Definition keeps (st st' : Build) : Prop :=
  (exists ns, nodesArray st' = nodesArray st ++ ns) /\
  (exists es, edgesArray st' = edgesArray st ++ es) /\
  (NoDup (edgeIds (edgesArray st)) -> NoDup (edgeIds (edgesArray st'))).

(** The map filled from [acc]: what [uniqueNodesById] computes from []. *)
Definition keepFirst (acc nodes : list Node.t) : list Node.t :=
  fold_left (fun acc n => if someNodeId acc (Node.id n) then acc else acc ++ [n]) nodes acc.

(** A code named anywhere in a requirement tree. *)
Inductive Mentions : Requirement -> string -> Prop :=
| mentions_course (c : string) : Mentions (COURSE c) c
| mentions_logical (op : string) (conds : list Requirement) (r : Requirement) (c : string) :
    In r conds -> Mentions r c -> Mentions (LOGICAL_OPERATOR op conds) c
| mentions_n_of_list (n : nat) (conds : list Requirement) (r : Requirement) (c : string) :
    In r conds -> Mentions r c -> Mentions (N_OF_LIST n conds) c.

(** The course ids a displayed code puts on the graph: its own, and the
    catalog codes its requirement trees name. *)
Definition Shows (coursesData : list Course) (d i : string) : Prop :=
  exists course,
    findCourse coursesData d = Some course /\
    (i = code course \/
     exists r, In r (prerequisites_parsed course ++ corequisites_parsed course)
               /\ Mentions r i /\ inCatalog coursesData i = true).

(** The requirement list of a course for one relation. *)
Definition requirementsOf (course : Course) (type : ReqType) : list Requirement :=
  match type with
  | prereq => prerequisites_parsed course
  | coreq => corequisites_parsed course
  end.

(** What a node that is filtered out looks like. *)
Definition fullyDimmed (shown : Node.t) : Prop :=
  Node.opacity shown = Some VERY_DIMMED_OPACITY /\
  option_map font_color (Node.font shown) = Some VERY_DIMMED_TEXT_COLOR /\
  option_map font_strokeWidth (Node.font shown) = Some 0 /\
  Node.borderWidth shown = Some 0.

(** What a render pass makes of a node, [shown], when it keeps the node
    and lets the category decide: same id, same group, and fully dimmed
    when the group is not the selected category. *)
Definition dimsOutside (selectedCategory : string) (node shown : Node.t) : Prop :=
  Node.id shown = Node.id node /\
  Node.group shown = Node.group node /\
  (Node.group node <> selectedCategory -> fullyDimmed shown).

(** ** Further code

    The functions the handlers above leave out: the earlier declaration
    of [displayGraphForCourses], the search handler, and the simpler
    click and category handlers of [js/main.js]. *)

(** The [uniqueEdgesById] map of the earlier [displayGraphForCourses]. *)
Definition uniqueEdgesById (edges : list Edge.t) : list Edge.t :=
  fold_left (fun acc e => if someEdgeId acc (Edge.id e) then acc else acc ++ [e]) edges [].

(** [displayGraphForCourses] as first declared (the declaration that the
    later one replaces): nodes and edges are both reduced to the first of
    each id, and a collection is added only when it is not empty.  The
    calls that follow ([stabilize], [fit]) concern the layout only. *)
Definition displayGraphForCourses_first (coursesData : list Course)
    (courseCodesToDisplay : list string) (st : AppState) : option AppState :=
  match courseCodesToDisplay with
  | [] => Some (setGraph [] [] st)
  | _ :: _ =>
      let built := generateGraphElements coursesData courseCodesToDisplay in
      let finalNodes := uniqueNodesById (nodesArray built) in
      let finalEdges := uniqueEdgesById (edgesArray built) in
      match (if 0 <? length finalNodes then dataSetAdd Node.id finalNodes [] else Some []) with
      | None => None
      | Some ns =>
          match (if 0 <? length finalEdges then dataSetAdd Edge.id finalEdges [] else Some [])
          with
          | None => None
          | Some es => Some (setGraph ns es st)
          end
      end
  end.

(** The two methods of the language that [handleSearch] applies to the
    text of the search box, [String.prototype.trim] and
    [String.prototype.toUpperCase].  They belong to the engine, not to
    the page: the handler is modelled over any pair of them, and the
    properties say what they assume of the pair.  A string is held as
    the bytes of its UTF-8 encoding. *)
Record StringMethods : Type := mkStringMethods {
  prototype_trim : string -> string;
  prototype_toUpperCase : string -> string
}.

(** What [handleSearch] asks of the outside: nothing (empty term), a
    focus on and selection of a node by the library, or an alert that
    names the term. *)
Inductive SearchEffect : Type :=
| NoSearch
| FocusAndSelect (searchTerm : string)
| AlertNotFound (searchTerm : string).

(** [allNodesDataSet.get(id)] *)
Definition dataSetGet (ds : list Node.t) (i : string) : option Node.t :=
  find (fun n => String.eqb (Node.id n) i) ds.

(** [handleSearch], on the text of the search box. *)
Definition handleSearch (str : StringMethods) (coursesData : list Course)
    (input : string) (st : AppState) : AppState * SearchEffect :=
  let searchTerm := prototype_toUpperCase str (prototype_trim str input) in
  if negb (truthyStr searchTerm) then (st, NoSearch)
  else
    match dataSetGet (allNodesDataSet st) searchTerm with
    | Some _ =>
        (match findCourse coursesData searchTerm with
         | Some course => updateSidebar course st
         | None => st
         end,
         FocusAndSelect searchTerm)
    | None => (st, AlertNotFound searchTerm)
    end.

(** An instance of the two methods for the worked examples.  [trim]
    removes, at both ends, the white space and line terminators of the
    language, each as the bytes of its UTF-8 encoding: U+0009 to U+000D,
    U+0020, U+00A0, U+1680, U+2000 to U+200A, U+2028, U+2029, U+202F,
    U+205F, U+3000 and U+FEFF.  [toUpperCase] is the one of the helpers,
    on the letters a to z. *)
Definition bytes (l : list nat) : string :=
  string_of_list_ascii (map ascii_of_nat l).

Definition whiteSpace : list string :=
  map bytes
    ([[9]; [10]; [11]; [12]; [13]; [32]; [194; 160]; [225; 154; 128]]
     ++ map (fun k => [226; 128; 128 + k]) (seq 0 11)
     ++ [[226; 128; 168]; [226; 128; 169]; [226; 128; 175]; [226; 129; 159];
         [227; 128; 128]; [239; 187; 191]]).

(** [s] without [p] in front, when it starts with [p]. *)
Fixpoint stripPrefix (p s : string) : option string :=
  match p, s with
  | EmptyString, _ => Some s
  | String a p', String b s' => if Ascii.eqb a b then stripPrefix p' s' else None
  | String _ _, EmptyString => None
  end.

Definition stripFirst (ps : list string) (s : string) : option string :=
  fold_right
    (fun p r => match stripPrefix p s with Some t => Some t | None => r end)
    None ps.

(** Strip as long as one of [ps] is in front; every strip shortens the
    string, so its length bounds the number of turns. *)
Fixpoint stripAll (turns : nat) (ps : list string) (s : string) : string :=
  match turns with
  | 0 => s
  | S k =>
      match stripFirst ps s with
      | Some t => stripAll k ps t
      | None => s
      end
  end.

Definition reverse (s : string) : string :=
  string_of_list_ascii (rev (list_ascii_of_string s)).

Definition trimStart (s : string) : string :=
  stripAll (String.length s) whiteSpace s.

Definition trimEnd (s : string) : string :=
  reverse (stripAll (String.length s) (map reverse whiteSpace) (reverse s)).

Definition trim (s : string) : string := trimEnd (trimStart s).

Definition engineStrings : StringMethods := mkStringMethods trim toUpperCase.

(** The update object [{ id, opacity }] merged into a node. *)
Definition setOpacity (o : Q) (node : Node.t) : Node.t :=
  Node.mk (Node.id node) (Node.label node) (Node.group node) (Node.title node)
    (Node.size node) (Node.details node) (Some o) (Node.font node)
    (Node.borderWidth node).

(** [node.opacity !== newOpacity] *)
Definition opacityDiffers (node : Node.t) (newOpacity : Q) : bool :=
  match Node.opacity node with
  | Some o => negb (Qeq_bool o newOpacity)
  | None => true
  end.

(** [handleCategoryFilterChange] of [js/main.js]: a node outside the
    category gets opacity 0.2, the others 1; only the nodes whose opacity
    changes are sent to [DataSet.update], which merges each update into
    the node of that id. *)
Definition handleCategoryFilterChange_main (st : AppState) : AppState :=
  let selectedCategory := categoryFilterSelect_value st in
  setGraph
    (map (fun node =>
            let newOpacity :=
              if isNodeInSelectedCategory selectedCategory node then 1%Q else (1 # 5)%Q in
            if opacityDiffers node newOpacity then setOpacity newOpacity node else node)
       (allNodesDataSet st))
    (allEdgesDataSet st) st.

(** The sidebar step of [handleNetworkClick] in [js/main.js]. *)
Definition sidebarOnClick (coursesData : list Course) (clicked : option string)
    (st : AppState) : AppState :=
  match clicked with
  | Some i =>
      match findCourse coursesData i with
      | Some course => updateSidebar course st
      | None => st
      end
  | None => st
  end.

(** Its edge pass: bright for the edges that touch the clicked node. *)
Definition mainClickEdges (clicked : option string) (edges : list Edge.t) : list Edge.t :=
  map (fun edge =>
         match clicked with
         | Some i =>
             if String.eqb (Edge.from edge) i || String.eqb (Edge.to edge) i
             then recolor edge (highlightColor (Edge.baseColorType edge))
             else recolor edge (dimColor (Edge.baseColorType edge))
         | None => recolor edge (dimColor (Edge.baseColorType edge))
         end)
    edges.

(** Its node pass: opacity 1 for the clicked node and the nodes connected
    to it, 0.2 for the others; opacity 1 for all after a background click. *)
Definition mainClickNodes (network : Network) (clicked : option string)
    (nodes : list Node.t) : list Node.t :=
  match clicked with
  | Some i =>
      let connectedNodes :=
        JSSet.addAll (getConnectedNodes network i) (JSSet.add i JSSet.empty) in
      map (fun node =>
             setOpacity (if JSSet.has connectedNodes (Node.id node) then 1%Q else (1 # 5)%Q)
               node)
        nodes
  | None => map (setOpacity 1%Q) nodes
  end.

(** [handleNetworkClick] of [js/main.js]: one clicked node at a time. *)
Definition handleNetworkClick_main (coursesData : list Course) (network : Network)
    (params_nodes : list string) (st : AppState) : AppState :=
  let clicked := clickedNodeId params_nodes in
  let st1 := sidebarOnClick coursesData clicked st in
  setGraph (mainClickNodes network clicked (allNodesDataSet st1))
    (mainClickEdges clicked (allEdgesDataSet st1)) st1.

(** [cognitiveScienceProgramMap[courseCode]] on a table under construction. *)
Definition lookupCategory (m : list (string * string)) (courseCode : string)
  : option string :=
  option_map snd (find (fun kv => String.eqb (fst kv) courseCode) m).

(** ** Further vocabulary *)

(** What a scan does to the traversal state besides adding codes: the
    read position stays, the queue is extended at its end, the result set
    grows, and every code of the result set is still in the queue. *)
Definition scans (st st' : Closure) : Prop :=
  head st' = head st /\
  (exists q, queue st' = queue st ++ q) /\
  grows st st' /\
  ((forall c, In c (relevantCodes st) -> In c (queue st)) ->
   forall c, In c (relevantCodes st') -> In c (queue st')).

(** The codes read so far have been scanned: whatever catalog code the
    record of a queue entry before [head] refers to is in the result set. *)
Definition scannedBeforeHead (coursesData : list Course) (st : Closure) : Prop :=
  forall k c course r x,
    k < head st -> nth_error (queue st) k = Some c ->
    findCourse coursesData c = Some course ->
    In r (prerequisites_parsed course ++ corequisites_parsed course) ->
    RefersTo r x -> inCatalog coursesData x = true ->
    In x (relevantCodes st).

(** The invariant of the traversal loop. *)
Definition traversal (coursesData : list Course) (seeds : list string) (st : Closure) : Prop :=
  head st <= length (queue st) /\
  (forall c, In c (relevantCodes st) -> In c (queue st)) /\
  (forall c, In c seeds -> inCatalog coursesData c = true -> In c (relevantCodes st)) /\
  scannedBeforeHead coursesData st /\
  allCodes (Reachable coursesData seeds) st /\
  unseen coursesData (relevantCodes st) + length (queue st)
    <= length coursesData + length seeds.

(** An id passes the filter of a state when a node of its graph has the
    id and is in the selected category. *)
Definition passesFilter (st : AppState) (i : string) : Prop :=
  exists n, In n (allNodesDataSet st) /\ Node.id n = i /\
            isNodeInSelectedCategory (categoryFilterSelect_value st) n = true.

(** An edge between two nodes that pass the filter. *)
Definition joinsVisible (st : AppState) (e : Edge.t) : Prop :=
  passesFilter st (Edge.from e) /\ passesFilter st (Edge.to e).

(** What the edge pass of the category handler makes of an edge, [e']:
    the edge with the colour [null] between two nodes that pass the
    filter, with the base colour at opacity 0.05 otherwise. *)
Definition dimsByEnds (st : AppState) (base : string) (e e' : Edge.t) : Prop :=
  Edge.id e' = Edge.id e /\ Edge.from e' = Edge.from e /\ Edge.to e' = Edge.to e /\
  (joinsVisible st e -> Edge.color e' = ColorNull) /\
  (~ joinsVisible st e -> Edge.color e' = ColorOpacity base VERY_DIMMED_EDGE_OPACITY).

(** Whether a string holds one of the letters a to z. *)
Fixpoint hasLowerCase (s : string) : bool :=
  match s with
  | EmptyString => false
  | String c r =>
      let n := nat_of_ascii c in
      ((97 <=? n) && (n <=? 122)) || hasLowerCase r
  end.

(** Every edge joins two nodes of the arrays. *)
Definition edgesJoinNodes (st : Build) : Prop :=
  forall e, In e (edgesArray st) ->
    In (Edge.from e) (nodeIds (nodesArray st)) /\ In (Edge.to e) (nodeIds (nodesArray st)).

(** Every node whose id is not a synthetic one looks like a course node:
    its label is its id and its group is the category of that code. *)
Definition courseNodesCarryCategory (st : Build) : Prop :=
  forall n, In n (nodesArray st) -> isSyntheticId (Node.id n) = false ->
    Node.label n = Node.id n /\ Node.group n = extractGroup (Node.id n).

(** * Properties *)

(** ** Lists, folds and sets *)

(** A relation that is reflexive and transitive, and that every element's
    step respects, is respected by the whole [forEach]. *)
Lemma fold_left_preorder {S A : Type} (R : S -> S -> Prop) (f : A -> S -> S) :
  (forall s, R s s) ->
  (forall a b c, R a b -> R b c -> R a c) ->
  forall l, Forall (fun a => forall s, R s (f a s)) l ->
  forall s, R s (fold_left (fun s a => f a s) l s).
Proof.
  intros Hrefl Htrans l Hl.
  induction Hl as [|a l Ha _ IH]; intros s; simpl.
  - apply Hrefl.
  - eapply Htrans; [apply Ha | apply IH].
Qed.

Lemma filter_length_le {A : Type} (f g : A -> bool) (l : list A) :
  (forall x, In x l -> f x = true -> g x = true) ->
  length (filter f l) <= length (filter g l).
Proof.
  induction l as [|a l IH]; intros H; simpl; [lia|].
  assert (IH' : length (filter f l) <= length (filter g l))
    by (apply IH; intros x Hx; apply H; right; exact Hx).
  destruct (f a) eqn:Hf.
  - rewrite (H a (or_introl eq_refl) Hf). simpl. lia.
  - destruct (g a); simpl; lia.
Qed.

Lemma filter_length_lt {A : Type} (f g : A -> bool) (l : list A) :
  (forall x, In x l -> f x = true -> g x = true) ->
  (exists x, In x l /\ g x = true /\ f x = false) ->
  length (filter f l) < length (filter g l).
Proof.
  induction l as [|a l IH]; intros H [x [Hin [Hg Hf]]]; [destruct Hin|].
  assert (Hle : length (filter f l) <= length (filter g l))
    by (apply filter_length_le; intros y Hy; apply H; right; exact Hy).
  simpl. destruct Hin as [->|Hin].
  - rewrite Hg, Hf. simpl. lia.
  - assert (Hlt : length (filter f l) < length (filter g l)).
    { apply IH; [intros y Hy; apply H; right; exact Hy|].
      exists x. auto. }
    destruct (f a) eqn:Hfa.
    + rewrite (H a (or_introl eq_refl) Hfa). simpl. lia.
    + destruct (g a); simpl; lia.
Qed.

Lemma has_true_iff (s : JSSet.t) (x : string) : JSSet.has s x = true <-> In x s.
Proof.
  unfold JSSet.has. rewrite existsb_exists. split.
  - intros [y [Hy He]]. apply String.eqb_eq in He. subst. exact Hy.
  - intros H. exists x. split; [exact H | apply String.eqb_refl].
Qed.

Lemma has_false_iff (s : JSSet.t) (x : string) : JSSet.has s x = false <-> ~ In x s.
Proof.
  rewrite <- has_true_iff. destruct (JSSet.has s x); split; intros H; congruence.
Qed.

Lemma in_add (x y : string) (s : JSSet.t) : In y (JSSet.add x s) <-> y = x \/ In y s.
Proof.
  unfold JSSet.add. destruct (JSSet.has s x) eqn:H.
  - apply has_true_iff in H. split; [auto|]. intros [->|Hy]; assumption.
  - rewrite in_app_iff. simpl. split.
    + intros [Hy|[->|[]]]; auto.
    + intros [->|Hy]; auto.
Qed.

Lemma in_addAll (xs : list string) (y : string) (s : JSSet.t) :
  In y (JSSet.addAll xs s) <-> In y xs \/ In y s.
Proof.
  unfold JSSet.addAll. revert s.
  induction xs as [|x xs IH]; intros s; simpl.
  - split; [auto | intros [[]|H]; exact H].
  - rewrite IH, in_add. split.
    + intros [H|[->|H]]; auto.
    + intros [[->|H]|H]; auto.
Qed.

Lemma in_ofArray (xs : list string) (y : string) : In y (JSSet.ofArray xs) <-> In y xs.
Proof.
  unfold JSSet.ofArray. rewrite in_addAll. unfold JSSet.empty. simpl. tauto.
Qed.

Lemma NoDup_add (x : string) (s : JSSet.t) : NoDup s -> NoDup (JSSet.add x s).
Proof.
  intros H. unfold JSSet.add. destruct (JSSet.has s x) eqn:Hx; [exact H|].
  apply has_false_iff in Hx.
  apply NoDup_app; [exact H | constructor; [intros [] | constructor] | ].
  intros a Ha [<-|[]]. exact (Hx Ha).
Qed.

Lemma NoDup_addAll (xs : list string) (s : JSSet.t) : NoDup s -> NoDup (JSSet.addAll xs s).
Proof.
  unfold JSSet.addAll. revert s.
  induction xs as [|x xs IH]; intros s H; simpl; [exact H|].
  apply IH, NoDup_add, H.
Qed.

(** ** ClosureResolver: termination *)

Section ClosureFacts.

Variable coursesData : list Course.

Lemma inCatalog_true (c : string) :
  inCatalog coursesData c = true <-> exists r, In r coursesData /\ code r = c.
Proof.
  unfold inCatalog, findCourse. split.
  - destruct (find _ coursesData) as [r|] eqn:Hf; [|discriminate].
    intros _. apply find_some in Hf. destruct Hf as [Hin He].
    apply String.eqb_eq in He. exists r. auto.
  - intros [r [Hin He]].
    destruct (find _ coursesData) as [r'|] eqn:Hf; [reflexivity|].
    apply (find_none _ _ Hf) in Hin. rewrite He, String.eqb_refl in Hin. discriminate.
Qed.

Lemma findCourse_code (c : string) (r : Course) :
  findCourse coursesData c = Some r -> code r = c /\ In r coursesData.
Proof.
  unfold findCourse. intros Hf. apply find_some in Hf. destruct Hf as [Hin He].
  apply String.eqb_eq in He. auto.
Qed.

Lemma findCourse_inCatalog (c : string) (r : Course) :
  findCourse coursesData c = Some r -> inCatalog coursesData c = true.
Proof. unfold inCatalog. intros ->. reflexivity. Qed.

Lemma unseen_add_lt (c : string) (rel : JSSet.t) :
  inCatalog coursesData c = true -> JSSet.has rel c = false ->
  unseen coursesData (JSSet.add c rel) < unseen coursesData rel.
Proof.
  intros Hc Hrel. unfold unseen, JSSet.add. rewrite Hrel.
  apply inCatalog_true in Hc. destruct Hc as [r [Hin He]].
  apply filter_length_lt.
  - intros x _. unfold JSSet.has. rewrite existsb_app, negb_orb.
    intros H. apply andb_prop in H. tauto.
  - exists r. split; [exact Hin|]. rewrite He, Hrel. split; [reflexivity|].
    unfold JSSet.has. rewrite existsb_app. simpl.
    rewrite String.eqb_refl, orb_true_r. reflexivity.
Qed.

Lemma shrinks_refl (st : Closure) : (shrinks coursesData) st st.
Proof. unfold shrinks. lia. Qed.

Lemma shrinks_trans (a b c : Closure) : (shrinks coursesData) a b -> (shrinks coursesData) b c -> (shrinks coursesData) a c.
Proof. unfold shrinks. intros [? [? ?]] [? [? ?]]. repeat split; lia. Qed.

Lemma addDependency_shrinks (req : Requirement) :
  forall st, (shrinks coursesData) st (addDependency coursesData req st).
Proof.
  induction req as [c|op conds IH|t|n conds _] using Requirement_tree_ind;
    intros st; simpl; try apply shrinks_refl.
  - destruct (inCatalog coursesData c) eqn:Hc; simpl; [|apply shrinks_refl].
    destruct (JSSet.has (relevantCodes st) c) eqn:Hr; simpl; [apply shrinks_refl|].
    unfold shrinks; simpl. rewrite length_app. simpl.
    pose proof (unseen_add_lt c (relevantCodes st) Hc Hr). lia.
  - apply (fold_left_preorder (shrinks coursesData) (addDependency coursesData)
             shrinks_refl shrinks_trans conds IH).
Qed.

Lemma addDependencies_shrinks (reqs : list Requirement) (st : Closure) :
  (shrinks coursesData) st (addDependencies coursesData reqs st).
Proof.
  unfold addDependencies.
  apply (fold_left_preorder (shrinks coursesData) (addDependency coursesData) shrinks_refl shrinks_trans).
  apply Forall_forall. intros r _. apply addDependency_shrinks.
Qed.

Lemma visit_budget (st : Closure) :
  head st < length (queue st) ->
  budget coursesData (visit coursesData st) < budget coursesData st.
Proof.
  intros Hlt. unfold visit.
  destruct (nth_error (queue st) (head st)) as [currentCode|] eqn:Hn.
  2:{ apply nth_error_None in Hn. lia. }
  set (st1 := mkClosure (queue st) (S (head st)) (relevantCodes st)).
  assert (H1 : budget coursesData st1 < budget coursesData st)
    by (unfold budget, st1; simpl; lia).
  assert (Hhd : head st1 <= length (queue st1)) by (unfold st1; simpl; lia).
  destruct (findCourse coursesData currentCode) as [course|]; [|exact H1].
  pose proof (addDependencies_shrinks (prerequisites_parsed course) st1) as [Ha [Hb Hc]].
  pose proof (addDependencies_shrinks (corequisites_parsed course)
                (addDependencies coursesData (prerequisites_parsed course) st1))
    as [Ha' [Hb' Hc']].
  unfold budget in *. lia.
Qed.

(** With a budget above [budget st] the loop runs to its exit test. *)
Lemma bfs_enough (fuel : nat) :
  forall st, budget coursesData st < fuel ->
  exists st', bfs coursesData fuel st = Some st' /\ length (queue st') <= head st'.
Proof.
  induction fuel as [|fuel IH]; intros st Hb; [lia|].
  simpl. destruct (head st <? length (queue st)) eqn:Hlt.
  - apply Nat.ltb_lt in Hlt. apply IH.
    pose proof (visit_budget st Hlt). lia.
  - apply Nat.ltb_ge in Hlt. exists st. auto.
Qed.

Lemma runClosure_total (programCourseCodes : list string) :
  exists st, runClosure coursesData programCourseCodes = Some st
             /\ length (queue st) <= head st.
Proof. unfold runClosure. apply bfs_enough. lia. Qed.

(** A property of the state that every loop turn keeps holds at the end. *)
Lemma bfs_invariant (P : Closure -> Prop) :
  (forall st, P st -> head st < length (queue st) -> P (visit coursesData st)) ->
  forall fuel st st', P st -> bfs coursesData fuel st = Some st' -> P st'.
Proof.
  intros Hstep. induction fuel as [|fuel IH]; intros st st' HP Hrun; [discriminate|].
  simpl in Hrun. destruct (head st <? length (queue st)) eqn:Hlt.
  - apply Nat.ltb_lt in Hlt. eapply IH; [|exact Hrun]. apply Hstep; assumption.
  - inversion Hrun. subst. exact HP.
Qed.

End ClosureFacts.


(** ** ClosureResolver: what the result holds *)

Section ClosureResult.

Variable coursesData : list Course.

Lemma addDependency_grows (req : Requirement) :
  forall st, grows st (addDependency coursesData req st).
Proof.
  induction req as [c|op conds IH|t|n conds _] using Requirement_tree_ind;
    intros st; simpl; try (intros x Hx; exact Hx).
  - destruct (inCatalog coursesData c && negb (JSSet.has (relevantCodes st) c));
      intros x Hx; simpl; [apply in_add; right|]; exact Hx.
  - apply (fold_left_preorder grows (addDependency coursesData)); [| |exact IH].
    + intros s x Hx. exact Hx.
    + intros a b d Hab Hbd x Hx. apply Hbd, Hab, Hx.
Qed.

Lemma addDependencies_grows (reqs : list Requirement) (st : Closure) :
  grows st (addDependencies coursesData reqs st).
Proof.
  unfold addDependencies.
  apply (fold_left_preorder grows (addDependency coursesData)).
  - intros s x Hx. exact Hx.
  - intros a b d Hab Hbd x Hx. apply Hbd, Hab, Hx.
  - apply Forall_forall. intros r _. apply addDependency_grows.
Qed.

Lemma visit_grows (st : Closure) : grows st (visit coursesData st).
Proof.
  unfold visit. destruct (nth_error (queue st) (head st)); [|intros x Hx; exact Hx].
  destruct (findCourse coursesData s) as [course|]; [|intros x Hx; exact Hx].
  intros x Hx. apply addDependencies_grows, addDependencies_grows. exact Hx.
Qed.

(** A scan adds only codes that the scanned requirement refers to and
    that the catalog holds. *)
Lemma addDependency_allCodes (P : string -> Prop) (req : Requirement) :
  (forall c, RefersTo req c -> inCatalog coursesData c = true -> P c) ->
  forall st, allCodes P st -> allCodes P (addDependency coursesData req st).
Proof.
  induction req as [c|op conds IH|t|n conds _] using Requirement_tree_ind;
    intros Href st Hst; simpl; try exact Hst.
  - destruct (inCatalog coursesData c) eqn:Hc; simpl; [|exact Hst].
    destruct (JSSet.has (relevantCodes st) c); simpl; [exact Hst|].
    destruct Hst as [Hq Hr]. split; simpl; intros x Hx.
    + apply in_app_iff in Hx. destruct Hx as [Hx|[<-|[]]]; [apply Hq, Hx|].
      apply Href; [constructor | exact Hc].
    + apply in_add in Hx. destruct Hx as [->|Hx]; [|apply Hr, Hx].
      apply Href; [constructor | exact Hc].
  - revert st Hst.
    apply (fold_left_preorder (fun s s' => allCodes P s -> allCodes P s')
             (addDependency coursesData)); [auto | auto |].
    rewrite Forall_forall in IH |- *. intros r Hr s Hs.
    apply IH; [exact Hr | | exact Hs].
    intros c Hc. apply Href. econstructor; eassumption.
Qed.

Lemma addDependencies_allCodes (P : string -> Prop) (reqs : list Requirement) :
  (forall r c, In r reqs -> RefersTo r c -> inCatalog coursesData c = true -> P c) ->
  forall st, allCodes P st -> allCodes P (addDependencies coursesData reqs st).
Proof.
  intros Href. unfold addDependencies.
  apply (fold_left_preorder (fun s s' => allCodes P s -> allCodes P s')
           (addDependency coursesData)); [auto | auto |].
  apply Forall_forall. intros r Hr s Hs.
  apply addDependency_allCodes; [|exact Hs]. intros c. apply Href, Hr.
Qed.

Lemma visit_resolved (st : Closure) :
  allCodes (fun c => inCatalog coursesData c = true) st ->
  allCodes (fun c => inCatalog coursesData c = true) (visit coursesData st).
Proof.
  intros Hst. unfold visit.
  assert (H1 : allCodes (fun c => inCatalog coursesData c = true)
                 (mkClosure (queue st) (S (head st)) (relevantCodes st)))
    by (destruct Hst; split; assumption).
  destruct (nth_error (queue st) (head st)) as [currentCode|]; [|exact H1].
  destruct (findCourse coursesData currentCode) as [course|]; [|exact H1].
  apply addDependencies_allCodes; [auto|].
  apply addDependencies_allCodes; [auto|exact H1].
Qed.

Lemma visit_reachable (seeds : list string) (st : Closure) :
  allCodes (Reachable coursesData seeds) st ->
  allCodes (Reachable coursesData seeds) (visit coursesData st).
Proof.
  intros Hst. unfold visit.
  assert (H1 : allCodes (Reachable coursesData seeds)
                 (mkClosure (queue st) (S (head st)) (relevantCodes st)))
    by (destruct Hst; split; assumption).
  destruct (nth_error (queue st) (head st)) as [currentCode|] eqn:Hn; [|exact H1].
  assert (Hcur : Reachable coursesData seeds currentCode)
    by (apply (proj1 Hst), (nth_error_In _ _ Hn)).
  destruct (findCourse coursesData currentCode) as [course|] eqn:Hf; [|exact H1].
  apply addDependencies_allCodes.
  { intros r c Hr Hrc Hc.
    apply (reach_step coursesData seeds currentCode course r c); auto.
    apply in_app_iff. right. exact Hr. }
  apply addDependencies_allCodes; [|exact H1].
  intros r c Hr Hrc Hc.
  apply (reach_step coursesData seeds currentCode course r c); auto.
  apply in_app_iff. left. exact Hr.
Qed.

Lemma initialClosure_allCodes (P : string -> Prop) (seeds : list string) :
  (forall c, In c seeds -> inCatalog coursesData c = true -> P c) ->
  allCodes P (initialClosure coursesData seeds).
Proof.
  intros HP. unfold initialClosure. split; simpl; intros c Hc.
  - apply filter_In in Hc. destruct Hc. auto.
  - apply in_addAll in Hc. destruct Hc as [Hc|[]].
    apply filter_In in Hc. destruct Hc. auto.
Qed.

Lemma initialClosure_seeds (seeds : list string) (c : string) :
  In c seeds -> inCatalog coursesData c = true ->
  In c (relevantCodes (initialClosure coursesData seeds)).
Proof.
  intros Hin Hc. unfold initialClosure. simpl.
  apply in_addAll. left. apply filter_In. auto.
Qed.

End ClosureResult.

(** C8. For every catalog and seed list the traversal ends; its result
    holds every seed that resolves in the catalog; a code the catalog does
    not hold is never enqueued and never part of the result. *)
Theorem closure_keeps_resolving_seeds (coursesData : list Course)
    (programCourseCodes : list string) :
  exists st,
    runClosure coursesData programCourseCodes = Some st /\
    getRelevantCoursesForProgram coursesData programCourseCodes
      = Some (relevantCodes st) /\
    (forall c, In c programCourseCodes -> inCatalog coursesData c = true ->
               In c (relevantCodes st)) /\
    (forall c, inCatalog coursesData c = false ->
               ~ In c (queue st) /\ ~ In c (relevantCodes st)).
Proof.
  destruct (runClosure_total coursesData programCourseCodes) as [st [Hrun _]].
  exists st. split; [exact Hrun|]. split.
  { unfold getRelevantCoursesForProgram. rewrite Hrun. reflexivity. }
  unfold runClosure in Hrun. split.
  - intros c Hin Hc.
    apply (bfs_invariant coursesData (fun s => In c (relevantCodes s))
             (fun s Hs _ => visit_grows coursesData s c Hs) _ _ _
             (initialClosure_seeds coursesData programCourseCodes c Hin Hc) Hrun).
  - intros c Hc.
    assert (Hres : allCodes (fun x => inCatalog coursesData x = true) st).
    { apply (bfs_invariant coursesData _
               (fun s Hs _ => visit_resolved coursesData s Hs) _ _ _
               (initialClosure_allCodes coursesData _ programCourseCodes
                  (fun _ _ H => H)) Hrun). }
    destruct Hres as [Hq Hr].
    split; intros Hin; [apply Hq in Hin | apply Hr in Hin]; congruence.
Qed.

(** C5. For every catalog and seed list the traversal ends and its result
    holds only codes reachable from the seeds through COURSE and
    LOGICAL_OPERATOR nodes: what only a TEXTUAL or N_OF_LIST node names
    stays out. *)
Theorem closure_skips_textual_and_n_of_list (coursesData : list Course)
    (programCourseCodes : list string) :
  exists result,
    getRelevantCoursesForProgram coursesData programCourseCodes = Some result /\
    (forall c, In c result -> Reachable coursesData programCourseCodes c).
Proof.
  destruct (runClosure_total coursesData programCourseCodes) as [st [Hrun _]].
  exists (relevantCodes st). split.
  { unfold getRelevantCoursesForProgram. rewrite Hrun. reflexivity. }
  unfold runClosure in Hrun.
  apply (bfs_invariant coursesData _
           (fun s Hs _ => visit_reachable coursesData programCourseCodes s Hs) _ _ _
           (initialClosure_allCodes coursesData _ programCourseCodes
              (reach_seed coursesData programCourseCodes)) Hrun).
Qed.

(** ** GraphBuilder: what a build pass keeps *)

Lemma keeps_refl (st : Build) : keeps st st.
Proof.
  split; [exists []; symmetry; apply app_nil_r|].
  split; [exists []; symmetry; apply app_nil_r|auto].
Qed.

Lemma keeps_trans (a b c : Build) : keeps a b -> keeps b c -> keeps a c.
Proof.
  intros [[n1 Hn1] [[e1 He1] Hu1]] [[n2 Hn2] [[e2 He2] Hu2]].
  split; [exists (n1 ++ n2); rewrite Hn2, Hn1, app_assoc; reflexivity|].
  split; [exists (e1 ++ e2); rewrite He2, He1, app_assoc; reflexivity|auto].
Qed.

Lemma someEdgeId_false (es : list Edge.t) (i : string) :
  someEdgeId es i = false -> ~ In i (edgeIds es).
Proof.
  unfold someEdgeId, edgeIds. intros H Hin.
  apply in_map_iff in Hin. destruct Hin as [e [He Hin]].
  assert (Ht : existsb (fun e => String.eqb (Edge.id e) i) es = true).
  { apply existsb_exists. exists e. split; [exact Hin|]. rewrite He. apply String.eqb_refl. }
  congruence.
Qed.

Lemma someEdgeId_true (es : list Edge.t) (i : string) :
  someEdgeId es i = true -> In i (edgeIds es).
Proof.
  unfold someEdgeId, edgeIds. intros H.
  apply existsb_exists in H. destruct H as [e [Hin He]].
  apply String.eqb_eq in He. apply in_map_iff. exists e. auto.
Qed.

Lemma someNodeId_false (ns : list Node.t) (i : string) :
  someNodeId ns i = false -> ~ In i (nodeIds ns).
Proof.
  unfold someNodeId, nodeIds. intros H Hin.
  apply in_map_iff in Hin. destruct Hin as [n [Hn Hin]].
  assert (Ht : existsb (fun n => String.eqb (Node.id n) i) ns = true).
  { apply existsb_exists. exists n. split; [exact Hin|]. rewrite Hn. apply String.eqb_refl. }
  congruence.
Qed.

Lemma someNodeId_true (ns : list Node.t) (i : string) :
  someNodeId ns i = true -> In i (nodeIds ns).
Proof.
  unfold someNodeId, nodeIds. intros H.
  apply existsb_exists in H. destruct H as [n [Hin Hn]].
  apply String.eqb_eq in Hn. apply in_map_iff. exists n. auto.
Qed.

Lemma keeps_pushNode (n : Node.t) (st : Build) : keeps st (pushNode n st).
Proof.
  unfold pushNode. destruct (someNodeId (nodesArray st) (Node.id n)); [apply keeps_refl|].
  split; [exists [n]; reflexivity|].
  split; [exists []; symmetry; apply app_nil_r|auto].
Qed.

Lemma keeps_pushEdge (e : Edge.t) (st : Build) : keeps st (pushEdge e st).
Proof.
  unfold pushEdge. destruct (someEdgeId (edgesArray st) (Edge.id e)) eqn:He;
    [apply keeps_refl|].
  split; [exists []; symmetry; apply app_nil_r|].
  split; [exists [e]; reflexivity|].
  simpl. intros Hu. unfold edgeIds. rewrite map_app. simpl.
  apply NoDup_app; [exact Hu | constructor; [intros [] | constructor] |].
  intros a Ha [<-|[]]. exact (someEdgeId_false _ _ He Ha).
Qed.

Lemma keeps_bumpLogic (st : Build) : keeps st (bumpLogic st).
Proof.
  split; [exists []; symmetry; apply app_nil_r|].
  split; [exists []; symmetry; apply app_nil_r|auto].
Qed.

Lemma keeps_bumpTextual (st : Build) : keeps st (bumpTextual st).
Proof.
  split; [exists []; symmetry; apply app_nil_r|].
  split; [exists []; symmetry; apply app_nil_r|auto].
Qed.

Lemma keeps_bumpNOfList (st : Build) : keeps st (bumpNOfList st).
Proof.
  split; [exists []; symmetry; apply app_nil_r|].
  split; [exists []; symmetry; apply app_nil_r|auto].
Qed.

Ltac keeps_chain :=
  repeat first
    [ apply keeps_refl
    | apply keeps_bumpLogic
    | apply keeps_bumpTextual
    | apply keeps_bumpNOfList
    | eapply keeps_trans; [| apply keeps_pushEdge]
    | eapply keeps_trans; [| apply keeps_pushNode] ].

Section BuilderFacts.

Variable coursesData : list Course.

Lemma keeps_conditions (conds : list Requirement) (i : string) (type : ReqType)
    (orig : string) :
  Forall (fun r => forall target ty o st,
            keeps st (addRequirementGraphElements coursesData r target ty o st)) conds ->
  forall st,
    keeps st
      (fold_left (fun s c => addRequirementGraphElements coursesData c i type orig s)
         conds st).
Proof.
  intros IH.
  apply (fold_left_preorder keeps
           (fun c s => addRequirementGraphElements coursesData c i type orig s)
           keeps_refl keeps_trans).
  apply (Forall_impl _ (fun r H => H i type orig) IH).
Qed.

Lemma addRequirement_keeps (req : Requirement) :
  forall target type orig st,
    keeps st (addRequirementGraphElements coursesData req target type orig st).
Proof.
  induction req as [c|op conds IH|t|n conds IH] using Requirement_tree_ind;
    intros target type orig st; simpl.
  - destruct (findCourse coursesData c); keeps_chain.
  - eapply keeps_trans; [|apply keeps_conditions, IH]. keeps_chain.
  - keeps_chain.
  - destruct (n =? 1);
      (eapply keeps_trans; [|apply keeps_conditions, IH]); keeps_chain.
Qed.

Lemma addRequirements_keeps (reqs : list Requirement) (courseCode : string)
    (type : ReqType) (st : Build) :
  keeps st (addRequirements coursesData reqs courseCode type st).
Proof.
  unfold addRequirements. apply keeps_conditions.
  apply Forall_forall. intros r _. apply addRequirement_keeps.
Qed.

Lemma addDisplayedCourse_keeps (st : Build) (courseCode : string) :
  keeps st (addDisplayedCourse coursesData st courseCode).
Proof.
  unfold addDisplayedCourse.
  destruct (findCourse coursesData courseCode) as [course|]; [|apply keeps_refl].
  eapply keeps_trans; [|apply addRequirements_keeps].
  eapply keeps_trans; [|apply addRequirements_keeps].
  split; [exists [displayedCourseNode course]; reflexivity|].
  split; [exists []; symmetry; apply app_nil_r|auto].
Qed.

Lemma generate_keeps (codes : list string) (st : Build) :
  keeps st (fold_left (addDisplayedCourse coursesData) codes st).
Proof.
  apply (fold_left_preorder keeps (fun c s => addDisplayedCourse coursesData s c)
           keeps_refl keeps_trans).
  apply Forall_forall. intros c _ s. apply addDisplayedCourse_keeps.
Qed.

Lemma generated_edges_unique (courseCodesToDisplay : list string) :
  NoDup (edgeIds (edgesArray (generateGraphElements coursesData courseCodesToDisplay))).
Proof.
  unfold generateGraphElements.
  destruct (generate_keeps (JSSet.ofArray courseCodesToDisplay) emptyBuild)
    as [_ [_ Hu]].
  apply Hu. constructor.
Qed.

End BuilderFacts.

(** ** Delivery to the render layer *)

Lemma dataSetAdd_distinct {A : Type} (idOf : A -> string) (items : list A) :
  forall ds, NoDup (map idOf (ds ++ items)) ->
             dataSetAdd idOf items ds = Some (ds ++ items).
Proof.
  induction items as [|x items IH]; intros ds Hnd; simpl.
  - rewrite app_nil_r. reflexivity.
  - destruct (existsb (fun y => String.eqb (idOf y) (idOf x)) ds) eqn:He.
    + exfalso. apply existsb_exists in He. destruct He as [y [Hy He]].
      apply String.eqb_eq in He.
      rewrite map_app in Hnd. simpl in Hnd.
      apply NoDup_remove_2 in Hnd. apply Hnd.
      apply in_app_iff. left. rewrite <- He. apply in_map. exact Hy.
    + replace (ds ++ x :: items) with ((ds ++ [x]) ++ items) in *
        by (rewrite <- app_assoc; reflexivity).
      apply IH. exact Hnd.
Qed.

Lemma keepFirst_NoDup (nodes : list Node.t) :
  forall acc, NoDup (nodeIds acc) -> NoDup (nodeIds (keepFirst acc nodes)).
Proof.
  unfold keepFirst. induction nodes as [|x nodes IH]; intros acc Hacc; simpl; [exact Hacc|].
  apply IH. destruct (someNodeId acc (Node.id x)) eqn:Hx; [exact Hacc|].
  unfold nodeIds. rewrite map_app. simpl.
  apply NoDup_app; [exact Hacc | constructor; [intros [] | constructor] |].
  intros a Ha [<-|[]]. exact (someNodeId_false _ _ Hx Ha).
Qed.

Lemma keepFirst_ids (nodes : list Node.t) (i : string) :
  forall acc, In i (nodeIds (keepFirst acc nodes))
              <-> In i (nodeIds acc) \/ In i (nodeIds nodes).
Proof.
  unfold keepFirst. induction nodes as [|x nodes IH]; intros acc; simpl.
  - split; [auto | intros [H|[]]; exact H].
  - rewrite IH. destruct (someNodeId acc (Node.id x)) eqn:Hx.
    + apply someNodeId_true in Hx. split.
      * intros [H|H]; auto.
      * intros [H|[<-|H]]; auto.
    + unfold nodeIds at 1. rewrite map_app, in_app_iff. simpl. split.
      * intros [[H|[<-|[]]]|H]; auto.
      * intros [H|[<-|H]]; auto.
Qed.

Lemma keepFirst_first (nodes : list Node.t) (n : Node.t) :
  forall acc, In n (keepFirst acc nodes) ->
    In n acc \/
    (~ In (Node.id n) (nodeIds acc) /\
     find (fun m => String.eqb (Node.id m) (Node.id n)) nodes = Some n).
Proof.
  unfold keepFirst. induction nodes as [|x nodes IH]; intros acc Hin; simpl in *; [auto|].
  apply IH in Hin. destruct (someNodeId acc (Node.id x)) eqn:Hx.
  - destruct Hin as [Hin|[Hnot Hfind]]; [auto|]. right. split; [exact Hnot|].
    destruct (String.eqb (Node.id x) (Node.id n)) eqn:He; [|exact Hfind].
    apply String.eqb_eq in He. apply someNodeId_true in Hx. rewrite He in Hx. contradiction.
  - pose proof (someNodeId_false _ _ Hx) as Hfresh.
    destruct Hin as [Hin|[Hnot Hfind]].
    + apply in_app_iff in Hin. destruct Hin as [Hin|[<-|[]]]; [auto|].
      right. split; [exact Hfresh|]. rewrite String.eqb_refl. reflexivity.
    + unfold nodeIds in Hnot. rewrite map_app, in_app_iff in Hnot. simpl in Hnot.
      right. split; [intros H; apply Hnot; auto|].
      destruct (String.eqb (Node.id x) (Node.id n)) eqn:He; [|exact Hfind].
      apply String.eqb_eq in He. exfalso. apply Hnot. auto.
Qed.

Lemma find_edge_unique (es : list Edge.t) (e : Edge.t) :
  NoDup (edgeIds es) -> In e es ->
  find (fun x => String.eqb (Edge.id x) (Edge.id e)) es = Some e.
Proof.
  induction es as [|a es IH]; simpl; intros Hnd Hin; [destruct Hin|].
  inversion Hnd as [|? ? Hnot Hnd']; subst.
  destruct Hin as [->|Hin]; [rewrite String.eqb_refl; reflexivity|].
  destruct (String.eqb (Edge.id a) (Edge.id e)) eqn:He; [|apply IH; assumption].
  apply String.eqb_eq in He. exfalso. apply Hnot. rewrite He.
  apply in_map. exact Hin.
Qed.

Lemma generate_empty (coursesData : list Course) :
  generateGraphElements coursesData [] = emptyBuild.
Proof. reflexivity. Qed.

Lemma displayGraphForCourses_delivers (coursesData : list Course)
    (courseCodesToDisplay : list string) (st : AppState) :
  let built := generateGraphElements coursesData courseCodesToDisplay in
  displayGraphForCourses coursesData courseCodesToDisplay st
  = Some (setGraph (uniqueNodesById (nodesArray built)) (edgesArray built) st).
Proof.
  intros built.
  assert (Hn : NoDup (nodeIds (uniqueNodesById (nodesArray built))))
    by (apply (keepFirst_NoDup (nodesArray built) []); constructor).
  assert (He : NoDup (edgeIds (edgesArray built)))
    by apply generated_edges_unique.
  unfold displayGraphForCourses.
  destruct courseCodesToDisplay as [|c cs]; [reflexivity|].
  fold built.
  rewrite (dataSetAdd_distinct Node.id (uniqueNodesById (nodesArray built)) []) by exact Hn.
  rewrite (dataSetAdd_distinct Edge.id (edgesArray built) []) by exact He.
  reflexivity.
Qed.

(** C3. Whatever list is displayed, the rebuild succeeds and the node and
    edge collections it delivers hold no id twice: the nodes are the first
    node of each id assembled (every assembled id is kept, with the
    attributes of its first occurrence), the edges are the assembled ones,
    each the first of its id, since a push whose id is already there
    changes nothing. *)
Theorem delivered_ids_are_unique (coursesData : list Course)
    (courseCodesToDisplay : list string) (st : AppState) :
  let built := generateGraphElements coursesData courseCodesToDisplay in
  exists st',
    displayGraphForCourses coursesData courseCodesToDisplay st = Some st' /\
    allNodesDataSet st' = uniqueNodesById (nodesArray built) /\
    allEdgesDataSet st' = edgesArray built /\
    NoDup (nodeIds (allNodesDataSet st')) /\
    NoDup (edgeIds (allEdgesDataSet st')) /\
    (forall n, In n (allNodesDataSet st') ->
       find (fun m => String.eqb (Node.id m) (Node.id n)) (nodesArray built) = Some n) /\
    (forall m, In m (nodesArray built) -> In (Node.id m) (nodeIds (allNodesDataSet st'))) /\
    (forall e, In e (allEdgesDataSet st') ->
       find (fun x => String.eqb (Edge.id x) (Edge.id e)) (edgesArray built) = Some e) /\
    (forall e b, someEdgeId (edgesArray b) (Edge.id e) = true -> pushEdge e b = b).
Proof.
  intros built.
  assert (Hn : NoDup (nodeIds (uniqueNodesById (nodesArray built))))
    by (apply (keepFirst_NoDup (nodesArray built) []); constructor).
  assert (He : NoDup (edgeIds (edgesArray built)))
    by apply generated_edges_unique.
  assert (Hfirst : forall n, In n (uniqueNodesById (nodesArray built)) ->
            find (fun m => String.eqb (Node.id m) (Node.id n)) (nodesArray built) = Some n).
  { intros n Hin. apply (keepFirst_first (nodesArray built) n []) in Hin.
    destruct Hin as [[]|[_ H]]. exact H. }
  assert (Hall : forall m, In m (nodesArray built) ->
            In (Node.id m) (nodeIds (uniqueNodesById (nodesArray built)))).
  { intros m Hm. apply (keepFirst_ids (nodesArray built) (Node.id m) []).
    right. apply in_map. exact Hm. }
  exists (setGraph (uniqueNodesById (nodesArray built)) (edgesArray built) st).
  split; [apply displayGraphForCourses_delivers|]. simpl.
  split; [reflexivity|]. split; [reflexivity|].
  split; [exact Hn|]. split; [exact He|].
  split; [exact Hfirst|]. split; [exact Hall|]. split.
  - intros e Hin. apply find_edge_unique; assumption.
  - intros e b Hb. unfold pushEdge. rewrite Hb. reflexivity.
Qed.

(** ** GraphBuilder: N_OF_LIST requirements *)

Lemma keeps_node_in (st st' : Build) (n : Node.t) :
  keeps st st' -> In n (nodesArray st) -> In n (nodesArray st').
Proof. intros [[ns ->] _] H. apply in_app_iff. auto. Qed.


Lemma keeps_nodeId_in (st st' : Build) (i : string) :
  keeps st st' -> In i (nodeIds (nodesArray st)) -> In i (nodeIds (nodesArray st')).
Proof.
  intros [[ns ->] _] H. unfold nodeIds in *. rewrite map_app. apply in_app_iff. auto.
Qed.

Lemma keeps_edgeId_in (st st' : Build) (i : string) :
  keeps st st' -> In i (edgeIds (edgesArray st)) -> In i (edgeIds (edgesArray st')).
Proof.
  intros [_ [[es ->] _]] H. unfold edgeIds in *. rewrite map_app. apply in_app_iff. auto.
Qed.

Lemma pushNode_id_in (n : Node.t) (st : Build) :
  In (Node.id n) (nodeIds (nodesArray (pushNode n st))).
Proof.
  unfold pushNode. destruct (someNodeId (nodesArray st) (Node.id n)) eqn:H.
  - apply someNodeId_true, H.
  - simpl. unfold nodeIds. rewrite map_app. apply in_app_iff. right. left. reflexivity.
Qed.


Lemma pushEdge_id_in (e : Edge.t) (st : Build) :
  In (Edge.id e) (edgeIds (edgesArray (pushEdge e st))).
Proof.
  unfold pushEdge. destruct (someEdgeId (edgesArray st) (Edge.id e)) eqn:H.
  - apply someEdgeId_true, H.
  - simpl. unfold edgeIds. rewrite map_app. apply in_app_iff. right. left. reflexivity.
Qed.


(** The [forEach] over [conds] reaches each condition: the pass splits
    into what came before it, its own call, and what came after. *)
Lemma conditions_reach (coursesData : list Course) (conds : list Requirement)
    (i : string) (type : ReqType) (orig : string) (r : Requirement) (st : Build) :
  In r conds ->
  exists s0,
    keeps st s0 /\
    keeps (addRequirementGraphElements coursesData r i type orig s0)
      (fold_left (fun s c => addRequirementGraphElements coursesData c i type orig s)
         conds st).
Proof.
  intros Hin. apply in_split in Hin. destruct Hin as [l1 [l2 ->]].
  exists (fold_left (fun s c => addRequirementGraphElements coursesData c i type orig s) l1 st).
  rewrite fold_left_app. simpl. split; apply keeps_conditions;
    apply Forall_forall; intros x _; apply addRequirement_keeps.
Qed.

(** The id of the edge a resolving COURSE condition adds towards [i]. *)
Lemma course_condition_edge (coursesData : list Course) (c i : string) (type : ReqType)
    (orig : string) (st : Build) :
  inCatalog coursesData c = true ->
  In (c ++ "_" ++ i ++ "_" ++ typeStr type)%string
     (edgeIds (edgesArray (addRequirementGraphElements coursesData (COURSE c) i type orig st))).
Proof.
  unfold inCatalog. simpl. destruct (findCourse coursesData c) as [course|]; [|discriminate].
  intros _.
  match goal with |- In _ (edgeIds (edgesArray (pushEdge ?e ?s))) =>
    exact (pushEdge_id_in e s) end.
Qed.



(** ** ViewStateEngine *)

Section ViewFacts.

Variable coursesData : list Course.
Variable network : Network.

Lemma styled_id (node : Node.t) (o : Q) (f : FontProperties) (c : string) (w b : nat) :
  Node.id (styled node o f c w b) = Node.id node
  /\ Node.group (styled node o f c w b) = Node.group node.
Proof. split; reflexivity. Qed.

Lemma renderNode_id (cat : string) (sel hl : JSSet.t) (node : Node.t) :
  Node.id (renderNode network cat sel hl node) = Node.id node
  /\ Node.group (renderNode network cat sel hl node) = Node.group node.
Proof.
  unfold renderNode, normalNode, veryDimmedNode.
  destruct (normalStyle network node) as [f b].
  destruct (negb _); [split; reflexivity|].
  destruct (0 <? JSSet.size sel); simpl; [|split; reflexivity].
  destruct (JSSet.has hl (Node.id node)); split; reflexivity.
Qed.

Lemma filterNode_id (cat : string) (node : Node.t) :
  Node.id (filterNode network cat node) = Node.id node
  /\ Node.group (filterNode network cat node) = Node.group node.
Proof.
  unfold filterNode, normalNode, veryDimmedNode.
  destruct (normalStyle network node) as [f b].
  destruct (isNodeInSelectedCategory cat node); split; reflexivity.
Qed.

Lemma out_of_category (cat : string) (node : Node.t) :
  cat <> "all" -> Node.group node <> cat -> isNodeInSelectedCategory cat node = false.
Proof.
  intros Hall Hgroup. unfold isNodeInSelectedCategory.
  apply orb_false_iff. split; apply String.eqb_neq; assumption.
Qed.

Lemma renderNode_out_of_category (cat : string) (sel hl : JSSet.t) (node : Node.t) :
  isNodeInSelectedCategory cat node = false ->
  renderNode network cat sel hl node = veryDimmedNode network node.
Proof. intros H. unfold renderNode. rewrite H. reflexivity. Qed.

Lemma renderNode_not_highlighted (cat : string) (sel hl : JSSet.t) (node : Node.t) :
  0 < JSSet.size sel -> JSSet.has hl (Node.id node) = false ->
  renderNode network cat sel hl node = veryDimmedNode network node.
Proof.
  intros Hsel Hhl. unfold renderNode. apply Nat.ltb_lt in Hsel. rewrite Hsel, Hhl.
  destruct (negb _); reflexivity.
Qed.

Lemma renderNode_highlighted (cat : string) (sel hl : JSSet.t) (node : Node.t) :
  isNodeInSelectedCategory cat node = true -> JSSet.has hl (Node.id node) = true ->
  renderNode network cat sel hl node = normalNode network node.
Proof.
  intros Hcat Hhl. unfold renderNode. rewrite Hcat, Hhl. simpl.
  destruct (0 <? JSSet.size sel); reflexivity.
Qed.

Lemma normalNode_opacity (node : Node.t) :
  Node.opacity (normalNode network node) = Some 1%Q.
Proof. unfold normalNode. destruct (normalStyle network node). reflexivity. Qed.

(** What step 1 of a click on a node writes. *)
Lemma selectOnClick_node (i : string) (rest : list string) (st : AppState) :
  truthyStr i = true ->
  let st1 := selectOnClick coursesData (i :: rest) st in
  selectedForHighlighting_NodeIds st1 = JSSet.add i (selectedForHighlighting_NodeIds st)
  /\ categoryFilterSelect_value st1 = categoryFilterSelect_value st
  /\ programSelect_value st1 = programSelect_value st
  /\ allNodesDataSet st1 = allNodesDataSet st
  /\ allEdgesDataSet st1 = allEdgesDataSet st
  /\ (findCourse coursesData i = None ->
      sidebarContent st1 = sidebarContent st /\ sidebarVisible st1 = sidebarVisible st).
Proof.
  intros Hi. unfold selectOnClick, clickedNodeId. rewrite Hi.
  destruct (findCourse coursesData i); simpl; repeat split; intros; discriminate.
Qed.

Lemma selectOnClick_frame (params_nodes : list string) (st : AppState) :
  let st1 := selectOnClick coursesData params_nodes st in
  categoryFilterSelect_value st1 = categoryFilterSelect_value st
  /\ allNodesDataSet st1 = allNodesDataSet st
  /\ allEdgesDataSet st1 = allEdgesDataSet st.
Proof.
  unfold selectOnClick. destruct (clickedNodeId params_nodes) as [i|]; simpl;
    [destruct (findCourse coursesData i)|]; repeat split.
Qed.

(** The highlight set: every selected id and what the library reports
    as connected to it. *)
Lemma in_nodesToFullyHighlight (sel : JSSet.t) (x : string) :
  In x (nodesToFullyHighlight network sel)
  <-> exists s, In s sel /\ (x = s \/ In x (getConnectedNodes network s)).
Proof.
  unfold nodesToFullyHighlight.
  assert (H : forall acc,
    In x (fold_left
            (fun acc s => JSSet.addAll (getConnectedNodes network s) (JSSet.add s acc))
            sel acc)
    <-> In x acc \/ exists s, In s sel /\ (x = s \/ In x (getConnectedNodes network s))).
  { induction sel as [|a sel IH]; intros acc; simpl.
    - split; [auto | intros [Hx|[s [[] _]]]; exact Hx].
    - rewrite IH, in_addAll, in_add. split.
      + intros [[Hx|[->|Hx]]|[s [Hs Hx]]]; eauto 6.
      + intros [Hx|[s [[<-|Hs] [->|Hx]]]]; eauto 6. }
  rewrite H. unfold JSSet.empty. simpl. split; [intros [[]|Hx]; exact Hx | auto].
Qed.

End ViewFacts.

Lemma Forall2_map_self {A B : Type} (P : A -> B -> Prop) (f : A -> B) (l : list A) :
  (forall x, In x l -> P x (f x)) -> Forall2 P l (map f l).
Proof.
  induction l as [|a l IH]; intros H; simpl; constructor.
  - apply H. left. reflexivity.
  - apply IH. intros x Hx. apply H. right. exact Hx.
Qed.

Lemma veryDimmedNode_fullyDimmed (network : Network) (node : Node.t) :
  fullyDimmed (veryDimmedNode network node).
Proof. repeat split. Qed.

(** The state the category handler leaves, whichever way its run ends:
    the selection is empty and the nodes are rendered. *)
Lemma handleCategoryFilterChange_nodes (network : Network) (st : AppState) :
  let st' := stateOf (handleCategoryFilterChange network st) in
  allNodesDataSet st'
  = map (filterNode network (categoryFilterSelect_value st)) (allNodesDataSet st) /\
  selectedForHighlighting_NodeIds st' = JSSet.empty /\
  categoryFilterSelect_value st' = categoryFilterSelect_value st /\
  programSelect_value st' = programSelect_value st /\
  sidebarVisible st' = sidebarVisible st /\
  sidebarContent st' = sidebarContent st /\
  loadingIndicatorShown st' = loadingIndicatorShown st.
Proof.
  unfold handleCategoryFilterChange. simpl.
  destruct (mapOrRaise _ _); simpl; repeat split.
Qed.

(** C7. Each of the two render passes keeps every node of the graph in
    its place, with its id and group, and a node whose group differs
    from a category filter other than "all" comes out of it fully
    dimmed: opacity 0.05, the dimmed text colour, no text stroke and no
    border, whatever the selection, the click and the adjacency the
    library reports.  For the category handler the state is the one its
    run leaves behind: the node update is written before the statements
    that raise. *)
Theorem out_of_category_nodes_are_dimmed (coursesData : list Course) (network : Network)
    (params_nodes : list string) (st : AppState) :
  categoryFilterSelect_value st <> "all" ->
  Forall2 (dimsOutside (categoryFilterSelect_value st)) (allNodesDataSet st)
    (allNodesDataSet (handleNetworkClick coursesData network params_nodes st)) /\
  Forall2 (dimsOutside (categoryFilterSelect_value st)) (allNodesDataSet st)
    (allNodesDataSet (stateOf (handleCategoryFilterChange network st))).
Proof.
  intros Hall. split.
  - unfold handleNetworkClick. simpl.
    destruct (selectOnClick_frame coursesData params_nodes st) as [Hcat [Hnodes _]].
    rewrite Hcat, Hnodes.
    apply Forall2_map_self. intros node _.
    destruct (renderNode_id network (categoryFilterSelect_value st)
                (selectedForHighlighting_NodeIds (selectOnClick coursesData params_nodes st))
                (nodesToFullyHighlight network
                   (selectedForHighlighting_NodeIds
                      (selectOnClick coursesData params_nodes st)))
                node) as [Hid Hgroup].
    split; [exact Hid|]. split; [exact Hgroup|].
    intros Hout. rewrite renderNode_out_of_category.
    + apply veryDimmedNode_fullyDimmed.
    + apply out_of_category; assumption.
  - destruct (handleCategoryFilterChange_nodes network st) as [Hnodes _].
    rewrite Hnodes.
    apply Forall2_map_self. intros node _.
    destruct (filterNode_id network (categoryFilterSelect_value st) node) as [Hid Hgroup].
    split; [exact Hid|]. split; [exact Hgroup|].
    intros Hout. unfold filterNode. rewrite out_of_category by assumption.
    apply veryDimmedNode_fullyDimmed.
Qed.

(** The theorem at work: COMP-251 is selected and the filter is the
    group of COMP-250, which no other node of the graph has.  Both passes
    keep the four nodes, and the selected COMP-251 is among the dimmed. *)
Lemma out_of_category_nodes_are_dimmed_witness :
  let cat := "CogSci Program: Core CompSci" in
  let st := setCategory cat (click demoCatalog ["COMP-251"] softwareGraph) in
  let net := visNetwork (allNodesDataSet st) (allEdgesDataSet st) in
  (In "COMP-251" (selectedForHighlighting_NodeIds st) /\
   map (fun n => (Node.id n, Node.group n)) (allNodesDataSet st)
   = [("COMP-251", "CogSci Program: Comp CompSci");
      ("logic_COMP-251_prereq_AND_1", "AndNode");
      ("COMP-250", cat);
      ("MATH-240", "CogSci Program: Comp CompSci")]) /\
  categoryFilterSelect_value st <> "all" /\
  Forall2 (dimsOutside cat) (allNodesDataSet st)
    (allNodesDataSet (handleNetworkClick demoCatalog net ["COMP-251"] st)) /\
  Forall2 (dimsOutside cat) (allNodesDataSet st)
    (allNodesDataSet (stateOf (handleCategoryFilterChange net st))).
Proof.
  intros cat st net.
  assert (Hall : categoryFilterSelect_value st <> "all") by (vm_compute; discriminate).
  split; [split; [left; reflexivity | reflexivity]|].
  split; [exact Hall|].
  exact (out_of_category_nodes_are_dimmed demoCatalog net ["COMP-251"] st Hall).
Defined.

(** ** Clicks *)

Lemma renderEdge_id (sel hl : JSSet.t) (e : Edge.t) :
  Edge.id (renderEdge sel hl e) = Edge.id e.
Proof. unfold renderEdge. destruct (_ && _); reflexivity. Qed.

Lemma handleNetworkClick_ids (coursesData : list Course) (network : Network)
    (params_nodes : list string) (st : AppState) :
  let st' := handleNetworkClick coursesData network params_nodes st in
  nodeIds (allNodesDataSet st') = nodeIds (allNodesDataSet st)
  /\ edgeIds (allEdgesDataSet st') = edgeIds (allEdgesDataSet st)
  /\ categoryFilterSelect_value st' = categoryFilterSelect_value st
  /\ selectedForHighlighting_NodeIds st'
     = selectedForHighlighting_NodeIds (selectOnClick coursesData params_nodes st)
  /\ sidebarContent st' = sidebarContent (selectOnClick coursesData params_nodes st)
  /\ sidebarVisible st' = sidebarVisible (selectOnClick coursesData params_nodes st).
Proof.
  destruct (selectOnClick_frame coursesData params_nodes st) as [Hcat [Hn He]].
  unfold handleNetworkClick. simpl. rewrite Hn, He, Hcat.
  unfold nodeIds, edgeIds. rewrite !map_map. repeat split.
  - apply map_ext. intros n. apply renderNode_id.
  - apply map_ext. intros e. apply renderEdge_id.
Qed.

Lemma size_add_pos (i : string) (s : JSSet.t) : 0 < JSSet.size (JSSet.add i s).
Proof.
  unfold JSSet.size.
  assert (H : In i (JSSet.add i s)) by (apply in_add; auto).
  destruct (JSSet.add i s); [destruct H | simpl; lia].
Qed.

(** C9, the counterexample: a click that names no node of the graph is
    not a no-op.  On the demo graph, rendered with nothing selected, it
    puts the unknown id in the selection and dims all four nodes. *)
Lemma click_on_absent_node_changes_state :
  let st := click demoCatalog [] softwareGraph in
  let st' := click demoCatalog ["NOT-THERE"] st in
  someNodeId (allNodesDataSet st) "NOT-THERE" = false /\
  selectedForHighlighting_NodeIds st = [] /\
  selectedForHighlighting_NodeIds st' = ["NOT-THERE"] /\
  map Node.opacity (allNodesDataSet st) = [Some 1%Q; Some 1%Q; Some 1%Q; Some 1%Q] /\
  map Node.opacity (allNodesDataSet st')
  = [Some VERY_DIMMED_OPACITY; Some VERY_DIMMED_OPACITY;
     Some VERY_DIMMED_OPACITY; Some VERY_DIMMED_OPACITY].
Proof. vm_compute. repeat split. Qed.

(** C9, as the code has it: a click carrying an id that the graph does
    not hold raises nothing and is handled like any node click.  The id
    joins the selection; the category filter and the node and edge ids
    stay as they were; every node outside the highlight set is rendered
    fully dimmed. *)
Theorem click_on_absent_node_selects_it (coursesData : list Course) (network : Network)
    (i : string) (rest : list string) (st : AppState) :
  truthyStr i = true ->
  someNodeId (allNodesDataSet st) i = false ->
  let st' := handleNetworkClick coursesData network (i :: rest) st in
  selectedForHighlighting_NodeIds st' = JSSet.add i (selectedForHighlighting_NodeIds st) /\
  In i (selectedForHighlighting_NodeIds st') /\
  categoryFilterSelect_value st' = categoryFilterSelect_value st /\
  nodeIds (allNodesDataSet st') = nodeIds (allNodesDataSet st) /\
  edgeIds (allEdgesDataSet st') = edgeIds (allEdgesDataSet st) /\
  (forall shown, In shown (allNodesDataSet st') ->
     JSSet.has (nodesToFullyHighlight network (selectedForHighlighting_NodeIds st'))
       (Node.id shown) = false ->
     Node.opacity shown = Some VERY_DIMMED_OPACITY).
Proof.
  intros Hi _ st'.
  destruct (handleNetworkClick_ids coursesData network (i :: rest) st)
    as [Hn [He [Hcat [Hsel _]]]].
  destruct (selectOnClick_node coursesData i rest st Hi) as [Hsel1 _].
  fold st' in Hn, He, Hcat, Hsel. rewrite Hsel1 in Hsel.
  split; [exact Hsel|]. split; [rewrite Hsel; apply in_add; auto|].
  split; [exact Hcat|]. split; [exact Hn|]. split; [exact He|].
  intros shown Hin Hhl. rewrite Hsel in Hhl.
  unfold st', handleNetworkClick in Hin. simpl in Hin.
  rewrite Hsel1 in Hin.
  apply in_map_iff in Hin. destruct Hin as [node [<- _]].
  rewrite renderNode_not_highlighted; [reflexivity | apply size_add_pos |].
  rewrite <- Hhl. f_equal. symmetry. apply renderNode_id.
Qed.

(** The theorem at work on the demo graph. *)
Lemma click_on_absent_node_selects_it_witness :
  let st := click demoCatalog [] softwareGraph in
  let net := visNetwork (allNodesDataSet st) (allEdgesDataSet st) in
  let st' := handleNetworkClick demoCatalog net ["NOT-THERE"] st in
  truthyStr "NOT-THERE" = true /\
  someNodeId (allNodesDataSet st) "NOT-THERE" = false /\
  selectedForHighlighting_NodeIds st' = JSSet.add "NOT-THERE" (selectedForHighlighting_NodeIds st) /\
  In "NOT-THERE" (selectedForHighlighting_NodeIds st') /\
  categoryFilterSelect_value st' = categoryFilterSelect_value st /\
  nodeIds (allNodesDataSet st') = nodeIds (allNodesDataSet st) /\
  edgeIds (allEdgesDataSet st') = edgeIds (allEdgesDataSet st) /\
  (forall shown, In shown (allNodesDataSet st') ->
     JSSet.has (nodesToFullyHighlight net (selectedForHighlighting_NodeIds st'))
       (Node.id shown) = false ->
     Node.opacity shown = Some VERY_DIMMED_OPACITY).
Proof.
  intros st net st'.
  split; [reflexivity|]. split; [vm_compute; reflexivity|].
  apply (click_on_absent_node_selects_it demoCatalog net "NOT-THERE" [] st);
    vm_compute; reflexivity.
Defined.

(** C10. A click on an id that is no course code (a junction or a
    textual node) updates the selection by the same [add] as any node
    click and leaves the sidebar alone.  On that render and on the
    render of every later node click the id and all the nodes the library
    reports as connected to it are in the highlight set, and every node of
    that set that passes the category filter is shown at full opacity. *)
Theorem junction_click_joins_selection (coursesData : list Course) (network : Network)
    (i : string) (rest : list string) (st : AppState) :
  truthyStr i = true ->
  findCourse coursesData i = None ->
  let highlightOf (s : AppState) :=
    nodesToFullyHighlight network (selectedForHighlighting_NodeIds s) in
  let st1 := handleNetworkClick coursesData network (i :: rest) st in
  selectedForHighlighting_NodeIds st1 = JSSet.add i (selectedForHighlighting_NodeIds st) /\
  sidebarContent st1 = sidebarContent st /\
  sidebarVisible st1 = sidebarVisible st /\
  (forall i' rest', truthyStr i' = true ->
     selectedForHighlighting_NodeIds
       (handleNetworkClick coursesData network (i' :: rest') st)
     = JSSet.add i' (selectedForHighlighting_NodeIds st)) /\
  (forall st2,
     st2 = st1 \/
     (exists i2 rest2, truthyStr i2 = true /\
                       st2 = handleNetworkClick coursesData network (i2 :: rest2) st1) ->
     In i (selectedForHighlighting_NodeIds st2) /\
     In i (highlightOf st2) /\
     (forall x, In x (getConnectedNodes network i) -> In x (highlightOf st2)) /\
     (forall shown, In shown (allNodesDataSet st2) ->
        In (Node.id shown) (highlightOf st2) ->
        isNodeInSelectedCategory (categoryFilterSelect_value st2) shown = true ->
        Node.opacity shown = Some 1%Q)).
Proof.
  intros Hi Hnone highlightOf st1.
  assert (Hsel : forall (i' : string) rest' s, truthyStr i' = true ->
            selectedForHighlighting_NodeIds
              (handleNetworkClick coursesData network (i' :: rest') s)
            = JSSet.add i' (selectedForHighlighting_NodeIds s)).
  { intros i' rest' s Hi'.
    destruct (handleNetworkClick_ids coursesData network (i' :: rest') s)
      as [_ [_ [_ [H _]]]].
    rewrite H. apply (selectOnClick_node coursesData i' rest' s Hi'). }
  destruct (handleNetworkClick_ids coursesData network (i :: rest) st)
    as [_ [_ [_ [_ [Hc Hv]]]]].
  destruct (selectOnClick_node coursesData i rest st Hi) as [_ [_ [_ [_ [_ Hside]]]]].
  destruct (Hside Hnone) as [Hc' Hv'].
  split; [apply Hsel, Hi|]. split; [unfold st1; congruence|].
  split; [unfold st1; congruence|]. split; [intros; apply Hsel; assumption|].
  assert (Hrender : forall params s shown,
            In shown (allNodesDataSet (handleNetworkClick coursesData network params s)) ->
            In (Node.id shown)
               (highlightOf (handleNetworkClick coursesData network params s)) ->
            isNodeInSelectedCategory
              (categoryFilterSelect_value (handleNetworkClick coursesData network params s))
              shown = true ->
            Node.opacity shown = Some 1%Q).
  { intros params s shown Hin Hhl Hcat. unfold highlightOf in Hhl.
    unfold handleNetworkClick in Hin, Hhl, Hcat. simpl in Hin, Hhl, Hcat.
    apply in_map_iff in Hin. destruct Hin as [node [<- _]].
    destruct (renderNode_id network
                (categoryFilterSelect_value (selectOnClick coursesData params s))
                (selectedForHighlighting_NodeIds (selectOnClick coursesData params s))
                (nodesToFullyHighlight network
                   (selectedForHighlighting_NodeIds (selectOnClick coursesData params s)))
                node) as [Hid Hgroup].
    rewrite Hid in Hhl. apply has_true_iff in Hhl.
    unfold isNodeInSelectedCategory in Hcat. rewrite Hgroup in Hcat.
    rewrite renderNode_highlighted; [apply normalNode_opacity | exact Hcat | exact Hhl]. }
  intros st2 Hst2.
  assert (Hin2 : In i (selectedForHighlighting_NodeIds st2)).
  { destruct Hst2 as [->|[i2 [rest2 [Hi2 ->]]]].
    - unfold st1. rewrite Hsel by exact Hi. apply in_add. auto.
    - rewrite Hsel by exact Hi2. apply in_add. right.
      unfold st1. rewrite Hsel by exact Hi. apply in_add. auto. }
  split; [exact Hin2|].
  split; [apply in_nodesToFullyHighlight; exists i; auto|].
  split; [intros x Hx; apply in_nodesToFullyHighlight; exists i; auto|].
  destruct Hst2 as [->|[i2 [rest2 [_ ->]]]]; apply Hrender.
Qed.

(** The theorem at work: the AND junction of COMP-251 is clicked. *)
Lemma junction_click_joins_selection_witness :
  let i := "logic_COMP-251_prereq_AND_1" in
  let st := softwareGraph in
  let net := visNetwork (allNodesDataSet st) (allEdgesDataSet st) in
  let highlightOf (s : AppState) :=
    nodesToFullyHighlight net (selectedForHighlighting_NodeIds s) in
  let st1 := handleNetworkClick demoCatalog net [i] st in
  (truthyStr i = true /\ findCourse demoCatalog i = None /\
   getConnectedNodes net i = ["COMP-251"; "COMP-250"; "MATH-240"]) /\
  selectedForHighlighting_NodeIds st1 = JSSet.add i (selectedForHighlighting_NodeIds st) /\
  sidebarContent st1 = sidebarContent st /\
  sidebarVisible st1 = sidebarVisible st /\
  (forall i' rest', truthyStr i' = true ->
     selectedForHighlighting_NodeIds (handleNetworkClick demoCatalog net (i' :: rest') st)
     = JSSet.add i' (selectedForHighlighting_NodeIds st)) /\
  (forall st2,
     st2 = st1 \/
     (exists i2 rest2, truthyStr i2 = true /\
                       st2 = handleNetworkClick demoCatalog net (i2 :: rest2) st1) ->
     In i (selectedForHighlighting_NodeIds st2) /\
     In i (highlightOf st2) /\
     (forall x, In x (getConnectedNodes net i) -> In x (highlightOf st2)) /\
     (forall shown, In shown (allNodesDataSet st2) ->
        In (Node.id shown) (highlightOf st2) ->
        isNodeInSelectedCategory (categoryFilterSelect_value st2) shown = true ->
        Node.opacity shown = Some 1%Q)).
Proof.
  intros i st net highlightOf st1.
  split; [vm_compute; auto|].
  apply (junction_click_joins_selection demoCatalog net i [] st); vm_compute; reflexivity.
Defined.

(** ** Program changes *)

Lemma handleProgramChange_delivers (coursesData : list Course)
    (programsData : list Program) (st : AppState) :
  let cs := programDisplayCodes coursesData programsData (programSelect_value st) in
  let built := generateGraphElements coursesData cs in
  handleProgramChange coursesData programsData st
  = Some (mkApp (uniqueNodesById (nodesArray built)) (edgesArray built)
            (selectedForHighlighting_NodeIds st) (categoryFilterSelect_value st)
            (programSelect_value st) false (sidebarContent st) false).
Proof.
  intros cs built. unfold handleProgramChange. simpl. fold cs.
  rewrite displayGraphForCourses_delivers. reflexivity.
Qed.

(** What a program change leaves as it was: the click selection and the
    category filter. *)
Lemma handleProgramChange_frame (coursesData : list Course)
    (programsData : list Program) (st : AppState) :
  exists st',
    handleProgramChange coursesData programsData st = Some st' /\
    selectedForHighlighting_NodeIds st' = selectedForHighlighting_NodeIds st /\
    categoryFilterSelect_value st' = categoryFilterSelect_value st.
Proof.
  eexists. split; [apply handleProgramChange_delivers|]. split; reflexivity.
Qed.

(** C1, the counterexample: for the demo program "Software" the builder
    is given the two seed codes as they stand, one of them unknown to the
    catalog, while the closure of those seeds has five codes; the graph
    on display has four nodes where a build from the closure has eight. *)
Lemma program_change_displays_seeds_not_closure :
  let st := setProgram "Software" startState in
  programDisplayCodes demoCatalog demoPrograms (programSelect_value st)
  = ["COMP-251"; "FAKE-999"] /\
  getRelevantCoursesForProgram demoCatalog ["COMP-251"; "FAKE-999"]
  = Some ["COMP-251"; "COMP-250"; "MATH-240"; "COMP-202"; "MATH-133"] /\
  option_map (fun s => nodeIds (allNodesDataSet s))
    (handleProgramChange demoCatalog demoPrograms st)
  = Some ["COMP-251"; "logic_COMP-251_prereq_AND_1"; "COMP-250"; "MATH-240"] /\
  option_map (fun s => nodeIds (allNodesDataSet s))
    (displayGraphForCourses demoCatalog
       ["COMP-251"; "COMP-250"; "MATH-240"; "COMP-202"; "MATH-133"] st)
  = Some ["COMP-251"; "logic_COMP-251_prereq_AND_1"; "COMP-250"; "MATH-240";
          "logic_COMP-250_prereq_OR_2"; "COMP-202"; "textual_COMP-250_prereq_1";
          "MATH-133"].
Proof. vm_compute. repeat split. Qed.

(** C1, as the code has it: when the selected name is that of a program
    with a course list, the builder's input is that list itself, and the
    graph delivered is the one built from it. *)
Theorem program_change_displays_program_courses (coursesData : list Course)
    (programsData : list Program) (st : AppState) (p : Program) (cs : list string) :
  programSelect_value st <> "" ->
  programSelect_value st <> "all" ->
  find (fun q => String.eqb (program q) (programSelect_value st)) programsData = Some p ->
  courses p = Some cs ->
  programDisplayCodes coursesData programsData (programSelect_value st) = cs /\
  exists st',
    handleProgramChange coursesData programsData st = Some st' /\
    displayGraphForCourses coursesData cs (hideSidebar (setLoadingIndicator true st))
    = Some (setLoadingIndicator true st') /\
    allNodesDataSet st'
    = uniqueNodesById (nodesArray (generateGraphElements coursesData cs)) /\
    allEdgesDataSet st' = edgesArray (generateGraphElements coursesData cs).
Proof.
  intros Hempty Hall Hfind Hcourses.
  assert (Hcs : programDisplayCodes coursesData programsData (programSelect_value st) = cs).
  { unfold programDisplayCodes.
    apply String.eqb_neq in Hempty, Hall. rewrite Hempty, Hall, Hfind, Hcourses.
    reflexivity. }
  split; [exact Hcs|].
  eexists. split; [apply handleProgramChange_delivers|].
  rewrite Hcs. split; [|split; reflexivity].
  rewrite displayGraphForCourses_delivers. reflexivity.
Qed.

(** The theorem at work on the demo program 'Software'. *)
Lemma program_change_displays_program_courses_witness :
  let st := setProgram "Software" startState in
  let cs := ["COMP-251"; "FAKE-999"] in
  (programSelect_value st <> "" /\ programSelect_value st <> "all") /\
  programDisplayCodes demoCatalog demoPrograms (programSelect_value st) = cs /\
  exists st',
    handleProgramChange demoCatalog demoPrograms st = Some st' /\
    displayGraphForCourses demoCatalog cs (hideSidebar (setLoadingIndicator true st))
    = Some (setLoadingIndicator true st') /\
    allNodesDataSet st'
    = uniqueNodesById (nodesArray (generateGraphElements demoCatalog cs)) /\
    allEdgesDataSet st' = edgesArray (generateGraphElements demoCatalog cs).
Proof.
  intros st cs.
  assert (H1 : programSelect_value st <> "") by (vm_compute; discriminate).
  assert (H2 : programSelect_value st <> "all") by (vm_compute; discriminate).
  split; [split; assumption|].
  apply (program_change_displays_program_courses demoCatalog demoPrograms st
           (mkProgram "Software" (Some cs)) cs H1 H2); reflexivity.
Defined.

(** C2, evaluated: COMP-250 is clicked on the "Software" graph and the
    program is then changed to "Computer Engineering".  The category
    filter is kept, and so is the selection: COMP-250 is still in it, and
    the next click, on ECSE-324, lights up COMP-250 and its OR junction,
    which nobody clicked on this graph. *)
Lemma program_change_keeps_stale_selection :
  let st := click demoCatalog ["COMP-250"] softwareGraph in
  let after := orStart (chooseProgram demoCatalog demoPrograms "Computer Engineering" st) in
  selectedForHighlighting_NodeIds st = ["COMP-250"] /\
  chooseProgram demoCatalog demoPrograms "Computer Engineering" st = Some after /\
  categoryFilterSelect_value after = categoryFilterSelect_value st /\
  selectedForHighlighting_NodeIds after = ["COMP-250"] /\
  selectedForHighlighting_NodeIds (click demoCatalog ["ECSE-324"] after)
  = ["COMP-250"; "ECSE-324"] /\
  map (fun n => (Node.id n, Node.opacity n))
    (allNodesDataSet (click demoCatalog ["ECSE-324"] after))
  = [("ECSE-324", Some 1%Q);
     ("logic_ECSE-324_prereq_OR_N_OF_1_1", Some 1%Q);
     ("ECSE-200", Some VERY_DIMMED_OPACITY);
     ("ECSE-222", Some VERY_DIMMED_OPACITY);
     ("n_of_list_ECSE-324_coreq_2_1", Some 1%Q);
     ("COMP-250", Some 1%Q);
     ("logic_COMP-250_prereq_OR_2", Some 1%Q);
     ("COMP-202", Some VERY_DIMMED_OPACITY);
     ("textual_COMP-250_prereq_1", Some VERY_DIMMED_OPACITY)].
Proof. vm_compute. repeat split. Qed.

(** ** GraphBuilder: what depends on the order of the display list *)

Lemma fold_left_member {S A : Type} (mem : S -> Prop) (f : A -> S -> S)
    (Q : A -> Prop) (l : list A) :
  (forall a, In a l -> forall s, mem (f a s) <-> mem s \/ Q a) ->
  forall s, mem (fold_left (fun s a => f a s) l s) <-> mem s \/ exists a, In a l /\ Q a.
Proof.
  induction l as [|a l IH]; intros H s; simpl.
  - split; [auto | intros [Hm|[a [[] _]]]; exact Hm].
  - rewrite IH by (intros b Hb; apply H; right; exact Hb).
    rewrite (H a (or_introl eq_refl)). split.
    + intros [[Hm|Hq]|[b [Hb Hq]]]; eauto.
    + intros [Hm|[b [[<-|Hb] Hq]]]; eauto.
Qed.

Lemma pushNode_ids (n : Node.t) (st : Build) (i : string) :
  In i (nodeIds (nodesArray (pushNode n st)))
  <-> In i (nodeIds (nodesArray st)) \/ i = Node.id n.
Proof.
  unfold pushNode. destruct (someNodeId (nodesArray st) (Node.id n)) eqn:H.
  - apply someNodeId_true in H. split; [auto | intros [Hi| ->]; assumption].
  - simpl. unfold nodeIds. rewrite map_app, in_app_iff. simpl. split.
    + intros [Hi|[<-|[]]]; auto.
    + intros [Hi| ->]; auto.
Qed.

Lemma pushEdge_nodes (e : Edge.t) (st : Build) :
  nodesArray (pushEdge e st) = nodesArray st.
Proof. unfold pushEdge. destruct (someEdgeId _ _); reflexivity. Qed.

Lemma startsWith_append (p rest : string) : startsWith (p ++ rest) p = true.
Proof.
  unfold startsWith. induction p as [|a p IH]; simpl.
  - destruct rest; reflexivity.
  - destruct (ascii_dec a a) as [_|Hne]; [exact IH | congruence].
Qed.

Lemma synthetic_logic (orig : string) (type : ReqType) (op : string) (n : nat) :
  isSyntheticId (logicNodeId orig type op n) = true.
Proof.
  unfold isSyntheticId, logicNodeId. rewrite startsWith_append. reflexivity.
Qed.

Lemma synthetic_or (orig : string) (type : ReqType) (n : nat) :
  isSyntheticId (orNodeId orig type n) = true.
Proof.
  unfold isSyntheticId, orNodeId. rewrite startsWith_append. reflexivity.
Qed.

Lemma synthetic_textual (orig : string) (type : ReqType) (n : nat) :
  isSyntheticId (textualNodeId orig type n) = true.
Proof.
  unfold isSyntheticId, textualNodeId. rewrite (startsWith_append "textual_").
  rewrite orb_true_r. reflexivity.
Qed.

Lemma synthetic_n_of_list (orig : string) (type : ReqType) (count n : nat) :
  isSyntheticId (nOfListNodeId orig type count n) = true.
Proof.
  unfold isSyntheticId, nOfListNodeId. rewrite (startsWith_append "n_of_list_").
  apply orb_true_r.
Qed.

(** Pushing a junction, then its edge, adds no course id. *)
Lemma junction_adds_no_course_id (n : Node.t) (e : Edge.t) (st : Build) (i : string) :
  isSyntheticId (Node.id n) = true -> isSyntheticId i = false ->
  In i (nodeIds (nodesArray (pushEdge e (pushNode n st))))
  <-> In i (nodeIds (nodesArray st)).
Proof.
  intros Hn Hi. rewrite pushEdge_nodes, pushNode_ids. split; [|auto].
  intros [H| ->]; [exact H | congruence].
Qed.

Section OrderFacts.

Variable coursesData : list Course.

Lemma addRequirement_course_ids (req : Requirement) :
  forall target type orig st i,
    isSyntheticId i = false ->
    In i (nodeIds (nodesArray
            (addRequirementGraphElements coursesData req target type orig st)))
    <-> In i (nodeIds (nodesArray st))
        \/ (Mentions req i /\ inCatalog coursesData i = true).
Proof.
  induction req as [c|op conds IH|t|n conds IH] using Requirement_tree_ind;
    intros target type orig st i Hi; simpl.
  - destruct (findCourse coursesData c) as [courseData|] eqn:Hf.
    + rewrite pushEdge_nodes, pushNode_ids. simpl. split.
      * intros [H| ->]; [auto|]. right. split; [constructor|].
        apply (findCourse_inCatalog _ _ _ Hf).
      * intros [H|[H _]]; [auto|]. inversion H. auto.
    + split; [auto|]. intros [H|[H Hc]]; [exact H|].
      inversion H; subst. unfold inCatalog in Hc. rewrite Hf in Hc. discriminate.
  - rewrite Forall_forall in IH.
    rewrite (fold_left_member (fun s => In i (nodeIds (nodesArray s)))
               (fun r s => addRequirementGraphElements coursesData r _ type orig s)
               (fun r => Mentions r i /\ inCatalog coursesData i = true) conds)
      by (intros r Hr s; apply IH; assumption).
    rewrite junction_adds_no_course_id; [|apply synthetic_logic|exact Hi].
    simpl. split.
    + intros [H|[r [Hr [Hm Hc]]]]; [auto|]. right. split; [|exact Hc].
      econstructor; eassumption.
    + intros [H|[Hm Hc]]; [auto|]. inversion Hm; subst. right. eauto.
  - rewrite junction_adds_no_course_id; [|apply synthetic_textual|exact Hi].
    simpl. split; [auto|]. intros [H|[Hm _]]; [exact H | inversion Hm].
  - rewrite Forall_forall in IH. destruct (n =? 1).
    + rewrite (fold_left_member (fun s => In i (nodeIds (nodesArray s)))
                 (fun r s => addRequirementGraphElements coursesData r _ type orig s)
                 (fun r => Mentions r i /\ inCatalog coursesData i = true) conds)
        by (intros r Hr s; apply IH; assumption).
      rewrite junction_adds_no_course_id; [|apply synthetic_or|exact Hi].
      simpl. split.
      * intros [H|[r [Hr [Hm Hc]]]]; [auto|]. right. split; [|exact Hc].
        econstructor; eassumption.
      * intros [H|[Hm Hc]]; [auto|]. inversion Hm; subst. right. eauto.
    + rewrite (fold_left_member (fun s => In i (nodeIds (nodesArray s)))
                 (fun r s => addRequirementGraphElements coursesData r _ type orig s)
                 (fun r => Mentions r i /\ inCatalog coursesData i = true) conds)
        by (intros r Hr s; apply IH; assumption).
      rewrite junction_adds_no_course_id; [|apply synthetic_n_of_list|exact Hi].
      simpl. split.
      * intros [H|[r [Hr [Hm Hc]]]]; [auto|]. right. split; [|exact Hc].
        econstructor; eassumption.
      * intros [H|[Hm Hc]]; [auto|]. inversion Hm; subst. right. eauto.
Qed.

Lemma addRequirements_course_ids (reqs : list Requirement) (courseCode : string)
    (type : ReqType) (st : Build) (i : string) :
  isSyntheticId i = false ->
  In i (nodeIds (nodesArray (addRequirements coursesData reqs courseCode type st)))
  <-> In i (nodeIds (nodesArray st))
      \/ exists r, In r reqs /\ Mentions r i /\ inCatalog coursesData i = true.
Proof.
  intros Hi. unfold addRequirements.
  apply (fold_left_member (fun s => In i (nodeIds (nodesArray s)))
           (fun r s => addRequirementGraphElements coursesData r courseCode type courseCode s)
           (fun r => Mentions r i /\ inCatalog coursesData i = true) reqs).
  intros r _ s. apply addRequirement_course_ids, Hi.
Qed.

Lemma addDisplayedCourse_course_ids (d : string) (st : Build) (i : string) :
  isSyntheticId i = false ->
  In i (nodeIds (nodesArray (addDisplayedCourse coursesData st d)))
  <-> In i (nodeIds (nodesArray st)) \/ Shows coursesData d i.
Proof.
  intros Hi. unfold addDisplayedCourse, Shows.
  destruct (findCourse coursesData d) as [course|].
  - rewrite !addRequirements_course_ids by exact Hi. simpl.
    unfold nodeIds at 1. rewrite map_app, in_app_iff. simpl. split.
    + intros [[[H|[<-|[]]]|[r [Hr Hm]]]|[r [Hr Hm]]]; [auto| | |];
        right; exists course; (split; [reflexivity|]); [auto| |];
        right; exists r; rewrite in_app_iff; auto.
    + intros [H|[course' [Heq Hrest]]]; [auto|].
      inversion Heq; subst course'.
      destruct Hrest as [->|[r [Hr Hm]]]; [auto|].
      apply in_app_iff in Hr. destruct Hr as [Hr|Hr]; eauto 6.
  - split; [auto|]. intros [H|[course [Heq _]]]; [exact H | discriminate].
Qed.

(** The course ids of a build: those shown by some displayed code. *)
Lemma generate_course_ids (courseCodesToDisplay : list string) (i : string) :
  isSyntheticId i = false ->
  In i (nodeIds (nodesArray (generateGraphElements coursesData courseCodesToDisplay)))
  <-> exists d, In d courseCodesToDisplay /\ Shows coursesData d i.
Proof.
  intros Hi. unfold generateGraphElements.
  rewrite (fold_left_member (fun s => In i (nodeIds (nodesArray s)))
             (fun d s => addDisplayedCourse coursesData s d)
             (fun d => Shows coursesData d i) (JSSet.ofArray courseCodesToDisplay))
    by (intros d _ s; apply addDisplayedCourse_course_ids, Hi).
  simpl. split.
  - intros [[]|[d [Hd Hs]]]. exists d. split; [apply in_ofArray, Hd | exact Hs].
  - intros [d [Hd Hs]]. right. exists d. split; [apply in_ofArray, Hd | exact Hs].
Qed.

End OrderFacts.

(** A resolving COURSE requirement at the top of a displayed course's
    list leaves the edge [c_d_type], wherever the course stands in the
    display list. *)
Lemma generate_direct_edge (coursesData : list Course) (courseCodesToDisplay : list string)
    (d : string) (course : Course) (c : string) (type : ReqType) :
  In d courseCodesToDisplay ->
  findCourse coursesData d = Some course ->
  In (COURSE c) (requirementsOf course type) ->
  inCatalog coursesData c = true ->
  In (c ++ "_" ++ code course ++ "_" ++ typeStr type)%string
     (edgeIds (edgesArray (generateGraphElements coursesData courseCodesToDisplay))).
Proof.
  intros Hd Hf Hc Hcat. unfold generateGraphElements.
  apply in_ofArray in Hd. apply in_split in Hd. destruct Hd as [l1 [l2 ->]].
  rewrite fold_left_app. simpl.
  apply (keeps_edgeId_in _ _ _ (generate_keeps coursesData l2 _)).
  unfold addDisplayedCourse. rewrite Hf.
  set (st1 := mkBuild _ _ _).
  destruct type; simpl in Hc.
  - apply (keeps_edgeId_in _ _ _ (addRequirements_keeps coursesData _ _ _ _)).
    destruct (conditions_reach coursesData (prerequisites_parsed course) (code course)
                prereq (code course) (COURSE c) st1 Hc) as [s0 [_ Hk]].
    apply (keeps_edgeId_in _ _ _ Hk). apply course_condition_edge, Hcat.
  - destruct (conditions_reach coursesData (corequisites_parsed course) (code course)
                coreq (code course) (COURSE c)
                (addRequirements coursesData (prerequisites_parsed course) (code course)
                   prereq st1) Hc) as [s0 [_ Hk]].
    apply (keeps_edgeId_in _ _ _ Hk). apply course_condition_edge, Hcat.
Qed.

(** C4, the counterexample: the same two codes in the two orders.  The
    AND junction of COMP-251 is numbered 1 when COMP-251 comes first and 2
    when it comes second, so neither the node ids nor the edge ids of the
    two builds agree. *)
Lemma build_ids_depend_on_order :
  let l1 := ["COMP-251"; "COMP-250"] in
  let l2 := ["COMP-250"; "COMP-251"] in
  let delivered l := uniqueNodesById (nodesArray (generateGraphElements demoCatalog l)) in
  let edges l := edgesArray (generateGraphElements demoCatalog l) in
  (forall c, In c l1 <-> In c l2) /\
  In "logic_COMP-251_prereq_AND_1" (nodeIds (delivered l1)) /\
  ~ In "logic_COMP-251_prereq_AND_1" (nodeIds (delivered l2)) /\
  In "logic_COMP-251_prereq_AND_1_COMP-251_prereq" (edgeIds (edges l1)) /\
  ~ In "logic_COMP-251_prereq_AND_1_COMP-251_prereq" (edgeIds (edges l2)).
Proof.
  split; [intros c; simpl; tauto|].
  vm_compute. repeat split; try tauto; intros H;
    repeat (destruct H as [H|H]; [discriminate H|]); exact H.
Qed.

(** C4, as the code has it.  A build is a function of the display list
    with repeated codes removed, in first-occurrence order: two lists
    that agree on it give the same build.  For two lists with the same
    codes in any order, the builds deliver the same ids outside the
    synthetic ones (the course nodes), and both hold the edge of every
    resolving COURSE requirement that stands at the top of a displayed
    course's list.  Junction and textual ids carry the counters of the
    pass and are left out. *)
Theorem build_course_ids_ignore_order (coursesData : list Course) (l1 l2 : list string) :
  (forall c, In c l1 <-> In c l2) ->
  let b1 := generateGraphElements coursesData l1 in
  let b2 := generateGraphElements coursesData l2 in
  (JSSet.ofArray l1 = JSSet.ofArray l2 -> b1 = b2) /\
  (forall i, isSyntheticId i = false ->
     (In i (nodeIds (uniqueNodesById (nodesArray b1)))
      <-> In i (nodeIds (uniqueNodesById (nodesArray b2))))) /\
  (forall d course c type,
     In d l1 -> findCourse coursesData d = Some course ->
     In (COURSE c) (requirementsOf course type) -> inCatalog coursesData c = true ->
     In (c ++ "_" ++ code course ++ "_" ++ typeStr type)%string (edgeIds (edgesArray b1))
     /\ In (c ++ "_" ++ code course ++ "_" ++ typeStr type)%string (edgeIds (edgesArray b2))).
Proof.
  intros Hsame b1 b2. split; [|split].
  - intros Heq. unfold b1, b2, generateGraphElements. rewrite Heq. reflexivity.
  - intros i Hi. unfold uniqueNodesById.
    rewrite (keepFirst_ids (nodesArray b1) i []), (keepFirst_ids (nodesArray b2) i []).
    unfold b1, b2. rewrite !generate_course_ids by exact Hi. simpl.
    split; (intros [[]|[d [Hd Hs]]]; right; exists d; split; [apply Hsame, Hd | exact Hs]).
  - intros d course c type Hd Hf Hc Hcat. split.
    + apply (generate_direct_edge coursesData l1 d course c type); assumption.
    + apply (generate_direct_edge coursesData l2 d course c type); try assumption.
      apply Hsame, Hd.
Qed.

(** The theorem at work on the demo catalogue: COMP-202 has the COURSE
    requirement MATH-133 at the top of its list. *)
Lemma build_course_ids_ignore_order_witness :
  let l1 := ["COMP-251"; "COMP-202"] in
  let l2 := ["COMP-202"; "COMP-251"; "COMP-202"] in
  let b1 := generateGraphElements demoCatalog l1 in
  let b2 := generateGraphElements demoCatalog l2 in
  (forall c, In c l1 <-> In c l2) /\
  (JSSet.ofArray l1 = JSSet.ofArray l2 -> b1 = b2) /\
  (forall i, isSyntheticId i = false ->
     (In i (nodeIds (uniqueNodesById (nodesArray b1)))
      <-> In i (nodeIds (uniqueNodesById (nodesArray b2))))) /\
  (forall d course c type,
     In d l1 -> findCourse demoCatalog d = Some course ->
     In (COURSE c) (requirementsOf course type) -> inCatalog demoCatalog c = true ->
     In (c ++ "_" ++ code course ++ "_" ++ typeStr type)%string (edgeIds (edgesArray b1))
     /\ In (c ++ "_" ++ code course ++ "_" ++ typeStr type)%string (edgeIds (edgesArray b2))).
Proof.
  intros l1 l2 b1 b2.
  assert (Hsame : forall c, In c l1 <-> In c l2) by (intros c; simpl; tauto).
  split; [exact Hsame|].
  exact (build_course_ids_ignore_order demoCatalog l1 l2 Hsame).
Defined.


(** ** Worked instances on the demo catalogue *)

(** ECSE-200 and ECSE-222 are in the catalog, but ECSE-324 names them
    only inside N_OF_LIST nodes: the closure of ECSE-324 is itself. *)
Example closure_of_n_of_list_course :
  getRelevantCoursesForProgram demoCatalog ["ECSE-324"] = Some ["ECSE-324"]
  /\ inCatalog demoCatalog "ECSE-200" = true.
Proof. vm_compute. split; reflexivity. Qed.

(** The unknown seed is dropped; the queue holds the known seed and what
    the traversal found, and was read to its end. *)
Example closure_of_software :
  option_map (fun st => (queue st, head st, relevantCodes st))
    (runClosure demoCatalog ["COMP-251"; "FAKE-999"])
  = Some (["COMP-251"; "COMP-250"; "MATH-240"; "COMP-202"; "MATH-133"], 5,
          ["COMP-251"; "COMP-250"; "MATH-240"; "COMP-202"; "MATH-133"]).
Proof. vm_compute. reflexivity. Qed.

(** The two N_OF_LIST requirements of ECSE-324: an OR junction for
    count 1, a "2 of:" junction for count 2; the unknown FAKE-999 gets
    neither node nor edge. *)
Example build_of_n_of_list_course :
  let b := generateGraphElements demoCatalog ["ECSE-324"] in
  map (fun n => (Node.id n, Node.label n, Node.group n)) (nodesArray b)
  = [("ECSE-324", "ECSE-324", "ECSE");
     ("logic_ECSE-324_prereq_OR_N_OF_1_1", "OR", "OrNode");
     ("ECSE-200", "ECSE-200", "ECSE");
     ("ECSE-222", "ECSE-222", "ECSE");
     ("n_of_list_ECSE-324_coreq_2_1", "2 of:", "NOfListNode")]
  /\ edgeIds (edgesArray b)
     = ["logic_ECSE-324_prereq_OR_N_OF_1_1_ECSE-324_prereq";
        "ECSE-200_logic_ECSE-324_prereq_OR_N_OF_1_1_prereq";
        "ECSE-222_logic_ECSE-324_prereq_OR_N_OF_1_1_prereq";
        "n_of_list_ECSE-324_coreq_2_1_ECSE-324_coreq";
        "ECSE-200_n_of_list_ECSE-324_coreq_2_1_coreq";
        "ECSE-222_n_of_list_ECSE-324_coreq_2_1_coreq"].
Proof. vm_compute. split; reflexivity. Qed.

(** COMP-250 is assembled twice, first as a requirement of COMP-251 and
    then as a displayed course; the node delivered is the first one. *)
Example first_node_of_an_id_is_delivered :
  let assembled := nodesArray (generateGraphElements demoCatalog ["COMP-251"; "COMP-250"]) in
  map Node.title (filter (fun n => String.eqb (Node.id n) "COMP-250") assembled)
  = ["COMP-250 title"; "COMP-250: COMP-250 title"]
  /\ map Node.title
       (filter (fun n => String.eqb (Node.id n) "COMP-250") (uniqueNodesById assembled))
     = ["COMP-250 title"].
Proof. vm_compute. split; reflexivity. Qed.

(** * Further properties *)

(** ** ClosureResolver: the result is the reachable set *)

Lemma fold_left_reach {S A : Type} (R : S -> S -> Prop) (f : A -> S -> S) :
  (forall s, R s s) ->
  (forall a b c, R a b -> R b c -> R a c) ->
  (forall a s, R s (f a s)) ->
  forall l a s, In a l ->
    exists s0, R s s0 /\ R (f a s0) (fold_left (fun s a => f a s) l s).
Proof.
  intros Hrefl Htrans Hstep l a s Hin.
  apply in_split in Hin. destruct Hin as [l1 [l2 ->]].
  exists (fold_left (fun s a => f a s) l1 s).
  rewrite fold_left_app. simpl.
  split; apply (fold_left_preorder R f Hrefl Htrans);
    apply Forall_forall; intros x _; apply Hstep.
Qed.

Section ClosureExact.

Variable coursesData : list Course.

Lemma scans_refl (st : Closure) : scans st st.
Proof.
  split; [reflexivity|]. split; [exists []; symmetry; apply app_nil_r|].
  split; [intros c Hc; exact Hc | auto].
Qed.

Lemma scans_trans (a b c : Closure) : scans a b -> scans b c -> scans a c.
Proof.
  intros [H1 [[q1 Hq1] [Hg1 Hi1]]] [H2 [[q2 Hq2] [Hg2 Hi2]]].
  split; [congruence|].
  split; [exists (q1 ++ q2); rewrite Hq2, Hq1, app_assoc; reflexivity|].
  split; [intros x Hx; apply Hg2, Hg1, Hx | auto].
Qed.

Lemma addDependency_scans (req : Requirement) :
  forall st, scans st (addDependency coursesData req st).
Proof.
  induction req as [c|op conds IH|t|n conds _] using Requirement_tree_ind;
    intros st; simpl; try apply scans_refl.
  - destruct (inCatalog coursesData c && negb (JSSet.has (relevantCodes st) c));
      [|apply scans_refl].
    split; [reflexivity|]. split; [exists [c]; reflexivity|].
    split; [intros x Hx; simpl; apply in_add; auto|].
    simpl. intros Hin x Hx. apply in_add in Hx. apply in_app_iff.
    destruct Hx as [->|Hx]; [right; left; reflexivity | left; apply Hin, Hx].
  - apply (fold_left_preorder scans (addDependency coursesData)
             scans_refl scans_trans conds IH).
Qed.

Lemma addDependencies_scans (reqs : list Requirement) (st : Closure) :
  scans st (addDependencies coursesData reqs st).
Proof.
  unfold addDependencies.
  apply (fold_left_preorder scans (addDependency coursesData) scans_refl scans_trans).
  apply Forall_forall. intros r _. apply addDependency_scans.
Qed.

(** A scan leaves in the result set every catalog code the scanned
    requirement refers to. *)
Lemma addDependency_covers (req : Requirement) (x : string) :
  RefersTo req x -> inCatalog coursesData x = true ->
  forall st, In x (relevantCodes (addDependency coursesData req st)).
Proof.
  intros Href Hx. induction Href as [c|op conds r c Hin Href IH]; intros st; simpl.
  - rewrite Hx. simpl. destruct (JSSet.has (relevantCodes st) c) eqn:Hhas; simpl.
    + apply has_true_iff, Hhas.
    + apply in_add. auto.
  - destruct (fold_left_reach grows (addDependency coursesData)
                (fun s y Hy => Hy)
                (fun a b d Hab Hbd y Hy => Hbd y (Hab y Hy))
                (fun a s => addDependency_grows coursesData a s)
                conds r st Hin) as [s0 [_ Hg]].
    apply Hg, IH, Hx.
Qed.

Lemma addDependencies_covers (reqs : list Requirement) (r : Requirement) (x : string) :
  In r reqs -> RefersTo r x -> inCatalog coursesData x = true ->
  forall st, In x (relevantCodes (addDependencies coursesData reqs st)).
Proof.
  intros Hin Href Hx st. unfold addDependencies.
  destruct (fold_left_reach grows (addDependency coursesData)
              (fun s y Hy => Hy)
              (fun a b d Hab Hbd y Hy => Hbd y (Hab y Hy))
              (fun a s => addDependency_grows coursesData a s)
              reqs r st Hin) as [s0 [_ Hg]].
  apply Hg, addDependency_covers; assumption.
Qed.

Lemma initial_traversal (seeds : list string) :
  traversal coursesData seeds (initialClosure coursesData seeds).
Proof.
  unfold traversal, initialClosure. simpl.
  split; [lia|]. split.
  { intros c Hc. apply in_addAll in Hc. destruct Hc as [Hc|[]]. exact Hc. }
  split.
  { intros c Hin Hc. apply in_addAll. left. apply filter_In. auto. }
  split; [intros k c course r x Hk; simpl in Hk; lia|]. split.
  { apply (initialClosure_allCodes coursesData (Reachable coursesData seeds) seeds).
    apply reach_seed. }
  pose proof (filter_length_le (fun r => negb (JSSet.has
                 (JSSet.addAll (filter (inCatalog coursesData) seeds) JSSet.empty) (code r)))
                (fun _ => true) coursesData (fun _ _ _ => eq_refl)) as H1.
  pose proof (filter_length_le (inCatalog coursesData) (fun _ => true) seeds
                (fun _ _ _ => eq_refl)) as H2.
  unfold unseen.
  assert (Hall : forall (A : Type) (l : list A), filter (fun _ => true) l = l)
    by (intros A l; induction l; simpl; congruence).
  rewrite Hall in H1, H2. lia.
Qed.

Lemma visit_traversal (seeds : list string) (st : Closure) :
  traversal coursesData seeds st -> head st < length (queue st) ->
  traversal coursesData seeds (visit coursesData st).
Proof.
  intros [Hhead [Hq [Hseeds [Hscan [Hreach Hbound]]]]] Hlt.
  assert (Hvis : scans (mkClosure (queue st) (S (head st)) (relevantCodes st))
                   (visit coursesData st)).
  { unfold visit. destruct (nth_error (queue st) (head st)) as [cur|]; [|apply scans_refl].
    destruct (findCourse coursesData cur) as [course|]; [|apply scans_refl].
    eapply scans_trans; apply addDependencies_scans. }
  destruct Hvis as [Hh [[q Hqueue] [Hgrow Hin]]]. simpl in Hh, Hqueue, Hgrow, Hin.
  unfold grows in Hgrow. simpl in Hgrow.
  split; [rewrite Hh, Hqueue, length_app; lia|].
  split; [apply Hin, Hq|].
  split; [intros c Hc Hcat; apply Hgrow, Hseeds; assumption|].
  split.
  { intros k c course r x Hk Hnth Hf Hr Href Hx.
    rewrite Hh in Hk. rewrite Hqueue in Hnth.
    rewrite nth_error_app1 in Hnth by lia.
    destruct (Nat.eq_dec k (head st)) as [->|Hne].
    - unfold visit. rewrite Hnth, Hf.
      apply in_app_iff in Hr. destruct Hr as [Hr|Hr].
      + apply addDependencies_grows.
        apply (addDependencies_covers _ r x Hr Href Hx).
      + apply (addDependencies_covers _ r x Hr Href Hx).
    - apply Hgrow. apply (Hscan k c course r x); try assumption. lia. }
  split; [apply visit_reachable, Hreach|].
  assert (Hshr : shrinks coursesData
                   (mkClosure (queue st) (S (head st)) (relevantCodes st))
                   (visit coursesData st)).
  { unfold visit. destruct (nth_error (queue st) (head st)) as [cur|]; [|apply shrinks_refl].
    destruct (findCourse coursesData cur) as [course|]; [|apply shrinks_refl].
    eapply shrinks_trans; apply addDependencies_shrinks. }
  destruct Hshr as [_ [_ Hs]]. simpl in Hs. lia.
Qed.

Lemma runClosure_traversal (seeds : list string) :
  exists st, runClosure coursesData seeds = Some st
             /\ head st = length (queue st)
             /\ traversal coursesData seeds st.
Proof.
  destruct (runClosure_total coursesData seeds) as [st [Hrun Hexit]].
  assert (Ht : traversal coursesData seeds st).
  { unfold runClosure in Hrun.
    apply (bfs_invariant coursesData (traversal coursesData seeds)
             (visit_traversal seeds) _ _ _ (initial_traversal seeds) Hrun). }
  exists st. split; [exact Hrun|]. split; [|exact Ht].
  destruct Ht as [Hhead _]. lia.
Qed.

Lemma traversal_complete (seeds : list string) (st : Closure) :
  traversal coursesData seeds st -> head st = length (queue st) ->
  forall c, Reachable coursesData seeds c -> In c (relevantCodes st).
Proof.
  intros [_ [Hq [Hseeds [Hscan _]]]] Hexit c Hc.
  induction Hc as [c Hin Hcat|c' course r c _ IH Hf Hr Href Hcat].
  - apply Hseeds; assumption.
  - apply Hq in IH. apply In_nth_error in IH. destruct IH as [k Hk].
    apply (Hscan k c' course r c); try assumption.
    rewrite Hexit. apply nth_error_Some. congruence.
Qed.

Lemma Reachable_inCatalog (seeds : list string) (c : string) :
  Reachable coursesData seeds c -> inCatalog coursesData c = true.
Proof. intros H. destruct H; assumption. Qed.

Lemma Reachable_mono (s1 s2 : list string) :
  (forall c, In c s1 -> inCatalog coursesData c = true -> Reachable coursesData s2 c) ->
  forall c, Reachable coursesData s1 c -> Reachable coursesData s2 c.
Proof.
  intros Hsub c Hc. induction Hc as [c Hin Hcat|c' course r c _ IH Hf Hr Href Hcat].
  - apply Hsub; assumption.
  - apply (reach_step coursesData s2 c' course r c); assumption.
Qed.

(** The result of the traversal, as a set. *)
Lemma closure_members (seeds : list string) :
  exists result,
    getRelevantCoursesForProgram coursesData seeds = Some result /\
    forall c, In c result <-> Reachable coursesData seeds c.
Proof.
  destruct (runClosure_traversal seeds) as [st [Hrun [Hexit Ht]]].
  exists (relevantCodes st). split.
  { unfold getRelevantCoursesForProgram. rewrite Hrun. reflexivity. }
  intros c. split.
  - destruct Ht as [_ [_ [_ [_ [[_ Hr] _]]]]]. apply Hr.
  - apply traversal_complete; assumption.
Qed.

End ClosureExact.

(** X1. For every catalog and seed list the traversal returns exactly
    the reachable codes: a code is in the result if and only if it is a
    seed the catalog holds or a catalog code that the record of a code of
    the result names through COURSE and LOGICAL_OPERATOR nodes. *)
Theorem closure_is_the_reachable_set (coursesData : list Course)
    (programCourseCodes : list string) :
  exists result,
    getRelevantCoursesForProgram coursesData programCourseCodes = Some result /\
    forall c, In c result <-> Reachable coursesData programCourseCodes c.
Proof.
  destruct (runClosure_traversal coursesData programCourseCodes) as [st [Hrun [Hexit Ht]]].
  exists (relevantCodes st). split.
  { unfold getRelevantCoursesForProgram. rewrite Hrun. reflexivity. }
  intros c. split.
  - destruct Ht as [_ [_ [_ [_ [[_ Hr] _]]]]]. apply Hr.
  - apply (traversal_complete coursesData programCourseCodes st Ht Hexit).
Qed.

(** X2. The result grows with the seeds: when every seed of one list is a
    seed of another, every code of the first result is in the second.  So
    two seed lists with the same codes, in any order and with or without
    repetitions, give results with the same codes. *)
Theorem closure_grows_with_seeds (coursesData : list Course) (seeds1 seeds2 : list string) :
  (forall c, In c seeds1 -> In c seeds2) ->
  exists result1 result2,
    getRelevantCoursesForProgram coursesData seeds1 = Some result1 /\
    getRelevantCoursesForProgram coursesData seeds2 = Some result2 /\
    (forall c, In c result1 -> In c result2) /\
    ((forall c, In c seeds2 -> In c seeds1) -> forall c, In c result2 -> In c result1).
Proof.
  intros Hsub.
  destruct (closure_members coursesData seeds1) as [r1 [H1 M1]].
  destruct (closure_members coursesData seeds2) as [r2 [H2 M2]].
  exists r1, r2. split; [exact H1|]. split; [exact H2|]. split.
  - intros c Hc. apply M2. apply M1 in Hc. revert c Hc.
    apply Reachable_mono. intros c Hin Hcat. apply reach_seed; auto.
  - intros Hsup c Hc. apply M1. apply M2 in Hc. revert c Hc.
    apply Reachable_mono. intros c Hin Hcat. apply reach_seed; auto.
Qed.

(** The theorem at work: the seeds of "Software", then the same with a
    second known seed. *)
Lemma closure_grows_with_seeds_witness :
  let seeds1 := ["COMP-251"; "FAKE-999"] in
  let seeds2 := ["ECSE-324"; "FAKE-999"; "COMP-251"; "COMP-251"] in
  (forall c, In c seeds1 -> In c seeds2) /\
  exists result1 result2,
    getRelevantCoursesForProgram demoCatalog seeds1 = Some result1 /\
    getRelevantCoursesForProgram demoCatalog seeds2 = Some result2 /\
    (forall c, In c result1 -> In c result2) /\
    ((forall c, In c seeds2 -> In c seeds1) -> forall c, In c result2 -> In c result1).
Proof.
  intros seeds1 seeds2.
  assert (Hsub : forall c, In c seeds1 -> In c seeds2) by (intros c; simpl; tauto).
  split; [exact Hsub|].
  exact (closure_grows_with_seeds demoCatalog seeds1 seeds2 Hsub).
Defined.

(** X3. Closing a closure adds nothing: the traversal started from its
    own result returns the same codes. *)
Theorem closure_is_idempotent (coursesData : list Course) (programCourseCodes : list string) :
  exists result again,
    getRelevantCoursesForProgram coursesData programCourseCodes = Some result /\
    getRelevantCoursesForProgram coursesData result = Some again /\
    forall c, In c again <-> In c result.
Proof.
  destruct (closure_members coursesData programCourseCodes) as [r [H1 M1]].
  destruct (closure_members coursesData r) as [r' [H2 M2]].
  exists r, r'. split; [exact H1|]. split; [exact H2|].
  intros c. rewrite M2. split.
  - intros Hc. apply M1. revert c Hc. apply Reachable_mono.
    intros c Hin _. apply M1, Hin.
  - intros Hc. apply reach_seed; [exact Hc|].
    apply M1 in Hc. apply (Reachable_inCatalog coursesData _ _ Hc).
Qed.

Lemma addDependency_NoDup (coursesData : list Course) (req : Requirement) :
  forall st, NoDup (relevantCodes st) ->
             NoDup (relevantCodes (addDependency coursesData req st)).
Proof.
  induction req as [c|op conds IH|t|n conds _] using Requirement_tree_ind;
    intros st Hst; simpl; try exact Hst.
  - destruct (inCatalog coursesData c && negb (JSSet.has (relevantCodes st) c));
      [apply NoDup_add|]; exact Hst.
  - revert st Hst.
    apply (fold_left_preorder
             (fun s s' => NoDup (relevantCodes s) -> NoDup (relevantCodes s'))
             (addDependency coursesData)); [auto | auto | exact IH].
Qed.

Lemma visit_NoDup (coursesData : list Course) (st : Closure) :
  NoDup (relevantCodes st) -> NoDup (relevantCodes (visit coursesData st)).
Proof.
  intros Hst. unfold visit.
  destruct (nth_error (queue st) (head st)) as [cur|]; [|exact Hst].
  destruct (findCourse coursesData cur) as [course|]; [|exact Hst].
  unfold addDependencies.
  assert (Hfold : forall reqs s, NoDup (relevantCodes s) ->
            NoDup (relevantCodes
                     (fold_left (fun s r => addDependency coursesData r s) reqs s))).
  { intros reqs.
    apply (fold_left_preorder
             (fun s s' => NoDup (relevantCodes s) -> NoDup (relevantCodes s'))
             (addDependency coursesData)); [auto | auto |].
    apply Forall_forall. intros r _. apply addDependency_NoDup. }
  apply Hfold, Hfold. exact Hst.
Qed.

(** X4. The loop reads the whole queue and stops; it makes at most one
    visit per seed and per catalog record.  The result holds no code
    twice and has at most as many codes as the catalog has records. *)
Theorem closure_is_bounded (coursesData : list Course) (programCourseCodes : list string) :
  exists st,
    runClosure coursesData programCourseCodes = Some st /\
    head st = length (queue st) /\
    length (queue st) <= length coursesData + length programCourseCodes /\
    NoDup (relevantCodes st) /\
    length (relevantCodes st) <= length coursesData.
Proof.
  destruct (runClosure_traversal coursesData programCourseCodes) as [st [Hrun [Hexit Ht]]].
  exists st. split; [exact Hrun|]. split; [exact Hexit|].
  assert (Hnd : NoDup (relevantCodes st)).
  { unfold runClosure in Hrun.
    assert (H0 : NoDup (relevantCodes (initialClosure coursesData programCourseCodes)))
      by (apply NoDup_addAll; constructor).
    apply (bfs_invariant coursesData (fun s => NoDup (relevantCodes s))
             (fun s Hs _ => visit_NoDup coursesData s Hs) _ _ _ H0 Hrun). }
  destruct Ht as [_ [_ [_ [_ [[_ Hreach] Hbound]]]]].
  split; [lia|]. split; [exact Hnd|].
  rewrite <- (length_map code coursesData).
  apply NoDup_incl_length; [exact Hnd|].
  intros c Hc. apply Hreach in Hc.
  apply (Reachable_inCatalog coursesData) in Hc.
  apply inCatalog_true in Hc. destruct Hc as [r [Hin <-]].
  apply in_map. exact Hin.
Qed.

(** ** GraphBuilder: edges, course nodes, unknown codes *)

Lemma edgesJoinNodes_pushNode (n : Node.t) (st : Build) :
  edgesJoinNodes st -> edgesJoinNodes (pushNode n st).
Proof.
  intros H e He.
  assert (He' : In e (edgesArray st))
    by (unfold pushNode in He; destruct (someNodeId _ _); exact He).
  destruct (H e He') as [Hf Ht].
  split; apply (keeps_nodeId_in _ _ _ (keeps_pushNode n st)); assumption.
Qed.

Lemma edgesJoinNodes_pushEdge (e : Edge.t) (st : Build) :
  In (Edge.from e) (nodeIds (nodesArray st)) ->
  In (Edge.to e) (nodeIds (nodesArray st)) ->
  edgesJoinNodes st -> edgesJoinNodes (pushEdge e st).
Proof.
  intros Hf Ht H x Hx. rewrite pushEdge_nodes.
  unfold pushEdge in Hx. destruct (someEdgeId _ _); [apply H, Hx|].
  simpl in Hx. apply in_app_iff in Hx. destruct Hx as [Hx|[<-|[]]]; [apply H, Hx | auto].
Qed.

(** A node and the edge that leaves it for a node already there. *)
Lemma edgesJoinNodes_push (n : Node.t) (e : Edge.t) (st : Build) :
  Edge.from e = Node.id n ->
  In (Edge.to e) (nodeIds (nodesArray st)) ->
  edgesJoinNodes st ->
  edgesJoinNodes (pushEdge e (pushNode n st))
  /\ In (Node.id n) (nodeIds (nodesArray (pushEdge e (pushNode n st)))).
Proof.
  intros Hfrom Hto H. split.
  - apply edgesJoinNodes_pushEdge.
    + rewrite Hfrom. apply pushNode_id_in.
    + apply (keeps_nodeId_in _ _ _ (keeps_pushNode n st)), Hto.
    + apply edgesJoinNodes_pushNode, H.
  - rewrite pushEdge_nodes. apply pushNode_id_in.
Qed.

Section BuilderMore.

Variable coursesData : list Course.

Lemma conditions_join (conds : list Requirement) (i : string) (type : ReqType)
    (orig : string) :
  Forall (fun r => forall target ty o st,
            In target (nodeIds (nodesArray st)) -> edgesJoinNodes st ->
            edgesJoinNodes (addRequirementGraphElements coursesData r target ty o st))
    conds ->
  forall st, In i (nodeIds (nodesArray st)) -> edgesJoinNodes st ->
    edgesJoinNodes
      (fold_left (fun s c => addRequirementGraphElements coursesData c i type orig s)
         conds st).
Proof.
  intros IH.
  assert (Hfold : forall st,
            (In i (nodeIds (nodesArray st)) /\ edgesJoinNodes st) ->
            (In i (nodeIds (nodesArray
                (fold_left (fun s c => addRequirementGraphElements coursesData c i type orig s)
                   conds st)))
             /\ edgesJoinNodes
                  (fold_left
                     (fun s c => addRequirementGraphElements coursesData c i type orig s)
                     conds st))).
  { apply (fold_left_preorder
             (fun s s' => (In i (nodeIds (nodesArray s)) /\ edgesJoinNodes s) ->
                          (In i (nodeIds (nodesArray s')) /\ edgesJoinNodes s'))
             (fun c s => addRequirementGraphElements coursesData c i type orig s));
      [auto | auto |].
    apply (Forall_impl _ (P := fun r => forall target ty o st,
             In target (nodeIds (nodesArray st)) -> edgesJoinNodes st ->
             edgesJoinNodes (addRequirementGraphElements coursesData r target ty o st)));
      [|exact IH].
    intros r Hr s [Hi Hs]. split.
    - apply (keeps_nodeId_in _ _ _ (addRequirement_keeps coursesData r i type orig s)), Hi.
    - apply Hr; assumption. }
  intros st Hi Hst. apply Hfold. auto.
Qed.

Lemma addRequirement_joins (req : Requirement) :
  forall target type orig st,
    In target (nodeIds (nodesArray st)) -> edgesJoinNodes st ->
    edgesJoinNodes (addRequirementGraphElements coursesData req target type orig st).
Proof.
  induction req as [c|op conds IH|t|n conds IH] using Requirement_tree_ind;
    intros target type orig st Htarget Hst; simpl.
  - destruct (findCourse coursesData c); [|exact Hst].
    apply edgesJoinNodes_push; auto.
  - match goal with |- context [pushEdge ?e (pushNode ?n ?s)] =>
      destruct (edgesJoinNodes_push n e s eq_refl Htarget Hst) as [Hj Hi] end.
    apply conditions_join; assumption.
  - apply edgesJoinNodes_push; auto.
  - destruct (n =? 1);
      match goal with |- context [pushEdge ?e (pushNode ?n ?s)] =>
        destruct (edgesJoinNodes_push n e s eq_refl Htarget Hst) as [Hj Hi] end;
      apply conditions_join; assumption.
Qed.

Lemma addDisplayedCourse_joins (st : Build) (d : string) :
  edgesJoinNodes st -> edgesJoinNodes (addDisplayedCourse coursesData st d).
Proof.
  intros Hst. unfold addDisplayedCourse.
  destruct (findCourse coursesData d) as [course|]; [|exact Hst].
  set (st1 := mkBuild _ _ _).
  assert (H1 : In (code course) (nodeIds (nodesArray st1)) /\ edgesJoinNodes st1).
  { unfold st1. split.
    - simpl. unfold nodeIds. rewrite map_app. apply in_app_iff. right. left. reflexivity.
    - intros e He. simpl in He. destruct (Hst e He).
      simpl. unfold nodeIds in *. rewrite map_app.
      split; apply in_app_iff; left; assumption. }
  destruct H1 as [Hi H1].
  unfold addRequirements.
  apply conditions_join.
  - apply Forall_forall. intros r _. apply addRequirement_joins.
  - apply (keeps_nodeId_in _ _ _
             (addRequirements_keeps coursesData _ (code course) prereq st1)), Hi.
  - apply conditions_join; [|exact Hi|exact H1].
    apply Forall_forall. intros r _. apply addRequirement_joins.
Qed.

Lemma generate_joins (courseCodesToDisplay : list string) :
  edgesJoinNodes (generateGraphElements coursesData courseCodesToDisplay).
Proof.
  unfold generateGraphElements.
  assert (H : forall l st, edgesJoinNodes st ->
            edgesJoinNodes (fold_left (addDisplayedCourse coursesData) l st)).
  { intros l.
    apply (fold_left_preorder (fun s s' => edgesJoinNodes s -> edgesJoinNodes s')
             (fun d s => addDisplayedCourse coursesData s d)); [auto | auto |].
    apply Forall_forall. intros d _ s. apply addDisplayedCourse_joins. }
  apply H. intros e [].
Qed.

Lemma carry_pushNode (n : Node.t) (st : Build) :
  (isSyntheticId (Node.id n) = false ->
   Node.label n = Node.id n /\ Node.group n = extractGroup (Node.id n)) ->
  courseNodesCarryCategory st -> courseNodesCarryCategory (pushNode n st).
Proof.
  intros Hn Hst m Hm. unfold pushNode in Hm.
  destruct (someNodeId _ _); [apply Hst, Hm|].
  simpl in Hm. apply in_app_iff in Hm. destruct Hm as [Hm|[<-|[]]]; [apply Hst, Hm | exact Hn].
Qed.

Lemma carry_pushEdge (e : Edge.t) (st : Build) :
  courseNodesCarryCategory st -> courseNodesCarryCategory (pushEdge e st).
Proof. intros Hst m Hm. rewrite pushEdge_nodes in Hm. apply Hst, Hm. Qed.

Lemma addRequirement_carries (req : Requirement) :
  forall target type orig st,
    courseNodesCarryCategory st ->
    courseNodesCarryCategory
      (addRequirementGraphElements coursesData req target type orig st).
Proof.
  assert (Hsyn : forall (n : Node.t), isSyntheticId (Node.id n) = true ->
            isSyntheticId (Node.id n) = false ->
            Node.label n = Node.id n /\ Node.group n = extractGroup (Node.id n))
    by (intros n H1 H2; congruence).
  assert (Hfold : forall conds i type orig,
    Forall (fun r => forall target ty o st, courseNodesCarryCategory st ->
              courseNodesCarryCategory
                (addRequirementGraphElements coursesData r target ty o st)) conds ->
    forall st, courseNodesCarryCategory st ->
      courseNodesCarryCategory
        (fold_left (fun s c => addRequirementGraphElements coursesData c i type orig s)
           conds st)).
  { intros conds i type orig IH.
    apply (fold_left_preorder
             (fun s s' => courseNodesCarryCategory s -> courseNodesCarryCategory s')
             (fun c s => addRequirementGraphElements coursesData c i type orig s));
      [auto | auto |].
    apply (Forall_impl _ (fun r H => H i type orig) IH). }
  induction req as [c|op conds IH|t|n conds IH] using Requirement_tree_ind;
    intros target type orig st Hst; simpl.
  - destruct (findCourse coursesData c); [|exact Hst].
    apply carry_pushEdge, carry_pushNode; [|exact Hst]. intros _. split; reflexivity.
  - apply Hfold; [exact IH|].
    apply carry_pushEdge, carry_pushNode; [|exact Hst]. apply Hsyn, synthetic_logic.
  - apply carry_pushEdge, carry_pushNode; [|exact Hst]. apply Hsyn, synthetic_textual.
  - destruct (n =? 1); (apply Hfold; [exact IH|]);
      apply carry_pushEdge, carry_pushNode; try exact Hst; apply Hsyn;
      [apply synthetic_or | apply synthetic_n_of_list].
Qed.

Lemma generate_carries (courseCodesToDisplay : list string) :
  courseNodesCarryCategory (generateGraphElements coursesData courseCodesToDisplay).
Proof.
  unfold generateGraphElements.
  assert (Hreqs : forall reqs c type st, courseNodesCarryCategory st ->
            courseNodesCarryCategory (addRequirements coursesData reqs c type st)).
  { intros reqs c type. unfold addRequirements.
    apply (fold_left_preorder
             (fun s s' => courseNodesCarryCategory s -> courseNodesCarryCategory s')
             (fun r s => addRequirementGraphElements coursesData r c type c s));
      [auto | auto |].
    apply Forall_forall. intros r _ s. apply addRequirement_carries. }
  assert (H : forall l st, courseNodesCarryCategory st ->
            courseNodesCarryCategory (fold_left (addDisplayedCourse coursesData) l st)).
  { intros l.
    apply (fold_left_preorder
             (fun s s' => courseNodesCarryCategory s -> courseNodesCarryCategory s')
             (fun d s => addDisplayedCourse coursesData s d)); [auto | auto |].
    apply Forall_forall. intros d _ s Hs. unfold addDisplayedCourse.
    destruct (findCourse coursesData d) as [course|]; [|exact Hs].
    apply Hreqs, Hreqs. intros m Hm. simpl in Hm.
    apply in_app_iff in Hm. destruct Hm as [Hm|[<-|[]]]; [apply Hs, Hm|].
    intros _. split; reflexivity. }
  apply H. intros m [].
Qed.

Lemma displayed_course_node (courseCodesToDisplay : list string) (d : string)
    (course : Course) :
  In d courseCodesToDisplay -> findCourse coursesData d = Some course ->
  In (displayedCourseNode course)
     (nodesArray (generateGraphElements coursesData courseCodesToDisplay)).
Proof.
  intros Hd Hf. unfold generateGraphElements.
  apply in_ofArray in Hd. apply in_split in Hd. destruct Hd as [l1 [l2 ->]].
  rewrite fold_left_app. simpl.
  apply (keeps_node_in _ _ _ (generate_keeps coursesData l2 _)).
  unfold addDisplayedCourse. rewrite Hf.
  apply (keeps_node_in _ _ _ (addRequirements_keeps coursesData _ _ _ _)).
  apply (keeps_node_in _ _ _ (addRequirements_keeps coursesData _ _ _ _)).
  simpl. apply in_app_iff. right. left. reflexivity.
Qed.

Lemma generate_unknown (l : list string) :
  (forall c, In c l -> inCatalog coursesData c = false) ->
  forall st, fold_left (addDisplayedCourse coursesData) l st = st.
Proof.
  induction l as [|d l IH]; intros Hl st; simpl; [reflexivity|].
  assert (Hd : addDisplayedCourse coursesData st d = st).
  { unfold addDisplayedCourse. pose proof (Hl d (or_introl eq_refl)) as H.
    unfold inCatalog in H. destruct (findCourse coursesData d); [discriminate|reflexivity]. }
  rewrite Hd. apply IH. intros c Hc. apply Hl. right. exact Hc.
Qed.

End BuilderMore.

(** X5. In every graph delivered to the render layer each edge joins two
    delivered nodes: no edge is left with a missing end. *)
Theorem delivered_edges_join_delivered_nodes (coursesData : list Course)
    (courseCodesToDisplay : list string) (st : AppState) :
  exists st',
    displayGraphForCourses coursesData courseCodesToDisplay st = Some st' /\
    forall e, In e (allEdgesDataSet st') ->
      In (Edge.from e) (nodeIds (allNodesDataSet st')) /\
      In (Edge.to e) (nodeIds (allNodesDataSet st')).
Proof.
  eexists. split; [apply displayGraphForCourses_delivers|].
  simpl. intros e He.
  destruct (generate_joins coursesData courseCodesToDisplay e He) as [Hf Ht].
  unfold uniqueNodesById.
  split; apply (keepFirst_ids _ _ []); right; assumption.
Qed.

(** X6. No node is made for an unknown code: in every delivered graph a
    node whose id is not a synthetic one (does not start with logic_,
    textual_ or n_of_list_) has an id that resolves in the catalog, its
    label is that code and its group is [extractGroup] of it, whichever
    path pushed it first. *)
Theorem delivered_course_nodes_resolve (coursesData : list Course)
    (courseCodesToDisplay : list string) (st st' : AppState) (n : Node.t) :
  displayGraphForCourses coursesData courseCodesToDisplay st = Some st' ->
  In n (allNodesDataSet st') ->
  isSyntheticId (Node.id n) = false ->
  inCatalog coursesData (Node.id n) = true /\
  Node.label n = Node.id n /\
  Node.group n = extractGroup (Node.id n).
Proof.
  intros Hd Hn Hsyn.
  rewrite displayGraphForCourses_delivers in Hd. inversion Hd; subst st'. clear Hd.
  simpl in Hn.
  apply (keepFirst_first _ n []) in Hn. destruct Hn as [[]|[_ Hfind]].
  apply find_some in Hfind. destruct Hfind as [Hin _].
  split; [|apply (generate_carries coursesData courseCodesToDisplay n Hin Hsyn)].
  assert (Hid : In (Node.id n)
                  (nodeIds (nodesArray (generateGraphElements coursesData courseCodesToDisplay))))
    by (apply in_map; exact Hin).
  apply (generate_course_ids coursesData courseCodesToDisplay (Node.id n) Hsyn) in Hid.
  destruct Hid as [d [_ [course [Hf [Heq|[r [_ [_ Hcat]]]]]]]]; [|exact Hcat].
  rewrite Heq. destruct (findCourse_code coursesData d course Hf) as [-> _].
  apply (findCourse_inCatalog coursesData d course Hf).
Qed.

(** The theorem at work on the graph of ECSE-324, whose corequisite
    list names the unknown FAKE-999. *)
Lemma delivered_course_nodes_resolve_witness :
  let st' := orStart (displayGraphForCourses demoCatalog ["ECSE-324"] startState) in
  let n := nth 2 (allNodesDataSet st') noNode in
  (displayGraphForCourses demoCatalog ["ECSE-324"] startState = Some st' /\
   In n (allNodesDataSet st') /\ isSyntheticId (Node.id n) = false /\
   Node.id n = "ECSE-200" /\
   ~ In "FAKE-999" (nodeIds (allNodesDataSet st'))) /\
  inCatalog demoCatalog (Node.id n) = true /\
  Node.label n = Node.id n /\
  Node.group n = extractGroup (Node.id n).
Proof.
  intros st' n.
  assert (H1 : displayGraphForCourses demoCatalog ["ECSE-324"] startState = Some st')
    by (vm_compute; reflexivity).
  assert (H2 : In n (allNodesDataSet st')) by (vm_compute; auto).
  assert (H3 : isSyntheticId (Node.id n) = false) by (vm_compute; reflexivity).
  split.
  { split; [exact H1|]. split; [exact H2|]. split; [exact H3|].
    split; [vm_compute; reflexivity|].
    vm_compute. intros H. repeat (destruct H as [H|H]; [discriminate H|]). exact H. }
  exact (delivered_course_nodes_resolve demoCatalog ["ECSE-324"] startState st' n H1 H2 H3).
Defined.

(** X7. Every displayed code that resolves in the catalog is on the
    graph: the delivered nodes include one whose id is that code. *)
Theorem displayed_courses_are_delivered (coursesData : list Course)
    (courseCodesToDisplay : list string) (st : AppState) (d : string) :
  In d courseCodesToDisplay ->
  inCatalog coursesData d = true ->
  exists st',
    displayGraphForCourses coursesData courseCodesToDisplay st = Some st' /\
    In d (nodeIds (allNodesDataSet st')).
Proof.
  intros Hd Hcat. eexists. split; [apply displayGraphForCourses_delivers|].
  simpl. unfold inCatalog in Hcat.
  destruct (findCourse coursesData d) as [course|] eqn:Hf; [|discriminate].
  pose proof (displayed_course_node coursesData courseCodesToDisplay d course Hd Hf) as Hn.
  destruct (findCourse_code coursesData d course Hf) as [Hcode _].
  apply (keepFirst_ids _ _ []). right.
  rewrite <- Hcode. apply (in_map Node.id _ _ Hn).
Qed.

(** The theorem at work on the demo program "Software". *)
Lemma displayed_courses_are_delivered_witness :
  In "COMP-251" ["COMP-251"; "FAKE-999"] /\
  inCatalog demoCatalog "COMP-251" = true /\
  exists st',
    displayGraphForCourses demoCatalog ["COMP-251"; "FAKE-999"] startState = Some st' /\
    In "COMP-251" (nodeIds (allNodesDataSet st')).
Proof.
  assert (H1 : In "COMP-251" ["COMP-251"; "FAKE-999"]) by (simpl; auto).
  assert (H2 : inCatalog demoCatalog "COMP-251" = true) by reflexivity.
  split; [exact H1|]. split; [exact H2|].
  exact (displayed_courses_are_delivered demoCatalog ["COMP-251"; "FAKE-999"]
           startState "COMP-251" H1 H2).
Defined.

(** X8. A display list none of whose codes resolves in the catalog gives
    the empty graph, like the empty list: no node, no edge, no error, and
    the counters are not touched. *)
Theorem unknown_codes_give_the_empty_graph (coursesData : list Course)
    (courseCodesToDisplay : list string) (st : AppState) :
  (forall c, In c courseCodesToDisplay -> inCatalog coursesData c = false) ->
  generateGraphElements coursesData courseCodesToDisplay = emptyBuild /\
  displayGraphForCourses coursesData courseCodesToDisplay st = Some (setGraph [] [] st).
Proof.
  intros Hl.
  assert (Hb : generateGraphElements coursesData courseCodesToDisplay = emptyBuild).
  { unfold generateGraphElements. apply generate_unknown.
    intros c Hc. apply Hl. apply in_ofArray, Hc. }
  split; [exact Hb|].
  rewrite displayGraphForCourses_delivers. rewrite Hb. reflexivity.
Qed.

(** The theorem at work: two codes the demo catalogue does not hold. *)
Lemma unknown_codes_give_the_empty_graph_witness :
  (forall c, In c ["FAKE-999"; "FAKE-998"] -> inCatalog demoCatalog c = false) /\
  generateGraphElements demoCatalog ["FAKE-999"; "FAKE-998"] = emptyBuild /\
  displayGraphForCourses demoCatalog ["FAKE-999"; "FAKE-998"] softwareGraph
  = Some (setGraph [] [] softwareGraph).
Proof.
  assert (H : forall c, In c ["FAKE-999"; "FAKE-998"] -> inCatalog demoCatalog c = false)
    by (intros c [<-|[<-|[]]]; reflexivity).
  split; [exact H|].
  exact (unknown_codes_give_the_empty_graph demoCatalog ["FAKE-999"; "FAKE-998"]
           softwareGraph H).
Defined.

(** ** The two declarations of [displayGraphForCourses] *)

Lemma uniqueEdges_distinct (edges : list Edge.t) :
  forall acc, NoDup (edgeIds (acc ++ edges)) ->
    fold_left (fun acc e => if someEdgeId acc (Edge.id e) then acc else acc ++ [e]) edges acc
    = acc ++ edges.
Proof.
  induction edges as [|e edges IH]; intros acc Hnd; simpl.
  - symmetry. apply app_nil_r.
  - destruct (someEdgeId acc (Edge.id e)) eqn:He.
    + exfalso. apply someEdgeId_true in He.
      unfold edgeIds in Hnd. rewrite map_app in Hnd. simpl in Hnd.
      apply NoDup_remove_2 in Hnd. apply Hnd. apply in_app_iff. left. exact He.
    + replace (acc ++ e :: edges) with ((acc ++ [e]) ++ edges) in *
        by (rewrite <- app_assoc; reflexivity).
      apply IH. exact Hnd.
Qed.

(** X9. The earlier declaration of [displayGraphForCourses], which
    also reduces the edges to the first of each id and skips empty
    collections, delivers for every input what the declaration in force
    delivers: the builder's edges already have distinct ids. *)
Theorem both_declarations_deliver_the_same (coursesData : list Course)
    (courseCodesToDisplay : list string) (st : AppState) :
  displayGraphForCourses_first coursesData courseCodesToDisplay st
  = displayGraphForCourses coursesData courseCodesToDisplay st.
Proof.
  rewrite displayGraphForCourses_delivers.
  unfold displayGraphForCourses_first.
  destruct courseCodesToDisplay as [|c cs]; [reflexivity|].
  set (built := generateGraphElements coursesData (c :: cs)).
  assert (He : uniqueEdgesById (edgesArray built) = edgesArray built).
  { unfold uniqueEdgesById. apply (uniqueEdges_distinct (edgesArray built) []).
    apply generated_edges_unique. }
  rewrite He.
  assert (Hn : dataSetAdd Node.id (uniqueNodesById (nodesArray built)) []
               = Some (uniqueNodesById (nodesArray built))).
  { apply (dataSetAdd_distinct Node.id _ []).
    apply (keepFirst_NoDup (nodesArray built) []). constructor. }
  assert (Hd : dataSetAdd Edge.id (edgesArray built) [] = Some (edgesArray built)).
  { apply (dataSetAdd_distinct Edge.id _ []). apply generated_edges_unique. }
  rewrite Hn, Hd.
  destruct (uniqueNodesById (nodesArray built)) as [|n ns] eqn:En;
    destruct (edgesArray built) as [|e es] eqn:Ee; reflexivity.
Qed.

(** ** Program changes: the other choices of the dropdown *)

(** X10. The placeholder entry, a name no program has, and a program
    without a course list all clear the graph: the rebuild succeeds with
    no node and no edge, the sidebar is hidden, and selection, category
    filter and sidebar content stay as they were. *)
Theorem program_change_without_courses_clears_graph (coursesData : list Course)
    (programsData : list Program) (st : AppState) :
  programSelect_value st = ""
  \/ (programSelect_value st <> "all" /\
      find (fun q => String.eqb (program q) (programSelect_value st)) programsData = None)
  \/ (programSelect_value st <> "all" /\
      exists p, find (fun q => String.eqb (program q) (programSelect_value st)) programsData
                = Some p /\ courses p = None) ->
  handleProgramChange coursesData programsData st
  = Some (mkApp [] [] (selectedForHighlighting_NodeIds st) (categoryFilterSelect_value st)
            (programSelect_value st) false (sidebarContent st) false).
Proof.
  intros Hcase.
  assert (Hcs : programDisplayCodes coursesData programsData (programSelect_value st) = []).
  { unfold programDisplayCodes.
    destruct Hcase as [->|[[Hall Hf]|[Hall [p [Hf Hc]]]]]; [reflexivity| |];
      apply String.eqb_neq in Hall; rewrite Hall, Hf; try rewrite Hc;
      destruct (String.eqb (programSelect_value st) ""); reflexivity. }
  rewrite handleProgramChange_delivers, Hcs. reflexivity.
Qed.

(** The theorem at work: the demo program "Unlisted" has no course list. *)
Lemma program_change_without_courses_clears_graph_witness :
  let st := setProgram "Unlisted" (click demoCatalog ["COMP-250"] softwareGraph) in
  (programSelect_value st <> "all" /\
   exists p, find (fun q => String.eqb (program q) (programSelect_value st)) demoPrograms
             = Some p /\ courses p = None) /\
  handleProgramChange demoCatalog demoPrograms st
  = Some (mkApp [] [] (selectedForHighlighting_NodeIds st) (categoryFilterSelect_value st)
            (programSelect_value st) false (sidebarContent st) false).
Proof.
  intros st.
  assert (H : programSelect_value st <> "all" /\
              exists p, find (fun q => String.eqb (program q) (programSelect_value st))
                          demoPrograms = Some p /\ courses p = None).
  { split; [vm_compute; discriminate|].
    exists (mkProgram "Unlisted" None). split; reflexivity. }
  split; [exact H|].
  exact (program_change_without_courses_clears_graph demoCatalog demoPrograms st
           (or_intror (or_intror H))).
Defined.

(** X11. "Show All Programs" puts every course of the catalog on the
    graph: after the change each catalog record's code is the id of a
    delivered node. *)
Theorem show_all_displays_every_course (coursesData : list Course)
    (programsData : list Program) (st : AppState) (r : Course) :
  programSelect_value st = "all" ->
  In r coursesData ->
  exists st',
    handleProgramChange coursesData programsData st = Some st' /\
    In (code r) (nodeIds (allNodesDataSet st')).
Proof.
  intros Hall Hr. eexists. split; [apply handleProgramChange_delivers|].
  simpl. rewrite Hall. unfold programDisplayCodes. simpl.
  assert (Hcat : inCatalog coursesData (code r) = true)
    by (apply inCatalog_true; exists r; auto).
  unfold inCatalog in Hcat.
  destruct (findCourse coursesData (code r)) as [course|] eqn:Hf; [|discriminate].
  assert (Hd : In (code r) (map code coursesData)) by (apply in_map; exact Hr).
  pose proof (displayed_course_node coursesData (map code coursesData) (code r) course Hd Hf)
    as Hn.
  destruct (findCourse_code coursesData (code r) course Hf) as [Hcode _].
  apply (keepFirst_ids _ _ []). right.
  rewrite <- Hcode. apply (in_map Node.id _ _ Hn).
Qed.

(** The theorem at work on the demo catalogue. *)
Lemma show_all_displays_every_course_witness :
  let st := setProgram "all" startState in
  let r := course "MATH-133" [] [] in
  programSelect_value st = "all" /\
  In r demoCatalog /\
  exists st',
    handleProgramChange demoCatalog demoPrograms st = Some st' /\
    In (code r) (nodeIds (allNodesDataSet st')).
Proof.
  intros st r.
  assert (H1 : programSelect_value st = "all") by reflexivity.
  assert (H2 : In r demoCatalog) by (vm_compute; auto 10).
  split; [exact H1|]. split; [exact H2|].
  exact (show_all_displays_every_course demoCatalog demoPrograms st r H1 H2).
Defined.

(** ** ViewStateEngine: how the render passes compose *)

Section ViewMore.

Variable coursesData : list Course.
Variable network : Network.

Lemma normalStyle_styled (node : Node.t) (o : Q) (f : FontProperties) (c : string)
    (w b : nat) :
  normalStyle network (styled node o f c w b) = normalStyle network node.
Proof. reflexivity. Qed.

Lemma styled_styled (node : Node.t) (o o' : Q) (f f' : FontProperties) (c c' : string)
    (w w' b b' : nat) :
  styled (styled node o f c w b) o' f' c' w' b' = styled node o' f' c' w' b'.
Proof. reflexivity. Qed.

Lemma normalNode_styled (node : Node.t) (o : Q) (f : FontProperties) (c : string)
    (w b : nat) :
  normalNode network (styled node o f c w b) = normalNode network node.
Proof.
  unfold normalNode. rewrite normalStyle_styled.
  destruct (normalStyle network node). apply styled_styled.
Qed.

Lemma veryDimmedNode_styled (node : Node.t) (o : Q) (f : FontProperties) (c : string)
    (w b : nat) :
  veryDimmedNode network (styled node o f c w b) = veryDimmedNode network node.
Proof. unfold veryDimmedNode. rewrite normalStyle_styled. apply styled_styled. Qed.

(** Every render of a node is a [styled] copy of it. *)
Lemma rendered_is_styled (node : Node.t) :
  (exists o f c w b, normalNode network node = styled node o f c w b)
  /\ (exists o f c w b, veryDimmedNode network node = styled node o f c w b).
Proof.
  split.
  - unfold normalNode. destruct (normalStyle network node) as [f b]. eauto 10.
  - unfold veryDimmedNode. eauto 10.
Qed.

Lemma normalNode_rendered (node : Node.t) :
  normalNode network (normalNode network node) = normalNode network node
  /\ normalNode network (veryDimmedNode network node) = normalNode network node
  /\ veryDimmedNode network (normalNode network node) = veryDimmedNode network node
  /\ veryDimmedNode network (veryDimmedNode network node) = veryDimmedNode network node.
Proof.
  destruct (rendered_is_styled node) as [[o [f [c [w [b Hn]]]]] [o' [f' [c' [w' [b' Hd]]]]]].
  split; [rewrite Hn at 1; apply normalNode_styled|].
  split; [rewrite Hd at 1; apply normalNode_styled|].
  split; [rewrite Hn at 1; apply veryDimmedNode_styled|].
  rewrite Hd at 1; apply veryDimmedNode_styled.
Qed.

Lemma renderNode_idem (cat : string) (sel hl : JSSet.t) (node : Node.t) :
  renderNode network cat sel hl (renderNode network cat sel hl node)
  = renderNode network cat sel hl node.
Proof.
  destruct (renderNode_id network cat sel hl node) as [Hid Hgroup].
  destruct (normalNode_rendered node) as [Hnn [Hnd [Hdn Hdd]]].
  unfold renderNode at 1. unfold isNodeInSelectedCategory. rewrite Hid, Hgroup.
  fold (isNodeInSelectedCategory cat node).
  unfold renderNode.
  destruct (isNodeInSelectedCategory cat node); simpl; [|exact Hdd].
  destruct (0 <? JSSet.size sel); simpl; [|exact Hnn].
  destruct (JSSet.has hl (Node.id node)); assumption.
Qed.

Lemma filterNode_idem (cat : string) (node : Node.t) :
  filterNode network cat (filterNode network cat node) = filterNode network cat node.
Proof.
  destruct (filterNode_id network cat node) as [_ Hgroup].
  destruct (normalNode_rendered node) as [Hnn [_ [_ Hdd]]].
  unfold filterNode at 1. unfold isNodeInSelectedCategory. rewrite Hgroup.
  fold (isNodeInSelectedCategory cat node). unfold filterNode.
  destruct (isNodeInSelectedCategory cat node); assumption.
Qed.

Lemma renderEdge_idem (sel hl : JSSet.t) (e : Edge.t) :
  renderEdge sel hl (renderEdge sel hl e) = renderEdge sel hl e.
Proof.
  unfold renderEdge at 1. rewrite renderEdge_id.
  unfold renderEdge. destruct (_ && _); reflexivity.
Qed.

Lemma add_add (i : string) (s : JSSet.t) : JSSet.add i (JSSet.add i s) = JSSet.add i s.
Proof.
  assert (H : JSSet.has (JSSet.add i s) i = true)
    by (apply has_true_iff, in_add; auto).
  unfold JSSet.add at 1. rewrite H. reflexivity.
Qed.

Lemma in_edgesToFullyHighlight (sel : JSSet.t) (x : string) :
  In x (edgesToFullyHighlight_Ids network sel)
  <-> exists s, In s sel /\ In x (getConnectedEdges network s).
Proof.
  unfold edgesToFullyHighlight_Ids.
  assert (H : forall acc,
    In x (fold_left (fun acc s => JSSet.addAll (getConnectedEdges network s) acc) sel acc)
    <-> In x acc \/ exists s, In s sel /\ In x (getConnectedEdges network s)).
  { induction sel as [|a sel IH]; intros acc; simpl.
    - split; [auto | intros [Hx|[s [[] _]]]; exact Hx].
    - rewrite IH, in_addAll. split.
      + intros [[Hx|Hx]|[s [Hs Hx]]]; eauto 6.
      + intros [Hx|[s [[<-|Hs] Hx]]]; eauto 6. }
  rewrite H. unfold JSSet.empty. simpl. split; [intros [[]|Hx]; exact Hx | auto].
Qed.

End ViewMore.

(** X12. A click on the background (no node, or the empty id) clears
    the selection and renders the graph by the category filter alone: the
    nodes come out as the category handler's node pass would make them,
    every edge takes the dim colour of its relation, the sidebar is left
    alone; with the filter on "all" every node is at full opacity. *)
Theorem background_click_resets_highlight (coursesData : list Course) (network : Network)
    (params_nodes : list string) (st : AppState) :
  clickedNodeId params_nodes = None ->
  let st' := handleNetworkClick coursesData network params_nodes st in
  selectedForHighlighting_NodeIds st' = [] /\
  allNodesDataSet st'
  = map (filterNode network (categoryFilterSelect_value st)) (allNodesDataSet st) /\
  allEdgesDataSet st'
  = map (fun e => recolor e (dimColor (Edge.baseColorType e))) (allEdgesDataSet st) /\
  sidebarContent st' = sidebarContent st /\
  sidebarVisible st' = sidebarVisible st /\
  (categoryFilterSelect_value st = "all" ->
   forall shown, In shown (allNodesDataSet st') -> Node.opacity shown = Some 1%Q).
Proof.
  intros Hnone st'.
  assert (Hnodes : allNodesDataSet st'
            = map (filterNode network (categoryFilterSelect_value st)) (allNodesDataSet st)).
  { unfold st', handleNetworkClick, selectOnClick. rewrite Hnone. simpl.
    apply map_ext. intros n. unfold renderNode, filterNode. simpl.
    destruct (isNodeInSelectedCategory (categoryFilterSelect_value st) n); reflexivity. }
  split; [unfold st', handleNetworkClick, selectOnClick; rewrite Hnone; reflexivity|].
  split; [exact Hnodes|].
  split; [unfold st', handleNetworkClick, selectOnClick; rewrite Hnone; reflexivity|].
  split; [unfold st', handleNetworkClick, selectOnClick; rewrite Hnone; reflexivity|].
  split; [unfold st', handleNetworkClick, selectOnClick; rewrite Hnone; reflexivity|].
  intros Hall shown Hin. rewrite Hnodes in Hin.
  apply in_map_iff in Hin. destruct Hin as [n [<- _]].
  unfold filterNode, isNodeInSelectedCategory. rewrite Hall. simpl.
  apply normalNode_opacity.
Qed.

(** The theorem at work: a background click after COMP-250 was clicked. *)
Lemma background_click_resets_highlight_witness :
  let st := click demoCatalog ["COMP-250"] softwareGraph in
  let net := visNetwork (allNodesDataSet st) (allEdgesDataSet st) in
  let st' := handleNetworkClick demoCatalog net [] st in
  (clickedNodeId [] = None /\ selectedForHighlighting_NodeIds st = ["COMP-250"]) /\
  selectedForHighlighting_NodeIds st' = [] /\
  allNodesDataSet st'
  = map (filterNode net (categoryFilterSelect_value st)) (allNodesDataSet st) /\
  allEdgesDataSet st'
  = map (fun e => recolor e (dimColor (Edge.baseColorType e))) (allEdgesDataSet st) /\
  sidebarContent st' = sidebarContent st /\
  sidebarVisible st' = sidebarVisible st /\
  (categoryFilterSelect_value st = "all" ->
   forall shown, In shown (allNodesDataSet st') -> Node.opacity shown = Some 1%Q).
Proof.
  intros st net st'.
  split; [split; reflexivity|].
  exact (background_click_resets_highlight demoCatalog net [] st eq_refl).
Defined.

(** X13. A second click on the same node changes nothing: selection,
    sidebar, nodes and edges are what the first click left. *)
Theorem repeated_click_changes_nothing (coursesData : list Course) (network : Network)
    (i : string) (rest rest' : list string) (st : AppState) :
  truthyStr i = true ->
  handleNetworkClick coursesData network (i :: rest')
    (handleNetworkClick coursesData network (i :: rest) st)
  = handleNetworkClick coursesData network (i :: rest) st.
Proof.
  intros Hi. unfold handleNetworkClick, selectOnClick, clickedNodeId. rewrite Hi.
  destruct (findCourse coursesData i) as [course|]; simpl;
    rewrite add_add, !map_map;
    unfold setGraph, setSelected, updateSidebar; simpl; f_equal;
    apply map_ext; intros x; first [apply renderNode_idem | apply renderEdge_idem].
Qed.

(** The theorem at work on the demo graph. *)
Lemma repeated_click_changes_nothing_witness :
  let net := visNetwork (allNodesDataSet softwareGraph) (allEdgesDataSet softwareGraph) in
  truthyStr "COMP-250" = true /\
  handleNetworkClick demoCatalog net ["COMP-250"]
    (handleNetworkClick demoCatalog net ["COMP-250"] softwareGraph)
  = handleNetworkClick demoCatalog net ["COMP-250"] softwareGraph.
Proof.
  intros net. split; [reflexivity|].
  exact (repeated_click_changes_nothing demoCatalog net "COMP-250" [] [] softwareGraph
           eq_refl).
Defined.

(** X14. Node clicks accumulate: a click on a node keeps every id that
    was selected, and the highlight set afterwards is the one before
    together with the clicked id and the nodes connected to it. *)
Theorem node_clicks_accumulate (coursesData : list Course) (network : Network)
    (i : string) (rest : list string) (st : AppState) :
  truthyStr i = true ->
  let st' := handleNetworkClick coursesData network (i :: rest) st in
  (forall s, In s (selectedForHighlighting_NodeIds st) ->
             In s (selectedForHighlighting_NodeIds st')) /\
  (forall x,
     In x (nodesToFullyHighlight network (selectedForHighlighting_NodeIds st'))
     <-> x = i \/ In x (getConnectedNodes network i)
         \/ In x (nodesToFullyHighlight network (selectedForHighlighting_NodeIds st))).
Proof.
  intros Hi st'.
  assert (Hsel : selectedForHighlighting_NodeIds st'
                 = JSSet.add i (selectedForHighlighting_NodeIds st)).
  { destruct (handleNetworkClick_ids coursesData network (i :: rest) st)
      as [_ [_ [_ [H _]]]].
    unfold st'. rewrite H. apply (selectOnClick_node coursesData i rest st Hi). }
  rewrite Hsel. split.
  - intros s Hs. apply in_add. auto.
  - intros x. rewrite !in_nodesToFullyHighlight. split.
    + intros [s [Hs Hx]]. apply in_add in Hs. destruct Hs as [->|Hs]; [tauto|].
      right. right. exists s. auto.
    + intros [->|[Hx|[s [Hs Hx]]]].
      * exists i. split; [apply in_add|]; auto.
      * exists i. split; [apply in_add|]; auto.
      * exists s. split; [apply in_add|]; auto.
Qed.

(** The theorem at work: COMP-251 is clicked after COMP-250. *)
Lemma node_clicks_accumulate_witness :
  let st := click demoCatalog ["COMP-250"] softwareGraph in
  let net := visNetwork (allNodesDataSet st) (allEdgesDataSet st) in
  let st' := handleNetworkClick demoCatalog net ["COMP-251"] st in
  truthyStr "COMP-251" = true /\
  (forall s, In s (selectedForHighlighting_NodeIds st) ->
             In s (selectedForHighlighting_NodeIds st')) /\
  (forall x,
     In x (nodesToFullyHighlight net (selectedForHighlighting_NodeIds st'))
     <-> x = "COMP-251" \/ In x (getConnectedNodes net "COMP-251")
         \/ In x (nodesToFullyHighlight net (selectedForHighlighting_NodeIds st))).
Proof.
  intros st net st'. split; [reflexivity|].
  exact (node_clicks_accumulate demoCatalog net "COMP-251" [] st eq_refl).
Defined.

(** X15. After any click an edge keeps its ends, its id and its
    relation, and its colour is decided by the selection alone, never by
    the category filter: the bright colour of its relation when the
    library lists it among the edges of some selected id, the dim colour
    of its relation otherwise. *)
Theorem edge_colour_follows_selection (coursesData : list Course) (network : Network)
    (params_nodes : list string) (st : AppState) :
  let st' := handleNetworkClick coursesData network params_nodes st in
  let lit (e : Edge.t) :=
    exists s, In s (selectedForHighlighting_NodeIds st')
              /\ In (Edge.id e) (getConnectedEdges network s) in
  exists render : Edge.t -> Edge.t,
    allEdgesDataSet st' = map render (allEdgesDataSet st) /\
    forall e,
      Edge.id (render e) = Edge.id e /\
      Edge.from (render e) = Edge.from e /\
      Edge.to (render e) = Edge.to e /\
      Edge.baseColorType (render e) = Edge.baseColorType e /\
      (lit e -> Edge.color (render e) = highlightColor (Edge.baseColorType e)) /\
      (~ lit e -> Edge.color (render e) = dimColor (Edge.baseColorType e)).
Proof.
  intros st' lit.
  destruct (selectOnClick_frame coursesData params_nodes st) as [_ [_ He]].
  destruct (handleNetworkClick_ids coursesData network params_nodes st)
    as [_ [_ [_ [Hsel _]]]].
  fold st' in Hsel.
  set (sel := selectedForHighlighting_NodeIds (selectOnClick coursesData params_nodes st))
    in *.
  exists (renderEdge sel (edgesToFullyHighlight_Ids network sel)).
  split.
  { unfold st', handleNetworkClick. simpl. rewrite He. reflexivity. }
  intros e.
  assert (Hlit : JSSet.has (edgesToFullyHighlight_Ids network sel) (Edge.id e) = true
                 <-> lit e)
    by (unfold lit; rewrite Hsel, has_true_iff; apply in_edgesToFullyHighlight).
  unfold renderEdge.
  destruct (JSSet.has _ (Edge.id e)) eqn:Hhas.
  - assert (Hl : lit e) by (apply Hlit; reflexivity).
    assert (Hpos : (0 <? JSSet.size sel) = true).
    { destruct Hl as [s [Hs _]]. rewrite Hsel in Hs. apply Nat.ltb_lt.
      unfold JSSet.size. destruct sel; [destruct Hs | simpl; lia]. }
    rewrite Hpos. simpl. repeat split; try reflexivity. intros Hn. contradiction.
  - rewrite andb_false_r. simpl. repeat split; try reflexivity.
    intros Hl. apply Hlit in Hl. discriminate.
Qed.

(** ** The category handler *)

Lemma isVisible_filterNode (network : Network) (cat : string) (node : Node.t) :
  isVisibleNode (filterNode network cat node) = isNodeInSelectedCategory cat node.
Proof.
  unfold filterNode, normalNode, veryDimmedNode.
  destruct (normalStyle network node) as [f b].
  destruct (isNodeInSelectedCategory cat node); reflexivity.
Qed.

Lemma mapOrRaise_all {A B : Type} (f : A -> option B) (g : A -> B) (l : list A) :
  (forall x, In x l -> f x = Some (g x)) -> mapOrRaise f l = Some (map g l).
Proof.
  induction l as [|a l IH]; intros H; simpl; [reflexivity|].
  rewrite (H a (or_introl eq_refl)), IH; [reflexivity|].
  intros x Hx. apply H. right. exact Hx.
Qed.

Lemma mapOrRaise_one {A B : Type} (f : A -> option B) (l : list A) (x : A) :
  In x l -> f x = None -> mapOrRaise f l = None.
Proof.
  induction l as [|a l IH]; intros Hin Hx; [destruct Hin|]. simpl.
  destruct Hin as [->|Hin].
  - rewrite Hx. reflexivity.
  - destruct (f a); [|reflexivity]. rewrite (IH Hin Hx). reflexivity.
Qed.

Lemma mapOrRaise_again {A : Type} (f : A -> option A) (l l' : list A) :
  (forall x y, f x = Some y -> f y = Some y) ->
  mapOrRaise f l = Some l' -> mapOrRaise f l' = Some l'.
Proof.
  intros Hf. revert l'. induction l as [|a l IH]; intros l' H; simpl in H.
  - injection H as <-. reflexivity.
  - destruct (f a) as [y|] eqn:Hy; [|discriminate].
    destruct (mapOrRaise f l) as [ys|]; [|discriminate].
    injection H as <-. simpl. rewrite (Hf a y Hy), (IH ys eq_refl). reflexivity.
Qed.

Lemma filterEdge_again (network : Network) (visible : JSSet.t) (e e' : Edge.t) :
  filterEdge network visible e = Some e' -> filterEdge network visible e' = Some e'.
Proof.
  unfold filterEdge.
  destruct (JSSet.has visible (Edge.from e) && JSSet.has visible (Edge.to e)) eqn:H.
  - intros [= <-]. simpl. rewrite H. reflexivity.
  - destruct (options_edges network); [|discriminate].
    intros [= <-]. simpl. rewrite H. reflexivity.
Qed.

(** The ids the edge pass takes for visible are those that pass the
    filter. *)
Lemma visibleNodeIds_pass (network : Network) (st : AppState) (i : string) :
  JSSet.has
    (JSSet.ofArray
       (nodeIds (filter isVisibleNode
                   (map (filterNode network (categoryFilterSelect_value st))
                      (allNodesDataSet st))))) i = true
  <-> passesFilter st i.
Proof.
  set (cat := categoryFilterSelect_value st).
  rewrite has_true_iff, in_ofArray. unfold nodeIds, passesFilter. fold cat.
  rewrite in_map_iff. split.
  - intros [n' [Hid Hin]]. apply filter_In in Hin. destruct Hin as [Hin Hv].
    apply in_map_iff in Hin. destruct Hin as [n [<- Hn]].
    rewrite isVisible_filterNode in Hv.
    exists n. split; [exact Hn|]. split; [|exact Hv].
    rewrite <- Hid. symmetry. apply filterNode_id.
  - intros [n [Hn [Hid Hc]]]. exists (filterNode network cat n). split.
    + rewrite <- Hid. apply filterNode_id.
    + apply filter_In. split; [apply in_map, Hn|].
      rewrite isVisible_filterNode. exact Hc.
Qed.

(** X16. No run of the category handler returns: each ends in a raise.
    Before it the selection has been emptied and every node rendered by
    its category alone, the filter value and the sidebar are as they
    were.  When the network's options hold an [edges] part, the edges
    are written too, with the colour [null] on exactly those between two
    nodes that pass the filter and the base colour at opacity 0.05 on the
    others, and the raise is the ReferenceError of the call of
    [clearSidebar].  When they hold none, that is so only if every edge
    joins two nodes that pass the filter; otherwise the read of
    [options.edges.color] raises a TypeError and no edge is written. *)
Theorem category_change_dims_edges_of_dimmed_nodes (network : Network) (st : AppState) :
  exists (err : JSError) (st' : AppState),
    handleCategoryFilterChange network st = Raised err st' /\
    selectedForHighlighting_NodeIds st' = JSSet.empty /\
    categoryFilterSelect_value st' = categoryFilterSelect_value st /\
    sidebarVisible st' = sidebarVisible st /\
    sidebarContent st' = sidebarContent st /\
    allNodesDataSet st'
    = map (filterNode network (categoryFilterSelect_value st)) (allNodesDataSet st) /\
    match options_edges network with
    | Some edges =>
        err = ReferenceError /\
        Forall2 (dimsByEnds st (orElseOptStr (eo_color edges) "#848484"))
          (allEdgesDataSet st) (allEdgesDataSet st')
    | None =>
        (Forall (joinsVisible st) (allEdgesDataSet st) ->
         err = ReferenceError /\
         allEdgesDataSet st' = map (fun e => recolor e ColorNull) (allEdgesDataSet st)) /\
        (~ Forall (joinsVisible st) (allEdgesDataSet st) ->
         err = TypeError /\ allEdgesDataSet st' = allEdgesDataSet st)
    end.
Proof.
  set (cat := categoryFilterSelect_value st).
  set (visible := JSSet.ofArray
                    (nodeIds (filter isVisibleNode
                                (map (filterNode network cat) (allNodesDataSet st))))).
  assert (Hjoin : forall e,
    JSSet.has visible (Edge.from e) && JSSet.has visible (Edge.to e) = true
    <-> joinsVisible st e).
  { intros e. unfold joinsVisible.
    rewrite andb_true_iff. unfold visible, cat.
    rewrite !visibleNodeIds_pass. reflexivity. }
  unfold handleCategoryFilterChange. simpl. fold cat. fold visible.
  destruct (options_edges network) as [edges|] eqn:Hopt.
  - set (base := orElseOptStr (eo_color edges) "#848484").
    set (g := fun e =>
                if JSSet.has visible (Edge.from e) && JSSet.has visible (Edge.to e)
                then recolor e ColorNull
                else recolor e (ColorOpacity base VERY_DIMMED_EDGE_OPACITY)).
    rewrite (mapOrRaise_all (filterEdge network visible) g).
    + exists ReferenceError. eexists. split; [reflexivity|]. simpl.
      repeat (split; [reflexivity|]).
      apply Forall2_map_self. intros e _. unfold dimsByEnds, g.
      destruct (JSSet.has visible (Edge.from e) && JSSet.has visible (Edge.to e)) eqn:H;
        simpl; (split; [reflexivity|]); (split; [reflexivity|]); (split; [reflexivity|]);
        split.
      * intros _. reflexivity.
      * intros Hn. exfalso. apply Hn, Hjoin, H.
      * intros Hj. apply Hjoin in Hj. congruence.
      * intros _. reflexivity.
    + intros e _. unfold filterEdge, g. rewrite Hopt.
      destruct (JSSet.has visible (Edge.from e) && JSSet.has visible (Edge.to e));
        reflexivity.
  - destruct (forallb (fun e => JSSet.has visible (Edge.from e)
                                && JSSet.has visible (Edge.to e))
                (allEdgesDataSet st)) eqn:Hall.
    + rewrite forallb_forall in Hall.
      rewrite (mapOrRaise_all (filterEdge network visible)
                 (fun e => recolor e ColorNull)).
      * exists ReferenceError. eexists. split; [reflexivity|]. simpl.
        repeat (split; [reflexivity|]). split.
        -- intros _. split; reflexivity.
        -- intros Hn. exfalso. apply Hn. apply Forall_forall.
           intros e He. apply Hjoin, Hall, He.
      * intros e He. unfold filterEdge. rewrite (Hall e He). reflexivity.
    + assert (Hex : exists e, In e (allEdgesDataSet st) /\
                      JSSet.has visible (Edge.from e) && JSSet.has visible (Edge.to e)
                      = false).
      { clear Hjoin. induction (allEdgesDataSet st) as [|a l IH]; [discriminate|].
        simpl in Hall. apply andb_false_iff in Hall. destruct Hall as [Ha|Hl].
        - exists a. split; [left; reflexivity | exact Ha].
        - destruct (IH Hl) as [e [He Hf]]. exists e. split; [right; exact He | exact Hf]. }
      destruct Hex as [e [He Hf]].
      rewrite (mapOrRaise_one (filterEdge network visible) (allEdgesDataSet st) e He).
      * exists TypeError. eexists. split; [reflexivity|]. simpl.
        repeat (split; [reflexivity|]). split.
        -- intros HF. exfalso. rewrite Forall_forall in HF.
           apply HF, Hjoin in He. congruence.
        -- intros _. split; reflexivity.
      * unfold filterEdge. rewrite Hf, Hopt. reflexivity.
Qed.

(** The two ways the run ends, on the demo graph with the filter on the
    group of COMP-250: with an [edges] part in the options every edge is
    dimmed, without one no edge is written. *)
Example category_change_on_the_demo_graph :
  let cat := "CogSci Program: Core CompSci" in
  let st := setCategory cat softwareGraph in
  let ns := allNodesDataSet st in
  let es := allEdgesDataSet st in
  (exists st',
     handleCategoryFilterChange (visNetwork ns es) st = Raised ReferenceError st' /\
     map Node.opacity (allNodesDataSet st')
     = [Some VERY_DIMMED_OPACITY; Some VERY_DIMMED_OPACITY; Some 1%Q;
        Some VERY_DIMMED_OPACITY] /\
     map Edge.color (allEdgesDataSet st')
     = repeat (ColorOpacity "#848484" VERY_DIMMED_EDGE_OPACITY) 3) /\
  (exists st',
     handleCategoryFilterChange (bareNetwork ns es) st = Raised TypeError st' /\
     map Node.opacity (allNodesDataSet st')
     = [Some VERY_DIMMED_OPACITY; Some VERY_DIMMED_OPACITY; Some 1%Q;
        Some VERY_DIMMED_OPACITY] /\
     allEdgesDataSet st' = es).
Proof.
  split; eexists; (split; [vm_compute; reflexivity|]); split; reflexivity.
Qed.

(** X17. Running the category handler a second time, on the state the
    first run left and with the same filter, ends the same way and leaves
    that state as it is. *)
Theorem category_change_is_idempotent (network : Network) (st : AppState) :
  handleCategoryFilterChange network (stateOf (handleCategoryFilterChange network st))
  = handleCategoryFilterChange network st.
Proof.
  set (cat := categoryFilterSelect_value st).
  set (nodes := map (filterNode network cat) (allNodesDataSet st)).
  set (visible := JSSet.ofArray (nodeIds (filter isVisibleNode nodes))).
  assert (Hn : map (filterNode network cat) nodes = nodes).
  { unfold nodes. rewrite map_map. apply map_ext. intros x. apply filterNode_idem. }
  assert (Hrun : forall st0,
    allNodesDataSet st0 = allNodesDataSet st \/ allNodesDataSet st0 = nodes ->
    categoryFilterSelect_value st0 = cat ->
    handleCategoryFilterChange network st0
    = match mapOrRaise (filterEdge network visible) (allEdgesDataSet st0) with
      | None => Raised TypeError (setGraph nodes (allEdgesDataSet st0)
                                    (setSelected JSSet.empty st0))
      | Some es =>
          Raised ReferenceError
            (setGraph nodes es
               (setGraph nodes (allEdgesDataSet st0) (setSelected JSSet.empty st0)))
      end).
  { intros st0 Hnodes Hcat. unfold handleCategoryFilterChange, clearSidebar. simpl.
    rewrite Hcat. destruct Hnodes as [-> | ->]; [|rewrite Hn]; reflexivity. }
  rewrite (Hrun st (or_introl eq_refl) eq_refl).
  destruct (mapOrRaise (filterEdge network visible) (allEdgesDataSet st)) as [es|] eqn:He;
    simpl.
  - rewrite Hrun by (simpl; auto). simpl.
    rewrite (mapOrRaise_again (filterEdge network visible) (allEdgesDataSet st) es
               (filterEdge_again network visible) He).
    reflexivity.
  - rewrite Hrun by (simpl; auto). simpl. rewrite He. reflexivity.
Qed.

(** ** Search *)

Lemma no_lower_case_not_synthetic (s : string) :
  hasLowerCase s = false -> isSyntheticId s = false.
Proof.
  destruct s as [|c s]; [reflexivity|].
  destruct c as [[] [] [] [] [] [] [] []]; simpl; intros H;
    try discriminate H; reflexivity.
Qed.

Lemma toUpperCase_no_lower_case (s : string) : hasLowerCase (toUpperCase s) = false.
Proof.
  induction s as [|c s IH]; [reflexivity|]. simpl. rewrite IH.
  destruct c as [[] [] [] [] [] [] [] []]; reflexivity.
Qed.

(** Every member of [whiteSpace] has a byte, so a strip shortens. *)
Lemma stripPrefix_length (p s t : string) :
  stripPrefix p s = Some t -> String.length t + String.length p = String.length s.
Proof.
  revert s. induction p as [|a p IH]; intros s H; simpl in H.
  - injection H as <-. simpl. lia.
  - destruct s as [|b s]; [discriminate|].
    destruct (Ascii.eqb a b); [|discriminate].
    apply IH in H. simpl. lia.
Qed.

Lemma stripFirst_shortens (ps : list string) (s t : string) :
  Forall (fun p => 0 < String.length p) ps ->
  stripFirst ps s = Some t -> String.length t < String.length s.
Proof.
  intros Hps. induction Hps as [|p ps Hp _ IH]; simpl; [discriminate|].
  destruct (stripPrefix p s) as [t'|] eqn:Hp'.
  - intros [= <-]. apply stripPrefix_length in Hp'. lia.
  - exact IH.
Qed.

(** The turns given to [stripAll] are enough: nothing of [ps] is left in
    front of its result. *)
Lemma stripAll_done (ps : list string) (turns : nat) (s : string) :
  Forall (fun p => 0 < String.length p) ps ->
  String.length s <= turns ->
  stripFirst ps (stripAll turns ps s) = None.
Proof.
  intros Hps. revert s. induction turns as [|k IH]; intros s Hlen; simpl.
  - destruct (stripFirst ps s) as [t|] eqn:Ht; [|reflexivity].
    apply (stripFirst_shortens ps s t Hps) in Ht. lia.
  - destruct (stripFirst ps s) as [t|] eqn:Ht; [|exact Ht].
    apply IH. apply (stripFirst_shortens ps s t Hps) in Ht. lia.
Qed.

Lemma trimStart_done (s : string) : stripFirst whiteSpace (trimStart s) = None.
Proof.
  apply stripAll_done; [|apply Nat.le_refl].
  repeat constructor.
Qed.

(** [trim] on a term pasted with a no-break space in front, a narrow
    no-break space and a blank behind. *)
Example trim_removes_no_break_spaces :
  trim (bytes [194; 160] ++ "comp-250" ++ bytes [226; 128; 175] ++ " ") = "comp-250".
Proof. reflexivity. Qed.

Lemma dataSetGet_ids (ds : list Node.t) (i : string) :
  (forall n, dataSetGet ds i = Some n -> In i (nodeIds ds))
  /\ (dataSetGet ds i = None -> ~ In i (nodeIds ds)).
Proof.
  unfold dataSetGet. split.
  - intros n Hf. apply find_some in Hf. destruct Hf as [Hin He].
    apply String.eqb_eq in He. rewrite <- He. apply in_map. exact Hin.
  - intros Hf Hin. apply in_map_iff in Hin. destruct Hin as [n [Hid Hin]].
    apply (find_none _ _ Hf) in Hin. rewrite Hid, String.eqb_refl in Hin. discriminate.
Qed.

(** X18. A search never touches the graph, the selection or the filter,
    whatever [trim] and [toUpperCase] the engine supplies.  The term
    looked up is the trimmed, upper-cased input: an empty one does
    nothing; one that is no node id leaves the state as it is and raises
    the alert; one that is a node id is focused, and the sidebar shows
    its course when the catalog has it.  Given that an upper-cased string
    holds none of the letters a to z, the node found never is a junction,
    textual or N-of-list node. *)
Theorem search_finds_only_course_nodes (str : StringMethods) (coursesData : list Course)
    (input : string) (st : AppState) :
  (forall s, hasLowerCase (prototype_toUpperCase str s) = false) ->
  let searchTerm := prototype_toUpperCase str (prototype_trim str input) in
  let st' := fst (handleSearch str coursesData input st) in
  allNodesDataSet st' = allNodesDataSet st /\
  allEdgesDataSet st' = allEdgesDataSet st /\
  selectedForHighlighting_NodeIds st' = selectedForHighlighting_NodeIds st /\
  categoryFilterSelect_value st' = categoryFilterSelect_value st /\
  match snd (handleSearch str coursesData input st) with
  | NoSearch => st' = st /\ searchTerm = EmptyString
  | AlertNotFound t =>
      st' = st /\ t = searchTerm /\ ~ In t (nodeIds (allNodesDataSet st))
  | FocusAndSelect t =>
      t = searchTerm /\ In t (nodeIds (allNodesDataSet st)) /\
      isSyntheticId t = false /\
      match findCourse coursesData t with
      | Some course => st' = updateSidebar course st
      | None => st' = st
      end
  end.
Proof.
  intros Hupper searchTerm st'. unfold st', handleSearch. fold searchTerm.
  assert (Hsyn : isSyntheticId searchTerm = false)
    by (apply no_lower_case_not_synthetic, Hupper).
  destruct (truthyStr searchTerm) eqn:Ht; simpl.
  - destruct (dataSetGet_ids (allNodesDataSet st) searchTerm) as [Hsome Hnone].
    destruct (dataSetGet (allNodesDataSet st) searchTerm) as [n|] eqn:Hget; simpl.
    + destruct (findCourse coursesData searchTerm) as [course|]; simpl;
        repeat split; try reflexivity; try (apply (Hsome n eq_refl));
        exact Hsyn.
    + repeat split; try reflexivity. apply Hnone. reflexivity.
  - repeat split; try reflexivity.
    destruct searchTerm; [reflexivity | discriminate].
Qed.

(** The theorem at work, with the instance of the two methods: the term
    is typed in lower case between a no-break space and a blank, and
    COMP-250 is found on the demo graph. *)
Lemma search_finds_only_course_nodes_witness :
  let str := engineStrings in
  let input := (bytes [194; 160] ++ "comp-250 ")%string in
  let st := softwareGraph in
  let searchTerm := prototype_toUpperCase str (prototype_trim str input) in
  let st' := fst (handleSearch str demoCatalog input st) in
  (forall s, hasLowerCase (prototype_toUpperCase str s) = false) /\
  snd (handleSearch str demoCatalog input st) = FocusAndSelect "COMP-250" /\
  allNodesDataSet st' = allNodesDataSet st /\
  allEdgesDataSet st' = allEdgesDataSet st /\
  selectedForHighlighting_NodeIds st' = selectedForHighlighting_NodeIds st /\
  categoryFilterSelect_value st' = categoryFilterSelect_value st /\
  match snd (handleSearch str demoCatalog input st) with
  | NoSearch => st' = st /\ searchTerm = EmptyString
  | AlertNotFound t =>
      st' = st /\ t = searchTerm /\ ~ In t (nodeIds (allNodesDataSet st))
  | FocusAndSelect t =>
      t = searchTerm /\ In t (nodeIds (allNodesDataSet st)) /\
      isSyntheticId t = false /\
      match findCourse demoCatalog t with
      | Some course => st' = updateSidebar course st
      | None => st' = st
      end
  end.
Proof.
  intros str input st searchTerm st'.
  split; [exact toUpperCase_no_lower_case|].
  split; [reflexivity|].
  exact (search_finds_only_course_nodes str demoCatalog input st
           toUpperCase_no_lower_case).
Defined.

(** ** The handlers of [js/main.js] *)

Lemma setOpacity_setOpacity (o o' : Q) (node : Node.t) :
  setOpacity o (setOpacity o' node) = setOpacity o node.
Proof. reflexivity. Qed.

Lemma recolor_recolor (c c' : EdgeColor) (e : Edge.t) :
  recolor (recolor e c') c = recolor e c.
Proof. reflexivity. Qed.

(** X19. In [js/main.js] a click decides the look of the whole graph
    anew: the nodes and edges after a click are the same whether or not
    another click or a category change was rendered before it, so neither
    an earlier highlight nor the category dimming survives a click. *)
Theorem main_click_overrides_earlier_renders (coursesData : list Course)
    (network : Network) (params_nodes earlier : list string) (st : AppState) :
  let clickOn := handleNetworkClick_main coursesData network params_nodes in
  let graph (s : AppState) := (allNodesDataSet s, allEdgesDataSet s) in
  graph (clickOn (handleNetworkClick_main coursesData network earlier st))
  = graph (clickOn st)
  /\ graph (clickOn (handleCategoryFilterChange_main st)) = graph (clickOn st).
Proof.
  intros clickOn graph.
  assert (Hframe : forall clicked s,
            allNodesDataSet (sidebarOnClick coursesData clicked s) = allNodesDataSet s
            /\ allEdgesDataSet (sidebarOnClick coursesData clicked s) = allEdgesDataSet s).
  { intros clicked s. unfold sidebarOnClick.
    destruct clicked as [i|]; [destruct (findCourse coursesData i)|]; split; reflexivity. }
  assert (Hnodes : forall clicked (f : Node.t -> Node.t) ns,
            (forall n, Node.id (f n) = Node.id n) ->
            (forall n o, setOpacity o (f n) = setOpacity o n) ->
            mainClickNodes network clicked (map f ns) = mainClickNodes network clicked ns).
  { intros clicked f ns Hid Hset. unfold mainClickNodes.
    destruct clicked as [i|]; rewrite map_map; apply map_ext; intros n;
      rewrite Hset; [rewrite Hid|]; reflexivity. }
  assert (Hedges : forall clicked (h : Edge.t -> Edge.t) es,
            (forall e c, recolor (h e) c = recolor e c) ->
            (forall e, Edge.from (h e) = Edge.from e /\ Edge.to (h e) = Edge.to e
                       /\ Edge.baseColorType (h e) = Edge.baseColorType e) ->
            mainClickEdges clicked (map h es) = mainClickEdges clicked es).
  { intros clicked h es Hre Hends. unfold mainClickEdges.
    rewrite map_map. apply map_ext. intros e.
    destruct (Hends e) as [-> [-> ->]]. rewrite !Hre. reflexivity. }
  unfold graph, clickOn, handleNetworkClick_main. simpl.
  destruct (Hframe (clickedNodeId params_nodes) st) as [Hn He].
  rewrite Hn, He. split.
  - destruct (Hframe (clickedNodeId params_nodes)
                (setGraph
                   (mainClickNodes network (clickedNodeId earlier)
                      (allNodesDataSet (sidebarOnClick coursesData (clickedNodeId earlier) st)))
                   (mainClickEdges (clickedNodeId earlier)
                      (allEdgesDataSet (sidebarOnClick coursesData (clickedNodeId earlier) st)))
                   (sidebarOnClick coursesData (clickedNodeId earlier) st)))
      as [Hn' He'].
    rewrite Hn', He'. simpl.
    destruct (Hframe (clickedNodeId earlier) st) as [Hn0 He0]. rewrite Hn0, He0.
    f_equal.
    + unfold mainClickNodes at 2. destruct (clickedNodeId earlier);
        apply Hnodes; intros; reflexivity.
    + unfold mainClickEdges at 2. apply Hedges.
      * intros e c. destruct (clickedNodeId earlier);
          repeat match goal with |- context [if ?b then _ else _] => destruct b end;
          reflexivity.
      * intros e. destruct (clickedNodeId earlier);
          repeat match goal with |- context [if ?b then _ else _] => destruct b end;
          repeat split.
  - destruct (Hframe (clickedNodeId params_nodes) (handleCategoryFilterChange_main st))
      as [Hn' He'].
    rewrite Hn', He'. unfold handleCategoryFilterChange_main. simpl.
    f_equal. apply Hnodes; intros n; intros;
      destruct (opacityDiffers n _); reflexivity.
Qed.

(** X20. In [js/main.js] the category handler sends only the nodes whose
    opacity changes to the data set, and still every node ends at the
    opacity its category asks for, 1 inside the category (or with "all")
    and 0.2 outside; ids, groups, edges and selection-free state are kept. *)
Theorem main_category_change_sets_every_opacity (st : AppState) :
  let st' := handleCategoryFilterChange_main st in
  nodeIds (allNodesDataSet st') = nodeIds (allNodesDataSet st) /\
  map Node.group (allNodesDataSet st') = map Node.group (allNodesDataSet st) /\
  allEdgesDataSet st' = allEdgesDataSet st /\
  forall shown, In shown (allNodesDataSet st') ->
    exists o, Node.opacity shown = Some o /\
      Qeq o (if isNodeInSelectedCategory (categoryFilterSelect_value st) shown
             then 1%Q else (1 # 5)%Q).
Proof.
  intros st'. unfold st', handleCategoryFilterChange_main. simpl.
  unfold nodeIds. rewrite !map_map.
  split; [apply map_ext; intros n; destruct (opacityDiffers n _); reflexivity|].
  split; [apply map_ext; intros n; destruct (opacityDiffers n _); reflexivity|].
  split; [reflexivity|].
  intros shown Hin. apply in_map_iff in Hin. destruct Hin as [n [<- _]].
  set (new := if isNodeInSelectedCategory (categoryFilterSelect_value st) n
              then 1%Q else (1 # 5)%Q).
  destruct (opacityDiffers n new) eqn:Hd.
  - exists new. split; [reflexivity|].
    unfold isNodeInSelectedCategory. simpl. apply Qeq_refl.
  - unfold opacityDiffers in Hd.
    destruct (Node.opacity n) as [o|] eqn:Ho; [|discriminate].
    exists o. split; [reflexivity|].
    apply negb_false_iff in Hd. apply Qeq_bool_iff in Hd. exact Hd.
Qed.
